(** * coc-utils: the language-server provisioning and update engine

    A shallow embedding of [LanguageServerProvider] (langserver.ts) and
    [ServerInstaller] (installer.ts).  The two classes are asynchronous
    TypeScript code over the file system, the network, the clock, the user
    and a running language client; here every method is a computation in a
    state-and-exception monad over a [World] that holds exactly those
    collaborators.  An exception keeps the state reached when it was thrown,
    as in JavaScript, so that what a failed install leaves on disk can be
    stated. *)

From Stdlib Require Import Ascii String List ZArith Lia Bool.
From ExtLib Require Import Structures.Monad.
Import ListNotations.
Import MonadNotation.
Local Open Scope string_scope.
Local Open Scope Z_scope.
Local Open Scope monad_scope.

Set Implicit Arguments.

(** ** JavaScript values that the code throws or leaves undefined *)

(** What a [throw] (or a rejected promise) carries.  [Undefined] is the value
    of a variable that was never assigned, as [lastError] in
    [cleanupLanguageServer]. *)
Inductive Thrown : Type :=
| Undefined
| Str (s : string)
| Error (message : string)
| TypeError (message : string)
| SyntaxError (message : string)
| AssertionError (message : string)
| SystemError (code : string).

(** The string a template literal inserts for a thrown value. *)
Definition Thrown_toString (e : Thrown) : string :=
  match e with
  | Undefined => "undefined"
  | Str s => s
  | Error m => "Error: " ++ m
  | TypeError m => "TypeError: " ++ m
  | SyntaxError m => "SyntaxError: " ++ m
  | AssertionError m => "AssertionError [ERR_ASSERTION]: " ++ m
  | SystemError c => "Error: " ++ c
  end.

(** JavaScript truthiness of a [string | undefined]. *)
Definition truthy (s : option string) : bool :=
  match s with
  | Some s => negb (String.eqb s "")
  | None => false
  end.

(** ** Data model (langserver.ts) *)

Inductive Archiver : Type := zip | gzip | tar_gzip.

Definition Archiver_toString (a : Archiver) : string :=
  match a with
  | zip => "zip"
  | gzip => "gzip"
  | tar_gzip => "tar-gzip"
  end.

(** [platformFilename: string | RegExp].  A regular expression is kept as its
    source text and the predicate [exec] computes on a name. *)
Inductive PlatformFilename : Type :=
| Literal (s : string)
| Pattern (source : string) (exec : string -> bool).

Definition PlatformFilename_toString (p : PlatformFilename) : string :=
  match p with
  | Literal s => s
  | Pattern source _ => "/" ++ source ++ "/"
  end.

Record ILanguageServerPackage : Type := {
  executable : string;
  platformFilename : PlatformFilename;
  archiver : option Archiver
}.

Inductive LanguageServerRepository : Type :=
| github (repo channel : string)
| url_prefix (url : string).

Record IGithubAsset : Type := {
  asset_name : string;
  browser_download_url : string
}.

Record IDownloadInfo : Type := {
  url : string;
  version : string;
  id : Z;
  downloadedTime : Z
}.

(** [inf.downloadedTime = now] *)
Definition with_downloadedTime (now : Z) (inf : IDownloadInfo) : IDownloadInfo :=
  {| url := url inf; version := version inf; id := id inf;
     downloadedTime := now |}.

Record IGithubRelease : Type := {
  assets : list IGithubAsset;
  name : string;
  release_id : Z
}.

(** ** The world the code runs in *)

(** The text of the state file, seen through [JSON.parse]: either the text
    that [JSON.stringify] gives for a download info, or text that does not
    parse. *)
Inductive FileText : Type :=
| JsonText (inf : IDownloadInfo)
| Garbage (raw : string).

(** A downloaded archive, seen through its extractor: the files it yields
    (relative paths), and the error with which decoding stops, if it does;
    [entries] are then the files written before the error. *)
Record Archive : Type := {
  entries : list string;
  defect : option Thrown
}.

(** The extension's private storage directory.  [server] is the install
    directory, given by the relative paths of the files in it. *)
Record Storage : Type := {
  downloadinfo : option FileText;
  server : option (list string);
  server_archive : option Archive
}.

Definition empty_storage : Storage :=
  {| downloadinfo := None; server := None; server_archive := None |}.

(** What the code does to its collaborators, in order. *)
Inductive Event : Type :=
| HttpsGetJson (url : string)
| HttpsGet (url : string)
| Prompt (message : string) (answer : bool)
| ErrorMessage (message : string)
| InformationMessage (message : string)
| ProgressReport (message : string)
| Sleep (ms : Z)
| Rimraf (path : string)
| Unpack (a : Archiver)
| ClientStop
| ClientStart.

Record World : Type := {
  (* the file system *)
  storage : option Storage;           (* [extensionStoragePath], if it exists *)
  elsewhere : list string;            (* the other paths that exist *)
  (* the clock, in ms; only [setTimeout] lets time pass *)
  clock : Z;
  (* the errors with which the next calls of [rimraf.sync] fail; when the
     list is empty the call succeeds *)
  rimraf_errors : list Thrown;
  (* the network *)
  api : string -> Thrown + IGithubRelease;
  artifacts : string -> Thrown + Archive;
  (* the user, answering [window.showPrompt] *)
  user : string -> bool;
  (* the running language client: [needsStop()] *)
  client_running : bool;
  (* the trace of the run *)
  trace : list Event
}.

Definition set_storage (st : option Storage) (w : World) : World :=
  {| storage := st; elsewhere := elsewhere w; clock := clock w;
     rimraf_errors := rimraf_errors w; api := api w; artifacts := artifacts w;
     user := user w; client_running := client_running w; trace := trace w |}.

Definition set_clock (t : Z) (w : World) : World :=
  {| storage := storage w; elsewhere := elsewhere w; clock := t;
     rimraf_errors := rimraf_errors w; api := api w; artifacts := artifacts w;
     user := user w; client_running := client_running w; trace := trace w |}.

Definition set_rimraf_errors (l : list Thrown) (w : World) : World :=
  {| storage := storage w; elsewhere := elsewhere w; clock := clock w;
     rimraf_errors := l; api := api w; artifacts := artifacts w;
     user := user w; client_running := client_running w; trace := trace w |}.

Definition set_client_running (b : bool) (w : World) : World :=
  {| storage := storage w; elsewhere := elsewhere w; clock := clock w;
     rimraf_errors := rimraf_errors w; api := api w; artifacts := artifacts w;
     user := user w; client_running := b; trace := trace w |}.

Definition set_trace (t : list Event) (w : World) : World :=
  {| storage := storage w; elsewhere := elsewhere w; clock := clock w;
     rimraf_errors := rimraf_errors w; api := api w; artifacts := artifacts w;
     user := user w; client_running := client_running w; trace := t |}.

Definition add_event (e : Event) (w : World) : World :=
  set_trace (trace w ++ [e]) w.

(** ** The monad of the code *)

(** A call returns, throws, or (in the model only) runs out of the fuel that
    bounds a loop. *)
Inductive Outcome (A : Type) : Type :=
| Returned (a : A)
| Threw (e : Thrown)
| OutOfFuel.

Arguments Threw {A} e.
Arguments OutOfFuel {A}.

Definition Js (A : Type) : Type := World -> Outcome A * World.

Definition Js_ret {A} (a : A) : Js A := fun w => (Returned a, w).

Definition Js_bind {A B} (m : Js A) (k : A -> Js B) : Js B :=
  fun w =>
    match m w with
    | (Returned a, w') => k a w'
    | (Threw e, w') => (Threw e, w')
    | (OutOfFuel, w') => (OutOfFuel, w')
    end.

#[global] Instance Monad_Js : Monad Js :=
  {| ret := @Js_ret; bind := @Js_bind |}.

Definition throw {A} (e : Thrown) : Js A := fun w => (Threw e, w).

(** [try { m } catch (err) { h err }] *)
Definition try_catch {A} (m : Js A) (h : Thrown -> Js A) : Js A :=
  fun w =>
    match m w with
    | (Threw e, w') => h e w'
    | r => r
    end.

Definition get_world : Js World := fun w => (Returned w, w).
Definition modify (f : World -> World) : Js unit := fun w => (Returned tt, f w).
Definition emit (e : Event) : Js unit := modify (add_event e).

(** A value of [Thrown + A] as the call that gives it. *)
Definition settle {A} (r : Thrown + A) : Js A :=
  match r with
  | inl e => throw e
  | inr a => ret a
  end.

(** ** Collaborators *)

Definition Date_now : Js Z := fun w => (Returned (clock w), w).

(** [await new Promise((resolve) => setTimeout(resolve, ms))] *)
Definition setTimeout (ms : Z) : Js unit :=
  emit (Sleep ms) ;; modify (fun w => set_clock (clock w + ms) w).

(** utils.ts [httpsGetJson] *)
Definition httpsGetJson (u : string) : Js IGithubRelease :=
  emit (HttpsGetJson u) ;;
  w <- get_world ;;
  settle (api w u).

Definition window_showPrompt (message : string) : Js bool :=
  w <- get_world ;;
  let answer := user w message in
  emit (Prompt message answer) ;;
  ret answer.

Definition window_showErrorMessage (message : string) : Js unit :=
  emit (ErrorMessage message).

Definition window_showInformationMessage (message : string) : Js unit :=
  emit (InformationMessage message).

Definition progress_report (message : string) : Js unit :=
  emit (ProgressReport message).

(** [runningClient: LanguageClient | undefined]; the client itself lives in
    the world.  [needsStop()] tells whether it is running; [stop()] and
    [start()] do not fail. *)
Inductive LanguageClient : Type := TheClient.

Definition needsStop (_ : LanguageClient) : Js bool :=
  fun w => (Returned (client_running w), w).

Definition client_stop (_ : LanguageClient) : Js unit :=
  emit ClientStop ;; modify (set_client_running false).

Definition client_start (_ : LanguageClient) : Js unit :=
  emit ClientStart ;; modify (set_client_running true).

(** ** LanguageServerProvider (langserver.ts) *)

Definition path_join (a b : string) : string := a ++ "/" ++ b.

Record LanguageServerProvider : Type := {
  extensionStoragePath : string;
  languageServerName : string;
  languageServerPackage : ILanguageServerPackage;
  provider_repo : LanguageServerRepository
}.

(** What a path names in the world of one provider. *)
Inductive Node : Type :=
| StorageDir
| InfoFile
| ServerDir
| ArchiveFile
| ServerFile (rel : string)
| Elsewhere (p : string).

(** What is written to a file. *)
Inductive Content : Type :=
| Text (t : FileText)
| Bytes (a : Archive)
| Binary.

Fixpoint strip_prefix (a p : string) : option string :=
  match a, p with
  | EmptyString, _ => Some p
  | String c a', String d p' =>
      if Ascii.eqb c d then strip_prefix a' p' else None
  | String _ _, EmptyString => None
  end.

Definition is_some {A} (o : option A) : bool :=
  match o with Some _ => true | None => false end.

(** The directory part of a relative path, up to its last ["/"]; [None]
    when the path has no ["/"]. *)
Fixpoint dir_of (rel : string) : option string :=
  match rel with
  | EmptyString => None
  | String c rest =>
      match dir_of rest with
      | Some d => Some (String c d)
      | None => if Ascii.eqb c "/"%char then Some EmptyString else None
      end
  end.

(** Whether the directory of [rel] is there, in a directory that holds the
    files [files]: a directory below it is there when a file lies in it. *)
Definition parent_exists (rel : string) (files : list string) : bool :=
  match dir_of rel with
  | None => true
  | Some d => existsb (fun f => is_some (strip_prefix (d ++ "/") f)) files
  end.

(** A name of a file or directory: no ["/"], and none of [""], ["."],
    [".."]. *)
Definition file_name (s : string) : bool :=
  match dir_of s with
  | None =>
      negb (String.eqb s "") && negb (String.eqb s ".")
      && negb (String.eqb s "..")
  | Some _ => false
  end.

Definition set_downloadinfo (t : option FileText) (st : Storage) : Storage :=
  {| downloadinfo := t; server := server st;
     server_archive := server_archive st |}.

Definition set_server (d : option (list string)) (st : Storage) : Storage :=
  {| downloadinfo := downloadinfo st; server := d;
     server_archive := server_archive st |}.

Definition set_server_archive (a : option Archive) (st : Storage) : Storage :=
  {| downloadinfo := downloadinfo st; server := server st;
     server_archive := a |}.

Definition set_elsewhere (l : list string) (w : World) : World :=
  {| storage := storage w; elsewhere := l; clock := clock w;
     rimraf_errors := rimraf_errors w; api := api w; artifacts := artifacts w;
     user := user w; client_running := client_running w; trace := trace w |}.

Section Provider.

Variable this : LanguageServerProvider.

Definition languageServerDirectory : string :=
  path_join (extensionStoragePath this) "server".

Definition languageServerArchiver : Archiver :=
  match archiver (languageServerPackage this) with
  | Some a => a
  | None => zip
  end.

Definition languageServerArchive : string :=
  languageServerDirectory ++ "." ++ Archiver_toString languageServerArchiver.

Definition languageServerExe : string :=
  path_join languageServerDirectory (executable (languageServerPackage this)).

Definition localDownloadInfoPath : string :=
  path_join (extensionStoragePath this) "downloadinfo.json".

(** *** The file system, by path *)

Definition resolve (p : string) : Node :=
  if String.eqb p (extensionStoragePath this) then StorageDir
  else if String.eqb p localDownloadInfoPath then InfoFile
  else if String.eqb p languageServerDirectory then ServerDir
  else if String.eqb p languageServerArchive then ArchiveFile
  else
    match strip_prefix languageServerDirectory p with
    | Some (String "/"%char rel) => ServerFile rel
    | _ => Elsewhere p
    end.

Definition in_list (s : string) (l : list string) : bool :=
  existsb (String.eqb s) l.

Definition without (s : string) (l : list string) : list string :=
  filter (fun x => negb (String.eqb s x)) l.

Definition node_exists (n : Node) (w : World) : bool :=
  match n, storage w with
  | StorageDir, st => is_some st
  | InfoFile, Some st => is_some (downloadinfo st)
  | ServerDir, Some st => is_some (server st)
  | ArchiveFile, Some st => is_some (server_archive st)
  | ServerFile rel, Some {| server := Some files |} => in_list rel files
  | Elsewhere p, _ => in_list p (elsewhere w)
  | _, _ => false
  end.

(** The world without the node (and, for a directory, what is in it). *)
Definition remove_node (n : Node) (w : World) : World :=
  match n, storage w with
  | StorageDir, _ => set_storage None w
  | InfoFile, Some st => set_storage (Some (set_downloadinfo None st)) w
  | ServerDir, Some st => set_storage (Some (set_server None st)) w
  | ArchiveFile, Some st => set_storage (Some (set_server_archive None st)) w
  | ServerFile rel, Some {| downloadinfo := i; server := Some files;
                           server_archive := a |} =>
      set_storage
        (Some {| downloadinfo := i; server := Some (without rel files);
                 server_archive := a |}) w
  | Elsewhere p, _ => set_elsewhere (without p (elsewhere w)) w
  | _, _ => w
  end.

Definition existsSync (p : string) (w : World) : bool :=
  node_exists (resolve p) w.

Definition fs_existsSync (p : string) : Js bool :=
  fun w => (Returned (existsSync p w), w).

(** utils.ts [checkIfFileExists]: [fs.accessSync(filePath, R_OK)] in a
    [try] that answers [false]; every file of the world is readable. *)
Definition checkIfFileExists (filePath : string) : Js bool :=
  try_catch
    (there <- fs_existsSync filePath ;;
     if there then ret true else throw (SystemError "ENOENT"))
    (fun _ => ret false).

(** [fs.mkdirSync(p, { recursive: true })], for the two directories the
    provider makes. *)
Definition fs_mkdirSync (p : string) : Js unit :=
  let storage_dir w :=
    match storage w with
    | Some st => st
    | None => empty_storage
    end in
  match resolve p with
  | StorageDir => modify (fun w => set_storage (Some (storage_dir w)) w)
  | ServerDir =>
      modify (fun w =>
        let st := storage_dir w in
        match server st with
        | Some _ => set_storage (Some st) w
        | None => set_storage (Some (set_server (Some []) st)) w
        end)
  | _ => throw (SystemError "EINVAL")
  end.

(** [fs.writeFileSync(p, c)] and the end of a stream piped into
    [fs.createWriteStream(p)]: [ENOENT] when the directory of [p] is not
    there.  Neither makes a directory. *)
Definition write_file (p : string) (c : Content) : Js unit :=
  fun w =>
    match resolve p, c, storage w with
    | InfoFile, Text t, Some st =>
        (Returned tt, set_storage (Some (set_downloadinfo (Some t) st)) w)
    | ArchiveFile, Bytes a, Some st =>
        (Returned tt, set_storage (Some (set_server_archive (Some a) st)) w)
    | ServerFile rel, _, Some {| downloadinfo := i; server := Some files;
                                server_archive := a |} =>
        if parent_exists rel files then
          (Returned tt,
           set_storage
             (Some {| downloadinfo := i; server := Some (files ++ [rel])%list;
                      server_archive := a |}) w)
        else (Threw (SystemError "ENOENT"), w)
    | (InfoFile | ArchiveFile | ServerFile _), _, _ =>
        (Threw (SystemError "ENOENT"), w)
    | _, _, _ => (Threw (SystemError "EINVAL"), w)
    end.

(** One entry of an archive as [extract-zip] and [tar.extract] write it
    below the install directory [dir: / cwd:]: they make the directories of
    the entry as they go. *)
Definition unpack_file (p : string) : Js unit :=
  fun w =>
    match resolve p, storage w with
    | ServerFile rel, Some {| downloadinfo := i; server := Some files;
                             server_archive := a |} =>
        (Returned tt,
         set_storage
           (Some {| downloadinfo := i; server := Some (files ++ [rel])%list;
                    server_archive := a |}) w)
    | ServerFile _, _ => (Threw (SystemError "ENOENT"), w)
    | _, _ => (Threw (SystemError "EINVAL"), w)
    end.

(** [fs.readFileSync(p, "utf-8")] *)
Definition fs_readFileSync (p : string) : Js FileText :=
  fun w =>
    match resolve p, storage w with
    | InfoFile, Some {| downloadinfo := Some t |} => (Returned t, w)
    | InfoFile, _ => (Threw (SystemError "ENOENT"), w)
    | _, _ => (Threw (SystemError "EINVAL"), w)
    end.

(** [fs.unlinkSync(p)] *)
Definition fs_unlinkSync (p : string) : Js unit :=
  fun w =>
    if existsSync p w then (Returned tt, remove_node (resolve p) w)
    else (Threw (SystemError "ENOENT"), w).

(** [rimraf.sync(p)]: fails with the next scripted error, if there is one,
    and removes [p] otherwise (no error when [p] is not there). *)
Definition rimraf_sync (p : string) : Js unit :=
  emit (Rimraf p) ;;
  w <- get_world ;;
  match rimraf_errors w with
  | e :: rest => modify (set_rimraf_errors rest) ;; throw e
  | [] => modify (remove_node (resolve p))
  end.

Definition JSON_stringify (inf : IDownloadInfo) : FileText := JsonText inf.

Definition JSON_parse (t : FileText) : Js IDownloadInfo :=
  match t with
  | JsonText inf => ret inf
  | Garbage raw => throw (SyntaxError ("Unexpected token in JSON: " ++ raw))
  end.

(** *** The methods *)

Definition saveLocalDownloadInfo (inf : IDownloadInfo) : Js unit :=
  let content := JSON_stringify inf in
  let fname := localDownloadInfoPath in
  write_file fname (Text content).

(** [loadLocalDownloadInfo(): IDownloadInfo | undefined] *)
Definition loadLocalDownloadInfo : Js (option IDownloadInfo) :=
  let fname := localDownloadInfoPath in
  there <- checkIfFileExists fname ;;
  if negb there then ret None
  else
    content <- fs_readFileSync fname ;;
    inf <- JSON_parse content ;;
    ret (Some inf).

(** [fetchDownloadInfo(): Promise<IDownloadInfo>].  The two kinds of
    repository are all there are, so the last [throw] of the method is not
    reached. *)
Definition fetchDownloadInfo : Js IDownloadInfo :=
  let platformFilename := platformFilename (languageServerPackage this) in
  match provider_repo this with
  | github repo channel =>
      let api_url :=
        "https://api.github.com/repos/" ++ repo ++ "/releases/" ++ channel in
      api_result <- httpsGetJson api_url ;;
      let matched_assets :=
        filter (fun x =>
                  match platformFilename with
                  | Literal s => String.eqb (asset_name x) s
                  | Pattern _ exec => exec (asset_name x)
                  end)
               (assets api_result) in
      match matched_assets with
      | [] =>
          throw (TypeError
            "Cannot read properties of undefined (reading 'browser_download_url')")
      | first :: _ =>
          now <- Date_now ;;
          ret {| url := browser_download_url first;
                 version := name api_result;
                 id := release_id api_result;
                 downloadedTime := now |}
      end
  | url_prefix u =>
      now <- Date_now ;;
      ret {| url := u ++ "/" ++ PlatformFilename_toString platformFilename;
             version := "";
             id := 0;
             downloadedTime := now |}
  end.

(** The [while] loop of [cleanupLanguageServer].  [fuel] bounds the number of
    iterations; [cleanupLanguageServer] gives more than the timeout lets the
    loop use. *)
Fixpoint cleanup_loop (fuel : nat) (timeout startTime : Z) (lastError : Thrown)
  : Js bool :=
  match fuel with
  | O => fun w => (OutOfFuel, w)
  | S fuel =>
      now <- Date_now ;;
      if now - startTime <? timeout then
        there <- fs_existsSync languageServerDirectory ;;
        if negb there then ret false
        else
          try_catch
            (rimraf_sync languageServerDirectory ;;
             rimraf_sync localDownloadInfoPath ;;
             ret true)
            (fun error =>
               setTimeout 100 ;;
               cleanup_loop fuel timeout startTime error)
      else throw lastError
  end.

(** [cleanupLanguageServer(timeout: number = 1000): Promise<boolean>] *)
Definition cleanupLanguageServer (timeout : Z) : Js bool :=
  startTime <- Date_now ;;
  let lastError := Undefined in
  cleanup_loop (S (Z.to_nat timeout)) timeout startTime lastError.

Definition default_timeout : Z := 1000.

(** [httpsGet(u, ...)] whose callback pipes the response into
    [fs.createWriteStream(this.languageServerArchive)] *)
Definition httpsGet_to_archive (u : string) : Js unit :=
  emit (HttpsGet u) ;;
  w <- get_world ;;
  a <- settle (artifacts w u) ;;
  write_file languageServerArchive (Bytes a).

(** The [switch (this.languageServerArchiver)] of [downloadLanguageServer]:
    [zip] and [tar-gzip] unpack the entries of the archive below the install
    directory, [gzip] pipes the one decompressed file into
    [createWriteStream(this.languageServerExe)], whose [error] (the
    directory of the executable is not there) rejects before anything is
    decompressed. *)
Fixpoint write_entries (l : list string) : Js unit :=
  match l with
  | [] => ret tt
  | rel :: l =>
      unpack_file (path_join languageServerDirectory rel) ;;
      write_entries l
  end.

Definition extract_archive : Js unit :=
  emit (Unpack languageServerArchiver) ;;
  w <- get_world ;;
  match storage w with
  | Some {| server_archive := Some a |} =>
      match languageServerArchiver with
      | zip | tar_gzip => write_entries (entries a)
      | gzip => write_file languageServerExe Binary
      end ;;
      match defect a with
      | Some e => throw e
      | None => ret tt
      end
  | _ => throw (SystemError "ENOENT")
  end.

(** [downloadLanguageServer], after the early return: lines 484 to 548. *)
Definition replace_installation (downinfo : IDownloadInfo) : Js unit :=
  cleanupLanguageServer default_timeout ;;
  fs_mkdirSync languageServerDirectory ;;
  progress_report ("Downloading " ++ languageServerName this) ;;
  httpsGet_to_archive (url downinfo) ;;
  progress_report ("Extracting " ++ languageServerName this) ;;
  extract_archive ;;
  fs_unlinkSync languageServerArchive ;;
  (* update timestamp *)
  now <- Date_now ;;
  saveLocalDownloadInfo (with_downloadedTime now downinfo).

(** [downloadLanguageServer(): Promise<void>] *)
Definition downloadLanguageServer : Js unit :=
  there <- fs_existsSync (extensionStoragePath this) ;;
  (if negb there then fs_mkdirSync (extensionStoragePath this) else ret tt) ;;
  progress_report ("Looking for " ++ languageServerName this ++ " updates") ;;
  downinfo <- fetchDownloadInfo ;;
  localinfo <- loadLocalDownloadInfo ;;
  match localinfo with
  | Some localinfo =>
      if (id localinfo =? id downinfo)
         && String.eqb (version localinfo) (version downinfo)
      then
        (* update localinfo timestamp and return *)
        now <- Date_now ;;
        saveLocalDownloadInfo (with_downloadedTime now localinfo)
      else replace_installation downinfo
  | None => replace_installation downinfo
  end.

(** [getLanguageServerIfDownloaded(): string | undefined] *)
Definition getLanguageServerIfDownloaded : Js (option string) :=
  there <- fs_existsSync languageServerExe ;;
  if negb there then ret None else ret (Some languageServerExe).

(** [getLanguageServerVersion(): string | undefined] *)
Definition getLanguageServerVersion : Js (option string) :=
  inf <- loadLocalDownloadInfo ;;
  ret (option_map version inf).

(** [shouldRegularUpdate(): boolean] *)
Definition shouldRegularUpdate : Js bool :=
  let thres := 7 * 86400000 in
  info <- loadLocalDownloadInfo ;;
  match info with
  | None => ret true
  | Some info =>
      now <- Date_now ;;
      ret (thres <=? now - downloadedTime info)
  end.

End Provider.

(** ** ServerInstaller (installer.ts) *)

Inductive EnsureInstalledResult : Type :=
| NotAvailable (error : Thrown)                    (* available: false *)
| Skipped (path : option string)                   (* installed: false *)
| Installed (path : option string) (version : option string).

Record Versions : Type := {
  oldVersion : option string;
  newVersion : option string
}.

Inductive EnsureUpdatedResult : Type :=
| StatusCustomPath
| StatusUpToDate
| OutdatedSkipped (versions : option Versions) (error : Thrown)  (* updated: false *)
| OutdatedUpdated (versions : Versions).                         (* updated: true *)

Inductive CheckVersionResult : Type :=
| notInstalled
| customPathResult
| different (currentVersion latestVersion : string)
| same (version : string).

(** [installResult.installed] and [installResult.version] *)
Definition result_installed (r : EnsureInstalledResult) : bool :=
  match r with
  | Installed _ _ => true
  | _ => false
  end.

Definition result_version (r : EnsureInstalledResult) : option string :=
  match r with
  | Installed _ version => version
  | _ => None
  end.

Record ServerInstaller : Type := {
  serverName : string;
  provider : LanguageServerProvider;
  repo : LanguageServerRepository;
  customPath : option string
}.

(** [if (runningClient?.needsStop()) await runningClient?.stop()] *)
Definition stop_if_needed (runningClient : option LanguageClient) : Js unit :=
  match runningClient with
  | Some client =>
      needs <- needsStop client ;;
      if needs then client_stop client else ret tt
  | None => ret tt
  end.

(** [runningClient?.start()] *)
Definition start_if_any (runningClient : option LanguageClient) : Js unit :=
  match runningClient with
  | Some client => client_start client
  | None => ret tt
  end.

(** [assert(value)] *)
Definition assert (value : bool) : Js unit :=
  if value then ret tt
  else throw (AssertionError "The expression evaluated to a falsy value").

Section Installer.

Variable this : ServerInstaller.

Definition isCustomPath : bool := truthy (customPath this).

(** [get path(): string | undefined] *)
Definition path : Js (option string) :=
  let customPath := customPath this in
  if truthy customPath then
    match customPath with
    | Some customPath =>
        there <- fs_existsSync (provider this) customPath ;;
        ret (if there then Some customPath else None)
    | None => ret None
    end
  else getLanguageServerIfDownloaded (provider this).

(** [checkInstalled(): boolean], that is [!!path && existsSync(path)] *)
Definition checkInstalled : Js bool :=
  path <- path ;;
  if truthy path then
    match path with
    | Some p => fs_existsSync (provider this) p
    | None => ret false
    end
  else ret false.

(** [checkVersion(): Promise<CheckVersionResult>] *)
Definition checkVersion : Js CheckVersionResult :=
  let customPath := customPath this in
  if truthy customPath then ret customPathResult
  else
    inf <- loadLocalDownloadInfo (provider this) ;;
    match option_map version inf with
    | None => ret notInstalled
    | Some currentVersion =>
        downinfo <- fetchDownloadInfo (provider this) ;;
        let latestVersion := version downinfo in
        if negb (String.eqb currentVersion latestVersion)
        then ret (different currentVersion latestVersion)
        else ret (same currentVersion)
    end.

Definition install : Js unit := downloadLanguageServer (provider this).

(** [!ask || !(await window.showPrompt(message))] *)
Definition not_confirmed (ask : bool) (message : string) : Js bool :=
  if negb ask then ret true
  else
    answer <- window_showPrompt message ;;
    ret (negb answer).

(** [ensureInstalled(ask, doInstall): Promise<EnsureInstalledResult>] *)
Definition ensureInstalled (ask doInstall : bool) : Js EnsureInstalledResult :=
  installed <- checkInstalled ;;
  if installed then
    p <- path ;;
    ret (Skipped p)
  else if truthy (customPath this) then
    ret (NotAvailable
           (Str ("Custom server path ("
                 ++ match customPath this with Some c => c | None => "" end
                 ++ ") is specified," ++ " but the server is not found")))
  else if negb doInstall then
    ret (NotAvailable (Str "doInstall is not set"))
  else
    let source :=
      match repo this with
      | github _ _ => "GitHub Release"
      | url_prefix u => u
      end in
    let message :=
      serverName this ++ " is not found. Download from " ++ source ++ "?" in
    cancelled <- not_confirmed ask message ;;
    if cancelled then ret (NotAvailable (Str "Cancelled by user"))
    else
      try_catch
        (install ;;
         version <- getLanguageServerVersion (provider this) ;;
         p <- path ;;
         ret (Installed p version))
        (fun err =>
           window_showErrorMessage
             ("Failed to download " ++ serverName this ++ ": "
              ++ Thrown_toString err) ;;
           ret (NotAvailable err)).

(** The [try] block of [ensureUpdated]: it returns from the method ([inl]),
    or leaves [currentVersion] and [latestVersion] assigned ([inr]). *)
Definition ensureUpdated_check (ask doInstall showMessage : bool)
    (runningClient : option LanguageClient)
  : Js (EnsureUpdatedResult + string * string) :=
  versionResult <- checkVersion ;;
  match versionResult with
  | notInstalled =>
      stop_if_needed runningClient ;;
      installResult <- ensureInstalled ask doInstall ;;
      start_if_any runningClient ;;
      match installResult with
      | NotAvailable error => ret (inl (OutdatedSkipped None error))
      | _ =>
          (* Previously not installed but ensureInstalled() make it
             available, so it should successfully install the server. *)
          assert (result_installed installResult) ;;
          ret (inl (OutdatedUpdated
                      {| oldVersion := None;
                         newVersion := result_version installResult |}))
      end
  | customPathResult => ret (inl StatusCustomPath)
  | same _ =>
      (if showMessage then
         window_showInformationMessage
           ("Your " ++ serverName this ++ " is up to date.")
       else ret tt) ;;
      ret (inl StatusUpToDate)
  | different currentVersion latestVersion =>
      ret (inr (currentVersion, latestVersion))
  end.

(** [ensureUpdated(ask, doInstall, showMessage, runningClient)] *)
Definition ensureUpdated (ask doInstall showMessage : bool)
    (runningClient : option LanguageClient) : Js EnsureUpdatedResult :=
  checked <-
    try_catch
      (ensureUpdated_check ask doInstall showMessage runningClient)
      (fun err =>
         window_showErrorMessage
           ("Failed to fetch latest version: " ++ Thrown_toString err) ;;
         ret (inl (OutdatedSkipped None err))) ;;
  match checked with
  | inl result => ret result
  | inr (currentVersion, latestVersion) =>
      let versions :=
        {| oldVersion := Some currentVersion;
           newVersion := Some latestVersion |} in
      if negb doInstall then
        ret (OutdatedSkipped (Some versions) (Str "doInstall is not set"))
      else
        let message :=
          serverName this ++ " has a new release: " ++ latestVersion
          ++ " (current: " ++ currentVersion ++ ")" in
        cancelled <- not_confirmed ask message ;;
        if cancelled then
          ret (OutdatedSkipped (Some versions) (Str "Cancelled by user"))
        else
          stop_if_needed runningClient ;;
          failed <-
            try_catch
              (install ;; ret None)
              (fun err =>
                 window_showErrorMessage
                   ("Failed to upgrade " ++ serverName this ++ ": "
                    ++ Thrown_toString err) ;;
                 start_if_any runningClient ;;
                 ret (Some (OutdatedSkipped (Some versions) err))) ;;
          match failed with
          | Some result => ret result
          | None =>
              start_if_any runningClient ;;
              ret (OutdatedUpdated versions)
          end
  end.

End Installer.

(** ** What a run leaves behind *)

(** The state file and the install directory of a world. *)
Definition record_of (w : World) : option FileText :=
  match storage w with
  | Some st => downloadinfo st
  | None => None
  end.

Definition install_dir (w : World) : option (list string) :=
  match storage w with
  | Some st => server st
  | None => None
  end.

(** The events that do not touch the language client. *)
Definition quiet_event (e : Event) : bool :=
  match e with
  | ClientStop | ClientStart => false
  | _ => true
  end.

(** [w'] is reached from [w] with the client left alone. *)
Definition installer_step (w w' : World) : Prop :=
  (exists evs, trace w' = (trace w ++ evs)%list
               /\ forallb quiet_event evs = true)
  /\ client_running w' = client_running w.

(** [w'] is reached from [w] with the client left alone and the state file
    either as it was or deleted. *)
Definition provider_step (w w' : World) : Prop :=
  installer_step w w'
  /\ (record_of w' = record_of w \/ record_of w' = None).

(** Every run of [m] ends, and in a world that [R] relates to the first. *)
Definition safe (R : World -> World -> Prop) {A} (m : Js A) : Prop :=
  forall w, R w (snd (m w)) /\ fst (m w) <> OutOfFuel.

(** Every run of [m] that throws ends in a world that [R] relates to the
    first. *)
Definition fails_within (R : World -> World -> Prop) {A} (m : Js A) : Prop :=
  forall w e, fst (m w) = Threw e -> R w (snd (m w)).

(** The loop of [cleanupLanguageServer] on a directory that is there, as a
    recurrence: [remaining] is the timeout less the time elapsed, [errs] the
    errors with which the next deletions fail. *)
Fixpoint cleanup_result (errs : list Thrown) (remaining : Z)
    (lastError : Thrown) : Outcome bool :=
  if 0 <? remaining then
    match errs with
    | [] => Returned true
    | e :: errs => cleanup_result errs (remaining - 100) e
    end
  else Threw lastError.

(** The number of deletions that a timeout lets the loop attempt: one per
    interval of 100 ms begun before the timeout. *)
Definition attempts (timeout : Z) : nat := Z.to_nat ((timeout + 99) / 100).

(** Whether a trace leaves the client stopped, [stopped] being what it was
    before. *)
Fixpoint left_stopped (stopped : bool) (evs : list Event) : bool :=
  match evs with
  | [] => stopped
  | ClientStop :: evs => left_stopped true evs
  | ClientStart :: evs => left_stopped false evs
  | _ :: evs => left_stopped stopped evs
  end.

(** [w'] is reached from [w]: the trace only grows. *)
Definition extends (w w' : World) : Prop :=
  exists evs, trace w' = (trace w ++ evs)%list.

(** [w'] is reached from [w] with the client either left alone, or started
    after whatever else was done to it, and running. *)
Definition settled (w w' : World) : Prop :=
  exists evs, trace w' = (trace w ++ evs)%list
    /\ ((forallb quiet_event evs = true
         /\ client_running w' = client_running w)
        \/ ((forall stopped, left_stopped stopped evs = false)
            /\ client_running w' = true)).

(** No run of [m] throws. *)
Definition no_throw {A} (m : Js A) : Prop :=
  forall w e, fst (m w) <> Threw e.

(** [w'] is reached from [w] between [stop_if_needed] and [start_if_any]:
    with no client there is nothing to stop. *)
Definition stopped_for (runningClient : option LanguageClient)
    (w w' : World) : Prop :=
  extends w w' /\ (runningClient = None -> installer_step w w').

(** The events of [fetchDownloadInfo] and of the progress indicator. *)
Definition lookup_event (e : Event) : bool :=
  match e with
  | HttpsGetJson _ | ProgressReport _ => true
  | _ => false
  end.

(** ** Sample configurations *)

Module Sample.

Definition package : ILanguageServerPackage :=
  {| executable := "bin/tool";
     platformFilename := Literal "tool-linux-x64.tar.gz";
     archiver := Some tar_gzip |}.

Definition releases : LanguageServerRepository := github "owner/tool" "latest".
Definition mirror : LanguageServerRepository := url_prefix "https://example.org/dl".

Definition provider_of (r : LanguageServerRepository) : LanguageServerProvider :=
  {| extensionStoragePath := "/data";
     languageServerName := "tool";
     languageServerPackage := package;
     provider_repo := r |}.

Definition installer_of (r : LanguageServerRepository)
    (custom : option string) : ServerInstaller :=
  {| serverName := "tool"; provider := provider_of r; repo := r;
     customPath := custom |}.

Definition release (i : Z) (label : string) : IGithubRelease :=
  {| assets := [ {| asset_name := "tool-osx-x64.tar.gz";
                    browser_download_url := "https://example.org/osx" |};
                 {| asset_name := "tool-linux-x64.tar.gz";
                    browser_download_url := "https://example.org/linux" |} ];
     name := label;
     release_id := i |}.

Definition good_archive : Archive :=
  {| entries := ["bin/tool"; "README"]; defect := None |}.

Definition bad_archive : Archive :=
  {| entries := ["README"]; defect := Some (Error "unexpected end of file") |}.

Definition record (i : Z) (label : string) : IDownloadInfo :=
  {| url := "https://example.org/linux"; version := label; id := i;
     downloadedTime := 1000 |}.

(** A world at time 5000 with a running client and a user who accepts. *)
Definition world (st : option Storage) (latest : IGithubRelease)
    (a : Archive) (errs : list Thrown) : World :=
  {| storage := st;
     elsewhere := ["/opt/tool/bin/tool"];
     clock := 5000;
     rimraf_errors := errs;
     api := fun u =>
       if String.eqb u "https://api.github.com/repos/owner/tool/releases/latest"
       then inr latest else inl (Error "Bad response: 404");
     artifacts := fun u =>
       if String.eqb u "https://example.org/linux"
          || String.eqb u "https://example.org/dl/tool-linux-x64.tar.gz"
       then inr a else inl (Error "Invalid response: 404");
     user := fun _ => true;
     client_running := true;
     trace := [] |}.

Definition installed (i : Z) (label : string) : option Storage :=
  Some {| downloadinfo := Some (JsonText (record i label));
          server := Some ["bin/tool"; "README"];
          server_archive := None |}.

(** The executable is there and the state file is not. *)
Definition stray : option Storage :=
  Some {| downloadinfo := None;
          server := Some ["bin/tool"];
          server_archive := None |}.

End Sample.

(** ** platform.ts *)

Inductive OperatingSystem : Type := Unknown | Windows | MacOS | Linux.

Record IPlatformDetails : Type := {
  operatingSystem : OperatingSystem;
  isOS64Bit : bool;
  isProcess64Bit : bool;
  architecture : string
}.

(** What the code reads of the Node.js [process]: [process.platform],
    [process.arch] and whether [process.env] has the property
    [PROCESSOR_ARCHITEW6432]. *)
Record Process : Type := {
  process_platform : string;
  process_arch : string;
  env_PROCESSOR_ARCHITEW6432 : bool
}.

Definition getPlatformDetails (process : Process) : IPlatformDetails :=
  let operatingSystem :=
    if String.eqb (process_platform process) "win32" then Windows
    else if String.eqb (process_platform process) "darwin" then MacOS
    else if String.eqb (process_platform process) "linux" then Linux
    else Unknown in
  let isProcess64Bit :=
    String.eqb (process_arch process) "x64"
    || String.eqb (process_arch process) "aarch64"
    || String.eqb (process_arch process) "arm64" in
  {| operatingSystem := operatingSystem;
     isOS64Bit := isProcess64Bit || env_PROCESSOR_ARCHITEW6432 process;
     isProcess64Bit := isProcess64Bit;
     architecture := process_arch process |}.

Definition getPlatformSignature (process : Process) : string :=
  let plat := getPlatformDetails process in
  let os_sig :=
    match operatingSystem plat with
    | Windows => "win"
    | Linux => "linux"
    | MacOS => "osx"
    | Unknown => "unknown"
    end in
  os_sig ++ "-" ++ architecture plat.

(** ** The constructors and [getLanguageServer] *)

(** [ILanguageServerPackages]: an object indexed by platform signature;
    [packs sig] is [packs[sig]]. *)
Definition ILanguageServerPackages : Type :=
  string -> option ILanguageServerPackage.

(** [new LanguageServerProvider(extension, name, packs, repo)], with
    [storagePath] for [extension.storagePath]; the paths that the
    constructor stores are the definitions of the section [Provider]. *)
Definition new_LanguageServerProvider (process : Process)
    (storagePath name : string) (packs : ILanguageServerPackages)
    (repo : LanguageServerRepository) : Thrown + LanguageServerProvider :=
  let platsig := getPlatformSignature process in
  match packs platsig with
  | None => inl (Str "Platform not supported")
  | Some pack =>
      inr {| extensionStoragePath := storagePath;
             languageServerName := name;
             languageServerPackage := pack;
             provider_repo := repo |}
  end.

(** [new ServerInstaller(serverName, extctx, packs, repo, customPath)] *)
Definition new_ServerInstaller (process : Process)
    (serverName storagePath : string) (packs : ILanguageServerPackages)
    (repo : LanguageServerRepository) (customPath : option string)
  : Thrown + ServerInstaller :=
  match new_LanguageServerProvider process storagePath serverName packs repo with
  | inl e => inl e
  | inr provider =>
      inr {| serverName := serverName; provider := provider; repo := repo;
             customPath := customPath |}
  end.

(** [fs.chmodSync(p, "755")]: [ENOENT] when [p] is not there; the world
    keeps no file modes. *)
Definition fs_chmodSync (this : LanguageServerProvider) (p : string) : Js unit :=
  fun w =>
    if existsSync this p w then (Returned tt, w)
    else (Threw (SystemError "ENOENT"), w).

Definition is_Windows (os : OperatingSystem) : bool :=
  match os with
  | Windows => true
  | _ => false
  end.

(** [getLanguageServer(): Promise<string>] *)
Definition getLanguageServer (this : LanguageServerProvider)
    (process : Process) : Js string :=
  let plat := getPlatformDetails process in
  there <- fs_existsSync this (languageServerExe this) ;;
  needed <- (if negb there then ret true else shouldRegularUpdate this) ;;
  (if needed then downloadLanguageServer this else ret tt) ;;
  (* Make sure the server is executable *)
  (if negb (is_Windows (operatingSystem plat))
   then fs_chmodSync this (languageServerExe this)
   else ret tt) ;;
  ret (languageServerExe this).

(** ** Further notions for the properties *)

(** The test of the [filter] in [fetchDownloadInfo]. *)
Definition asset_matches (p : PlatformFilename) (x : IGithubAsset) : bool :=
  match p with
  | Literal s => String.eqb (asset_name x) s
  | Pattern _ exec => exec (asset_name x)
  end.

(** The address that [fetchDownloadInfo] asks for a [github] repository. *)
Definition api_url (repo channel : string) : string :=
  "https://api.github.com/repos/" ++ repo ++ "/releases/" ++ channel.

(** What [fetchDownloadInfo] resolves, by the network and the clock. *)
Definition resolved (this : LanguageServerProvider)
    (net : string -> Thrown + IGithubRelease) (now : Z) : Outcome IDownloadInfo :=
  match provider_repo this with
  | github repo channel =>
      match net (api_url repo channel) with
      | inl e => Threw e
      | inr release =>
          match find (asset_matches (platformFilename (languageServerPackage this)))
                     (assets release) with
          | Some first =>
              Returned {| url := browser_download_url first;
                          version := name release;
                          id := release_id release;
                          downloadedTime := now |}
          | None =>
              Threw (TypeError
                "Cannot read properties of undefined (reading 'browser_download_url')")
          end
      end
  | url_prefix u =>
      Returned {| url := u ++ "/"
                         ++ PlatformFilename_toString
                              (platformFilename (languageServerPackage this));
                  version := ""; id := 0; downloadedTime := now |}
  end.

(** [w'] is [w] with a longer trace, the new events all in [P]: nothing on
    disk, on the clock, in the network or of the client differs. *)
Definition looked (P : Event -> bool) (w w' : World) : Prop :=
  exists evs, forallb P evs = true /\ w' = set_trace (trace w ++ evs) w.

(** The network and the user are those of [w]. *)
Definition same_remote (w w' : World) : Prop :=
  api w' = api w /\ artifacts w' = artifacts w /\ user w' = user w.

(** Every run of [m] that returns ends in a world where [Q] holds. *)
Definition returns_in (Q : World -> Prop) {A} (m : Js A) : Prop :=
  forall w a, fst (m w) = Returned a -> Q (snd (m w)).

(** The events of looking at the network and of talking to the user. *)
Definition dialogue_event (e : Event) : bool :=
  match e with
  | HttpsGetJson _ | Prompt _ _ | ErrorMessage _ | InformationMessage _ => true
  | _ => false
  end.

(** [w'] has the state file of [w]. *)
Definition same_record (w w' : World) : Prop := record_of w' = record_of w.

(** * Properties *)

(** ** Paths *)

Lemma append_assoc (a b c : string) : ((a ++ b) ++ c = a ++ (b ++ c))%string.
Proof. induction a as [|x a IH]; simpl; [reflexivity | now rewrite IH]. Qed.

Lemma append_inj_l (a x y : string) : (a ++ x = a ++ y)%string -> x = y.
Proof.
  induction a as [|c a IH]; simpl; intros H; [exact H|].
  injection H as H. now apply IH.
Qed.

Lemma append_empty_r (a : string) : (a ++ "")%string = a.
Proof. induction a as [|c a IH]; simpl; [reflexivity | now rewrite IH]. Qed.

Lemma strip_prefix_append (a b : string) : strip_prefix a (a ++ b) = Some b.
Proof.
  induction a as [|c a IH]; simpl; [reflexivity|].
  now rewrite Ascii.eqb_refl.
Qed.

(** Two paths below the same directory differ when their tails do. *)
Lemma below_neq (a x y : string) :
  x <> y -> String.eqb (a ++ x) (a ++ y) = false.
Proof.
  intros Hxy. apply String.eqb_neq. intros H. apply Hxy.
  now apply append_inj_l in H.
Qed.

Lemma below_neq_self (a x : string) :
  x <> ""%string -> String.eqb (a ++ x) a = false.
Proof.
  intros Hx. rewrite <- (append_empty_r a) at 2. now apply below_neq.
Qed.

Section Paths.

Variable this : LanguageServerProvider.

Lemma directory_below_storage :
  languageServerDirectory this
  = (extensionStoragePath this ++ "/server")%string.
Proof. reflexivity. Qed.

Lemma resolve_storage : resolve this (extensionStoragePath this) = StorageDir.
Proof. unfold resolve. now rewrite String.eqb_refl. Qed.

Lemma resolve_info : resolve this (localDownloadInfoPath this) = InfoFile.
Proof.
  unfold resolve. rewrite String.eqb_refl.
  unfold localDownloadInfoPath, path_join.
  now rewrite below_neq_self by discriminate.
Qed.

Lemma resolve_directory :
  resolve this (languageServerDirectory this) = ServerDir.
Proof.
  unfold resolve. rewrite String.eqb_refl.
  unfold localDownloadInfoPath, languageServerDirectory, path_join.
  rewrite below_neq_self by discriminate.
  now rewrite below_neq by discriminate.
Qed.

Lemma resolve_archive :
  resolve this (languageServerArchive this) = ArchiveFile.
Proof.
  unfold resolve. rewrite String.eqb_refl.
  unfold languageServerArchive. rewrite (below_neq_self _ (x := "." ++ _)).
  2: discriminate.
  rewrite directory_below_storage, append_assoc.
  unfold localDownloadInfoPath, path_join.
  rewrite below_neq_self by discriminate.
  now rewrite below_neq by discriminate.
Qed.

Lemma resolve_server_file (rel : string) :
  resolve this (path_join (languageServerDirectory this) rel) = ServerFile rel.
Proof.
  unfold resolve, path_join.
  rewrite strip_prefix_append.
  rewrite (below_neq_self _ (x := "/" ++ rel)) by (simpl; discriminate).
  unfold languageServerArchive.
  rewrite below_neq by (simpl; discriminate).
  rewrite directory_below_storage, append_assoc.
  unfold localDownloadInfoPath, path_join.
  rewrite below_neq_self by (simpl; discriminate).
  now rewrite below_neq by (simpl; discriminate).
Qed.

Lemma resolve_exe :
  resolve this (languageServerExe this)
  = ServerFile (executable (languageServerPackage this)).
Proof. apply resolve_server_file. Qed.

End Paths.

(** ** Rules for [safe] and [fails_within] *)

Section Rules.

Variable R : World -> World -> Prop.
Hypothesis R_refl : forall w, R w w.
Hypothesis R_trans : forall a b c, R a b -> R b c -> R a c.

Lemma safe_ret A (a : A) : safe R (ret a).
Proof. intros w; cbn; split; [apply R_refl | discriminate]. Qed.

Lemma safe_throw A (e : Thrown) : safe R (@throw A e).
Proof. intros w; cbn; split; [apply R_refl | discriminate]. Qed.

Lemma safe_bind A B (m : Js A) (k : A -> Js B) :
  safe R m -> (forall a, safe R (k a)) -> safe R (bind m k).
Proof.
  intros Hm Hk w. cbn. unfold Js_bind.
  destruct (Hm w) as [Hw Hf].
  destruct (m w) as [[a|e|] w1]; cbn in *.
  - destruct (Hk a w1) as [Hw1 Hf1]. split; [eapply R_trans; eauto | exact Hf1].
  - split; [exact Hw | discriminate].
  - now elim Hf.
Qed.

Lemma safe_try_catch A (m : Js A) (h : Thrown -> Js A) :
  safe R m -> (forall e, safe R (h e)) -> safe R (try_catch m h).
Proof.
  intros Hm Hh w. unfold try_catch.
  destruct (Hm w) as [Hw Hf].
  destruct (m w) as [[a|e|] w1]; cbn in *.
  - split; [exact Hw | discriminate].
  - destruct (Hh e w1) as [Hw1 Hf1]. split; [eapply R_trans; eauto | exact Hf1].
  - now elim Hf.
Qed.

Lemma safe_settle A (r : Thrown + A) : safe R (settle r).
Proof. destruct r; [apply safe_throw | apply safe_ret]. Qed.

Lemma safe_get_world : safe R get_world.
Proof. intros w; cbn; split; [apply R_refl | discriminate]. Qed.

Lemma safe_modify (f : World -> World) :
  (forall w, R w (f w)) -> safe R (modify f).
Proof. intros Hf w; cbn; split; [apply Hf | discriminate]. Qed.

Lemma safe_pure A (f : World -> A) : safe R (fun w => (Returned (f w), w)).
Proof. intros w; cbn; split; [apply R_refl | discriminate]. Qed.

Lemma fails_within_safe A (m : Js A) : safe R m -> fails_within R m.
Proof. intros Hm w e _. apply Hm. Qed.

Lemma fails_within_bind A B (m : Js A) (k : A -> Js B) :
  safe R m -> (forall a, fails_within R (k a)) -> fails_within R (bind m k).
Proof.
  intros Hm Hk w e. cbn. unfold Js_bind.
  destruct (Hm w) as [Hw _].
  destruct (m w) as [[a|e'|] w1]; cbn in *; intros He.
  - eapply R_trans; [exact Hw|]. eapply Hk; eauto.
  - exact Hw.
  - discriminate.
Qed.

End Rules.

Lemma safe_weaken (R R' : World -> World -> Prop) A (m : Js A) :
  (forall w w', R w w' -> R' w w') -> safe R m -> safe R' m.
Proof. intros HR Hm w. destruct (Hm w). split; auto. Qed.

(** ** The two step relations *)

Lemma installer_step_refl w : installer_step w w.
Proof.
  split; [|reflexivity]. exists []. now rewrite app_nil_r.
Qed.

Lemma installer_step_trans a b c :
  installer_step a b -> installer_step b c -> installer_step a c.
Proof.
  intros [[e1 [T1 Q1]] C1] [[e2 [T2 Q2]] C2]. split; [|congruence].
  exists (e1 ++ e2)%list. rewrite T2, T1, app_assoc. split; [reflexivity|].
  rewrite forallb_app, Q1, Q2. reflexivity.
Qed.

Lemma provider_step_refl w : provider_step w w.
Proof. split; [apply installer_step_refl | now left]. Qed.

Lemma provider_step_trans a b c :
  provider_step a b -> provider_step b c -> provider_step a c.
Proof.
  intros [S1 D1] [S2 D2]. split; [eapply installer_step_trans; eauto|].
  destruct D2 as [D2|D2]; [rewrite D2; exact D1 | now right].
Qed.

Lemma provider_step_installer w w' : provider_step w w' -> installer_step w w'.
Proof. now intros [H _]. Qed.

(** The changes of the world that are provider steps. *)
Lemma provider_step_event e w :
  quiet_event e = true -> provider_step w (add_event e w).
Proof.
  intros He. repeat split; [|now left]. exists [e]. cbn. now rewrite He.
Qed.

Lemma provider_step_clock t w : provider_step w (set_clock t w).
Proof.
  split; [|now left]. split; [|reflexivity].
  exists []. cbn. now rewrite app_nil_r.
Qed.

Lemma provider_step_rimraf_errors l w : provider_step w (set_rimraf_errors l w).
Proof.
  split; [|now left]. split; [|reflexivity].
  exists []. cbn. now rewrite app_nil_r.
Qed.

Lemma provider_step_elsewhere l w : provider_step w (set_elsewhere l w).
Proof.
  split; [|now left]. split; [|reflexivity].
  exists []. cbn. now rewrite app_nil_r.
Qed.

Lemma provider_step_storage st w :
  match st with Some st => downloadinfo st | None => None end = record_of w
  \/ match st with Some st => downloadinfo st | None => None end = None ->
  provider_step w (set_storage st w).
Proof.
  intros H. split; [|exact H]. split; [|reflexivity].
  exists []. cbn. now rewrite app_nil_r.
Qed.

Lemma installer_step_storage st w : installer_step w (set_storage st w).
Proof. split; [|reflexivity]. exists []. cbn. now rewrite app_nil_r. Qed.

Lemma installer_step_event e w :
  quiet_event e = true -> installer_step w (add_event e w).
Proof. intros He. split; [|reflexivity]. exists [e]. cbn. now rewrite He. Qed.

(** ** The provider's operations are provider steps *)

Ltac step_side :=
  first [ exact provider_step_refl | exact provider_step_trans
        | exact installer_step_refl | exact installer_step_trans ].

Ltac safe_rule :=
  lazymatch goal with
  | |- safe _ (bind _ _) => apply safe_bind; [step_side | | intros ?]
  | |- safe _ (ret _) => apply safe_ret; step_side
  | |- safe _ (Js_ret _) => apply safe_ret; step_side
  | |- safe _ (throw _) => apply safe_throw; step_side
  | |- safe _ (try_catch _ _) => apply safe_try_catch; [step_side | | intros ?]
  | |- safe _ (settle _) => apply safe_settle; step_side
  | |- safe _ get_world => apply safe_get_world; step_side
  | |- safe _ (modify _) => apply safe_modify; intros ?
  | |- safe _ (if ?b then _ else _) => destruct b
  | |- safe _ (match ?x with _ => _ end) => destruct x
  end.

Create HintDb provider.
Create HintDb installer.

Ltac provider_safe := repeat safe_rule; auto with provider.
Ltac installer_safe := repeat safe_rule; auto with installer.

Lemma provider_emit e : quiet_event e = true -> safe provider_step (emit e).
Proof.
  intros He. apply safe_modify. intros w. now apply provider_step_event.
Qed.

#[global] Hint Extern 1 (safe provider_step (emit _)) =>
  apply provider_emit; reflexivity : provider.
#[global] Hint Resolve provider_step_refl provider_step_clock
  provider_step_rimraf_errors provider_step_elsewhere : provider.

Lemma provider_Date_now : safe provider_step Date_now.
Proof. apply safe_pure, provider_step_refl. Qed.

Lemma provider_setTimeout ms : safe provider_step (setTimeout ms).
Proof. unfold setTimeout. provider_safe. Qed.

Lemma provider_progress_report msg : safe provider_step (progress_report msg).
Proof. now apply provider_emit. Qed.

#[global] Hint Resolve provider_Date_now provider_setTimeout
  provider_progress_report : provider.

Lemma provider_httpsGetJson u : safe provider_step (httpsGetJson u).
Proof. unfold httpsGetJson. provider_safe. Qed.

#[global] Hint Resolve provider_httpsGetJson : provider.

Section ProviderSteps.

Variable this : LanguageServerProvider.

Lemma provider_step_remove_node n w : provider_step w (remove_node n w).
Proof.
  unfold remove_node.
  destruct n, (storage w) as [[i [files|] a]|] eqn:E;
    first [ apply provider_step_refl
          | apply provider_step_elsewhere
          | apply provider_step_storage; unfold record_of; rewrite E; cbn; auto ].
Qed.

Lemma provider_fs_existsSync p : safe provider_step (fs_existsSync this p).
Proof. apply safe_pure, provider_step_refl. Qed.

Hint Resolve provider_fs_existsSync : provider.

Lemma provider_checkIfFileExists p :
  safe provider_step (checkIfFileExists this p).
Proof. unfold checkIfFileExists. provider_safe. Qed.

Lemma provider_fs_readFileSync p : safe provider_step (fs_readFileSync this p).
Proof.
  intros w. unfold fs_readFileSync.
  destruct (resolve this p), (storage w) as [[[t|] d a]|]; cbn;
    (split; [apply provider_step_refl | discriminate]).
Qed.

Lemma provider_JSON_parse t : safe provider_step (JSON_parse t).
Proof. unfold JSON_parse. provider_safe. Qed.

Hint Resolve provider_checkIfFileExists provider_fs_readFileSync
  provider_JSON_parse : provider.

Lemma provider_loadLocalDownloadInfo :
  safe provider_step (loadLocalDownloadInfo this).
Proof. unfold loadLocalDownloadInfo. provider_safe. Qed.

Lemma provider_fetchDownloadInfo : safe provider_step (fetchDownloadInfo this).
Proof. unfold fetchDownloadInfo. provider_safe. Qed.

Lemma provider_fs_mkdirSync p : safe provider_step (fs_mkdirSync this p).
Proof.
  unfold fs_mkdirSync.
  destruct (resolve this p); try (apply safe_throw; step_side);
    apply safe_modify; intros w;
    destruct (storage w) as [[i [files|] a]|] eqn:E; cbn;
    apply provider_step_storage; unfold record_of; rewrite E; cbn; auto.
Qed.

Lemma provider_write_file p c :
  resolve this p <> InfoFile -> safe provider_step (write_file this p c).
Proof.
  intros Hp w. unfold write_file.
  destruct (resolve this p) as [| | | |rel|q] eqn:Ep; try congruence;
    destruct c, (storage w) as [[i [files|] ar]|] eqn:E;
    try destruct (parent_exists rel files); cbn;
    (split; [|discriminate]);
    first [ apply provider_step_refl
          | apply provider_step_storage; unfold record_of; rewrite E; cbn; auto ].
Qed.

Lemma provider_unpack_file p : safe provider_step (unpack_file this p).
Proof.
  intros w. unfold unpack_file.
  destruct (resolve this p), (storage w) as [[i [files|] ar]|] eqn:E; cbn;
    (split; [|discriminate]);
    first [ apply provider_step_refl
          | apply provider_step_storage; unfold record_of; rewrite E; cbn; auto ].
Qed.

Lemma provider_fs_unlinkSync p : safe provider_step (fs_unlinkSync this p).
Proof.
  intros w. unfold fs_unlinkSync. destruct (existsSync this p w); cbn;
    (split; [|discriminate]);
    [apply provider_step_remove_node | apply provider_step_refl].
Qed.

Lemma provider_rimraf_sync p : safe provider_step (rimraf_sync this p).
Proof.
  unfold rimraf_sync. provider_safe. apply provider_step_remove_node.
Qed.

Hint Resolve provider_loadLocalDownloadInfo provider_fetchDownloadInfo
  provider_fs_mkdirSync provider_fs_unlinkSync provider_rimraf_sync : provider.

End ProviderSteps.

(** ** What is there *)

Section Exists.

Variable this : LanguageServerProvider.

Lemma existsSync_storage w :
  existsSync this (extensionStoragePath this) w = is_some (storage w).
Proof. unfold existsSync. rewrite resolve_storage. reflexivity. Qed.

Lemma existsSync_info w :
  existsSync this (localDownloadInfoPath this) w = is_some (record_of w).
Proof.
  unfold existsSync, record_of. rewrite resolve_info. cbn.
  now destruct (storage w).
Qed.

Lemma existsSync_directory w :
  existsSync this (languageServerDirectory this) w = is_some (install_dir w).
Proof.
  unfold existsSync, install_dir. rewrite resolve_directory. cbn.
  now destruct (storage w).
Qed.

Lemma existsSync_exe w :
  existsSync this (languageServerExe this) w
  = match install_dir w with
    | Some files => in_list (executable (languageServerPackage this)) files
    | None => false
    end.
Proof.
  unfold existsSync, install_dir. rewrite resolve_exe. cbn.
  now destruct (storage w) as [[i [files|] a]|].
Qed.

(** ** The loop of [cleanupLanguageServer] *)

(** One iteration, spelled out. *)
Lemma cleanup_loop_S fuel timeout startTime lastError w :
  cleanup_loop this (S fuel) timeout startTime lastError w
  = if clock w - startTime <? timeout then
      if is_some (install_dir w) then
        let w1 := add_event (Rimraf (languageServerDirectory this)) w in
        match rimraf_errors w with
        | e :: rest =>
            cleanup_loop this fuel timeout startTime e
              (set_clock (clock w + 100)
                 (add_event (Sleep 100) (set_rimraf_errors rest w1)))
        | [] =>
            (Returned true,
             remove_node InfoFile
               (add_event (Rimraf (localDownloadInfoPath this))
                  (remove_node ServerDir w1)))
        end
      else (Returned false, w)
    else (Threw lastError, w).
Proof.
  cbn. unfold Js_bind, Date_now. cbn.
  destruct (clock w - startTime <? timeout); [|reflexivity].
  unfold fs_existsSync. rewrite existsSync_directory.
  destruct (is_some (install_dir w)); [|reflexivity]. cbn.
  unfold try_catch, rimraf_sync. cbn. unfold Js_bind. cbn.
  rewrite resolve_directory.
  destruct (rimraf_errors w) as [|e rest] eqn:E; cbn.
  - rewrite resolve_info. unfold remove_node. cbn.
    destruct (storage w); cbn; rewrite E; reflexivity.
  - reflexivity.
Qed.

Ltac provider_last :=
  first [ apply provider_step_remove_node
        | apply provider_step_clock
        | apply provider_step_rimraf_errors
        | apply provider_step_event; reflexivity ].

Ltac provider_chain :=
  first [ provider_last
        | apply provider_step_refl
        | eapply provider_step_trans; [|provider_last]; provider_chain ].

(** With more fuel than milliseconds left the loop ends, and as a provider
    step. *)
Lemma cleanup_loop_safe fuel :
  forall timeout startTime lastError w,
    Z.max 0 (timeout - (clock w - startTime)) < Z.of_nat fuel ->
    provider_step w (snd (cleanup_loop this fuel timeout startTime lastError w))
    /\ fst (cleanup_loop this fuel timeout startTime lastError w) <> OutOfFuel.
Proof.
  induction fuel as [|fuel IH]; intros timeout startTime lastError w Hfuel.
  - cbn in Hfuel. lia.
  - rewrite cleanup_loop_S.
    destruct (Z.ltb_spec (clock w - startTime) timeout) as [Hlt|Hge].
    2: { cbn. split; [apply provider_step_refl | discriminate]. }
    destruct (is_some (install_dir w)).
    2: { cbn. split; [apply provider_step_refl | discriminate]. }
    cbv zeta. destruct (rimraf_errors w) as [|e rest].
    + cbn [fst snd]. split; [|discriminate]. provider_chain.
    + match goal with
      | |- context [cleanup_loop this fuel timeout startTime e ?w1] =>
          destruct (IH timeout startTime e w1) as [Hstep Hend]
      end.
      { cbn [clock set_clock]. lia. }
      split; [|exact Hend].
      eapply provider_step_trans; [|exact Hstep]. provider_chain.
Qed.

Lemma cleanupLanguageServer_loop timeout w :
  cleanupLanguageServer this timeout w
  = cleanup_loop this (S (Z.to_nat timeout)) timeout (clock w) Undefined w.
Proof. reflexivity. Qed.

Lemma provider_cleanupLanguageServer timeout :
  safe provider_step (cleanupLanguageServer this timeout).
Proof.
  intros w. rewrite cleanupLanguageServer_loop.
  apply cleanup_loop_safe. lia.
Qed.

(** On a directory that is there, the loop follows the recurrence. *)
Lemma cleanup_loop_run errs :
  forall fuel timeout startTime lastError w,
    is_some (install_dir w) = true ->
    rimraf_errors w = errs ->
    Z.max 0 (timeout - (clock w - startTime)) < Z.of_nat fuel ->
    fst (cleanup_loop this fuel timeout startTime lastError w)
    = cleanup_result errs (timeout - (clock w - startTime)) lastError.
Proof.
  induction errs as [|e errs IH];
    intros [|fuel] timeout startTime lastError w Hdir Herrs Hfuel;
    try (cbn in Hfuel; lia);
    rewrite cleanup_loop_S, Hdir, Herrs; cbv zeta; cbn [cleanup_result];
    replace (0 <? timeout - (clock w - startTime))
      with (clock w - startTime <? timeout)
      by (destruct (Z.ltb_spec (clock w - startTime) timeout),
            (Z.ltb_spec 0 (timeout - (clock w - startTime))); lia || reflexivity);
    destruct (Z.ltb_spec (clock w - startTime) timeout) as [Hlt|Hge];
    try reflexivity.
  rewrite IH.
  - f_equal. cbn [clock set_clock]. lia.
  - unfold install_dir in *. cbn. exact Hdir.
  - reflexivity.
  - cbn [clock set_clock]. lia.
Qed.

(** When the loop returns [true], the install directory and the state file
    are gone. *)
Lemma cleanup_loop_true fuel :
  forall timeout startTime lastError w,
    fst (cleanup_loop this fuel timeout startTime lastError w) = Returned true ->
    install_dir (snd (cleanup_loop this fuel timeout startTime lastError w)) = None
    /\ record_of (snd (cleanup_loop this fuel timeout startTime lastError w)) = None.
Proof.
  induction fuel as [|fuel IH]; intros timeout startTime lastError w.
  - discriminate.
  - rewrite cleanup_loop_S.
    destruct (clock w - startTime <? timeout); [|discriminate].
    destruct (is_some (install_dir w)); [|discriminate].
    cbv zeta. destruct (rimraf_errors w) as [|e rest].
    + intros _. unfold install_dir, record_of, remove_node.
      destruct w as [[st|] ? ? ? ? ? ? ? ?]; cbn; auto.
    + apply IH.
Qed.

End Exists.

(** The recurrence in closed form. *)
Lemma last_cons (A : Type) (a d : A) (l : list A) :
  last (a :: l) d = last l a.
Proof.
  revert a d. induction l as [|b l IH]; intros a d; [reflexivity|].
  change (last (a :: b :: l) d) with (last (b :: l) d).
  now rewrite !IH.
Qed.

Lemma attempts_step (t : Z) : 0 < t -> attempts t = S (attempts (t - 100)).
Proof.
  intros Ht. unfold attempts.
  replace ((t + 99) / 100) with ((t - 100 + 99) / 100 + 1).
  - rewrite Z2Nat.inj_add by (try apply Z.div_pos; lia). cbn. lia.
  - replace (t + 99) with ((t - 100 + 99) + 1 * 100) by lia.
    rewrite Z.div_add by lia. reflexivity.
Qed.

Lemma attempts_none (t : Z) : t <= 0 -> attempts t = O.
Proof.
  intros Ht. unfold attempts.
  assert ((t + 99) / 100 <= 0).
  { apply Z.lt_succ_r. apply Z.div_lt_upper_bound; lia. }
  lia.
Qed.

Lemma cleanup_result_closed errs :
  forall remaining lastError,
    cleanup_result errs remaining lastError
    = if 100 * Z.of_nat (length errs) <? remaining then Returned true
      else Threw (last (firstn (attempts remaining) errs) lastError).
Proof.
  induction errs as [|e errs IH]; intros remaining lastError;
    cbn [cleanup_result length].
  - replace (100 * Z.of_nat 0) with 0 by lia.
    destruct (0 <? remaining); [reflexivity|].
    now rewrite firstn_nil.
  - destruct (Z.ltb_spec 0 remaining) as [Hpos|Hneg].
    + rewrite IH, (attempts_step Hpos). cbn [firstn]. rewrite last_cons.
      destruct (Z.ltb_spec (100 * Z.of_nat (length errs)) (remaining - 100)),
        (Z.ltb_spec (100 * Z.of_nat (S (length errs))) remaining);
        try reflexivity; lia.
    + rewrite (attempts_none Hneg). cbn [firstn last].
      destruct (Z.ltb_spec (100 * Z.of_nat (S (length errs))) remaining);
        [lia | reflexivity].
Qed.

(** ** [downloadLanguageServer] step by step *)

#[global] Hint Resolve installer_step_refl installer_step_storage : installer.
#[global] Hint Extern 1 (safe installer_step (emit _)) =>
  apply safe_modify; intros ?; apply installer_step_event; reflexivity
  : installer.
#[global] Hint Extern 5 (safe installer_step _) =>
  eapply safe_weaken; [exact provider_step_installer|];
  solve [auto with provider]
  : installer.

Ltac fails_rule :=
  lazymatch goal with
  | |- fails_within _ (bind _ _) =>
      apply fails_within_bind; [step_side | | intros ?]
  | |- fails_within _ (if ?b then _ else _) => destruct b
  | |- fails_within _ (match ?x with _ => _ end) => destruct x
  end.

Section Download.

Variable this : LanguageServerProvider.

Hint Resolve provider_fs_existsSync provider_checkIfFileExists
  provider_fs_readFileSync provider_JSON_parse provider_loadLocalDownloadInfo
  provider_fetchDownloadInfo provider_fs_mkdirSync provider_fs_unlinkSync
  provider_rimraf_sync provider_cleanupLanguageServer : provider.

Lemma provider_httpsGet_to_archive u :
  safe provider_step (httpsGet_to_archive this u).
Proof.
  unfold httpsGet_to_archive. provider_safe.
  apply provider_write_file. now rewrite resolve_archive.
Qed.

Lemma provider_write_entries l : safe provider_step (write_entries this l).
Proof.
  induction l as [|rel l IH]; cbn [write_entries]; provider_safe.
  apply provider_unpack_file.
Qed.

Lemma provider_extract_archive : safe provider_step (extract_archive this).
Proof.
  unfold extract_archive. provider_safe;
    first [ apply provider_write_entries
          | apply provider_write_file; now rewrite resolve_exe ].
Qed.

Hint Resolve provider_httpsGet_to_archive provider_extract_archive : provider.

Lemma installer_write_file p c : safe installer_step (write_file this p c).
Proof.
  intros w. unfold write_file.
  destruct (resolve this p) as [| | | |rel|q], c,
    (storage w) as [[i [files|] ar]|];
    try destruct (parent_exists rel files); cbn;
    (split; [|discriminate]); auto with installer.
Qed.

Lemma installer_saveLocalDownloadInfo inf :
  safe installer_step (saveLocalDownloadInfo this inf).
Proof. apply installer_write_file. Qed.

(** A save that throws has written nothing. *)
Lemma saveLocalDownloadInfo_fails inf :
  fails_within provider_step (saveLocalDownloadInfo this inf).
Proof.
  intros w e. unfold saveLocalDownloadInfo, write_file.
  rewrite resolve_info.
  destruct (storage w); cbn; [discriminate|].
  intros _. apply provider_step_refl.
Qed.

Hint Resolve installer_saveLocalDownloadInfo : installer.

Lemma replace_installation_fails downinfo :
  fails_within provider_step (replace_installation this downinfo).
Proof.
  unfold replace_installation.
  repeat fails_rule; auto with provider.
  apply saveLocalDownloadInfo_fails.
Qed.

Lemma downloadLanguageServer_fails :
  fails_within provider_step (downloadLanguageServer this).
Proof.
  unfold downloadLanguageServer.
  repeat fails_rule; auto with provider;
    first [ apply saveLocalDownloadInfo_fails
          | apply replace_installation_fails
          | provider_safe ].
Qed.

Lemma installer_downloadLanguageServer :
  safe installer_step (downloadLanguageServer this).
Proof.
  unfold downloadLanguageServer, replace_installation. installer_safe.
Qed.

End Download.

(** ** Rules for [no_throw] *)

Lemma no_throw_ret A (a : A) : no_throw (ret a).
Proof. intros w e; cbn; discriminate. Qed.

Lemma no_throw_bind A B (m : Js A) (k : A -> Js B) :
  no_throw m -> (forall a, no_throw (k a)) -> no_throw (bind m k).
Proof.
  intros Hm Hk w e. cbn. unfold Js_bind.
  specialize (Hm w). destruct (m w) as [[a|e'|] w1]; cbn in *.
  - apply Hk.
  - now elim (Hm e').
  - discriminate.
Qed.

Lemma no_throw_try_catch A (m : Js A) (h : Thrown -> Js A) :
  (forall e, no_throw (h e)) -> no_throw (try_catch m h).
Proof.
  intros Hh w e. unfold try_catch.
  destruct (m w) as [[a|e'|] w1]; cbn; try discriminate. apply Hh.
Qed.

Lemma no_throw_pure A (f : World -> A) (g : World -> World) :
  no_throw (fun w => (Returned (f w), g w)).
Proof. intros w e; cbn; discriminate. Qed.

Lemma no_throw_emit e : no_throw (emit e).
Proof. apply no_throw_pure. Qed.

Ltac no_throw_rule :=
  lazymatch goal with
  | |- no_throw (bind _ _) => apply no_throw_bind; [|intros ?]
  | |- no_throw (ret _) => apply no_throw_ret
  | |- no_throw (try_catch _ _) => apply no_throw_try_catch; intros ?
  | |- no_throw (emit _) => apply no_throw_emit
  | |- no_throw (if ?b then _ else _) => destruct b
  | |- no_throw (match ?x with _ => _ end) => destruct x
  end.

(** ** The installer's operations are installer steps *)

Section InstallerSteps.

Variable this : ServerInstaller.

Hint Resolve provider_fs_existsSync provider_loadLocalDownloadInfo
  provider_fetchDownloadInfo : provider.
Hint Resolve installer_downloadLanguageServer : installer.

Lemma provider_getLanguageServerIfDownloaded :
  safe provider_step (getLanguageServerIfDownloaded (provider this)).
Proof. unfold getLanguageServerIfDownloaded. provider_safe. Qed.

Lemma provider_getLanguageServerVersion :
  safe provider_step (getLanguageServerVersion (provider this)).
Proof. unfold getLanguageServerVersion. provider_safe. Qed.

Hint Resolve provider_getLanguageServerIfDownloaded
  provider_getLanguageServerVersion : provider.

Lemma provider_path : safe provider_step (path this).
Proof. unfold path. provider_safe. Qed.

Hint Resolve provider_path : provider.

Lemma provider_checkInstalled : safe provider_step (checkInstalled this).
Proof. unfold checkInstalled. provider_safe. Qed.

Lemma provider_checkVersion : safe provider_step (checkVersion this).
Proof. unfold checkVersion. provider_safe. Qed.

Hint Resolve provider_checkInstalled provider_checkVersion : provider.

Lemma installer_not_confirmed ask message :
  safe installer_step (not_confirmed ask message).
Proof.
  unfold not_confirmed, window_showPrompt. installer_safe.
Qed.

Lemma installer_install : safe installer_step (install this).
Proof. apply installer_downloadLanguageServer. Qed.

Hint Resolve installer_not_confirmed installer_install : installer.

Lemma installer_ensureInstalled ask doInstall :
  safe installer_step (ensureInstalled this ask doInstall).
Proof.
  unfold ensureInstalled, window_showErrorMessage. installer_safe.
Qed.

Lemma path_no_throw : no_throw (path this).
Proof.
  unfold path, getLanguageServerIfDownloaded, fs_existsSync.
  repeat no_throw_rule; apply no_throw_pure.
Qed.

Lemma checkInstalled_no_throw : no_throw (checkInstalled this).
Proof.
  unfold checkInstalled, fs_existsSync.
  repeat no_throw_rule; first [apply path_no_throw | apply no_throw_pure].
Qed.

Lemma not_confirmed_no_throw ask message : no_throw (not_confirmed ask message).
Proof.
  unfold not_confirmed, window_showPrompt, get_world.
  repeat no_throw_rule; apply no_throw_pure.
Qed.

(** [ensureInstalled] reports every failure in its result. *)
Lemma ensureInstalled_no_throw ask doInstall :
  no_throw (ensureInstalled this ask doInstall).
Proof.
  unfold ensureInstalled, window_showErrorMessage.
  repeat no_throw_rule;
    first [ apply checkInstalled_no_throw | apply path_no_throw
          | apply not_confirmed_no_throw ].
Qed.

End InstallerSteps.

(** ** Stopping and starting the client *)

Lemma bind_run A B (m : Js A) (k : A -> Js B) w :
  bind m k w
  = match m w with
    | (Returned a, w') => k a w'
    | (Threw e, w') => (Threw e, w')
    | (OutOfFuel, w') => (OutOfFuel, w')
    end.
Proof. reflexivity. Qed.

Lemma try_catch_run A (m : Js A) (h : Thrown -> Js A) w :
  try_catch m h w
  = match m w with
    | (Threw e, w') => h e w'
    | r => r
    end.
Proof. reflexivity. Qed.

Lemma left_stopped_app l1 : forall l2 stopped,
  left_stopped stopped (l1 ++ l2) = left_stopped (left_stopped stopped l1) l2.
Proof.
  induction l1 as [|e l1 IH]; intros l2 stopped; [reflexivity|].
  destruct e; cbn; apply IH.
Qed.

Lemma left_stopped_quiet l : forall stopped,
  forallb quiet_event l = true -> left_stopped stopped l = stopped.
Proof.
  induction l as [|e l IH]; intros stopped H; [reflexivity|].
  cbn in H. apply andb_true_iff in H as [He Hl].
  destruct e; cbn in *; try discriminate; now apply IH.
Qed.

Lemma left_stopped_start l : In ClientStart l \/ left_stopped true l = true.
Proof.
  induction l as [|e l [IH|IH]]; [now right | left; now right |].
  destruct e; cbn; auto.
Qed.

Lemma quiet_not_stop l : forallb quiet_event l = true -> ~ In ClientStop l.
Proof.
  intros H Hin. rewrite forallb_forall in H. now apply H in Hin.
Qed.

Lemma extends_refl w : extends w w.
Proof. exists []. now rewrite app_nil_r. Qed.

Lemma extends_trans a b c : extends a b -> extends b c -> extends a c.
Proof.
  intros [e1 T1] [e2 T2]. exists (e1 ++ e2)%list.
  now rewrite T2, T1, app_assoc.
Qed.

Lemma installer_step_extends w w' : installer_step w w' -> extends w w'.
Proof. intros [[evs [T _]] _]. now exists evs. Qed.

Lemma installer_step_settled w w' : installer_step w w' -> settled w w'.
Proof. intros [[evs [T Q]] C]. exists evs. split; [exact T | now left]. Qed.

Lemma settled_step w0 w w' :
  settled w0 w -> installer_step w w' -> settled w0 w'.
Proof.
  intros [e1 [T1 H1]] [[e2 [T2 Q2]] C2].
  exists (e1 ++ e2)%list. split; [now rewrite T2, T1, app_assoc|].
  destruct H1 as [[Q1 C1]|[L1 C1]].
  - left. split; [now rewrite forallb_app, Q1, Q2 | congruence].
  - right. split; [|congruence].
    intros stopped. rewrite left_stopped_app, L1.
    now apply left_stopped_quiet.
Qed.

Lemma stopped_for_step rc w0 w w' :
  stopped_for rc w0 w -> installer_step w w' -> stopped_for rc w0 w'.
Proof.
  intros [X N] S. split.
  - eapply extends_trans; [exact X | now apply installer_step_extends].
  - intros Hrc. eapply installer_step_trans; eauto.
Qed.

Lemma stop_if_needed_run rc w0 w :
  installer_step w0 w ->
  exists w', stop_if_needed rc w = (Returned tt, w') /\ stopped_for rc w0 w'.
Proof.
  intros S. destruct rc as [c|]; cbn.
  - unfold Js_bind, needsStop. cbn. destruct (client_running w); cbn.
    + eexists; split; [reflexivity|]. split; [|discriminate].
      eapply extends_trans; [apply installer_step_extends; exact S|].
      now exists [ClientStop].
    + eexists; split; [reflexivity|]. split; [|discriminate].
      now apply installer_step_extends.
  - exists w. split; [reflexivity|]. split; [|auto].
    now apply installer_step_extends.
Qed.

Lemma start_if_any_run rc w0 w :
  stopped_for rc w0 w ->
  exists w', start_if_any rc w = (Returned tt, w') /\ settled w0 w'.
Proof.
  intros [[evs T] N]. destruct rc as [c|]; cbn.
  - eexists; split; [reflexivity|].
    exists (evs ++ [ClientStart])%list. cbn. rewrite T, app_assoc.
    split; [reflexivity|]. right. split; [|reflexivity].
    intros stopped. now rewrite left_stopped_app.
  - exists w. split; [reflexivity|]. now apply installer_step_settled, N.
Qed.

(** ** [ensureUpdated] leaves the client settled *)

Section Update.

Variable this : ServerInstaller.

Lemma ensureUpdated_check_settled ask doInstall showMessage rc w :
  settled w (snd (ensureUpdated_check this ask doInstall showMessage rc w))
  /\ fst (ensureUpdated_check this ask doInstall showMessage rc w) <> OutOfFuel.
Proof.
  unfold ensureUpdated_check. rewrite bind_run.
  destruct (provider_checkVersion this w) as [Hs Hf].
  apply provider_step_installer in Hs.
  destruct (checkVersion this w) as [[v|e|] w1]; cbn [fst snd] in *.
  2: { split; [now apply installer_step_settled | discriminate]. }
  2: { now elim Hf. }
  destruct v as [| |cur latest|cur].
  - (* notInstalled *)
    rewrite bind_run.
    destruct (stop_if_needed_run rc Hs) as (w2 & -> & H2).
    rewrite bind_run.
    destruct (installer_ensureInstalled this ask doInstall w2) as [H3 F3].
    pose proof (ensureInstalled_no_throw this ask doInstall w2) as T3.
    destruct (ensureInstalled this ask doInstall w2) as [[ir|e|] w3];
      cbn [fst snd] in *; [| now elim (T3 e) | now elim F3].
    rewrite bind_run.
    destruct (start_if_any_run (stopped_for_step H2 H3)) as (w4 & -> & H4).
    destruct ir; cbn; (split; [exact H4 | discriminate]).
  - (* customPath *)
    cbn. split; [now apply installer_step_settled | discriminate].
  - (* different *)
    cbn. split; [now apply installer_step_settled | discriminate].
  - (* same *)
    destruct showMessage; cbn; (split; [|discriminate]);
      apply installer_step_settled; [|exact Hs].
    eapply installer_step_trans; [exact Hs|].
    now apply installer_step_event.
Qed.

Lemma settled_trans a b c : settled a b -> settled b c -> settled a c.
Proof.
  intros [e1 [T1 H1]] [e2 [T2 H2]].
  exists (e1 ++ e2)%list. split; [now rewrite T2, T1, app_assoc|].
  destruct H2 as [[Q2 C2]|[L2 C2]].
  - destruct H1 as [[Q1 C1]|[L1 C1]].
    + left. split; [now rewrite forallb_app, Q1, Q2 | congruence].
    + right. split; [|congruence].
      intros stopped. rewrite left_stopped_app, L1.
      now apply left_stopped_quiet.
  - right. split; [|exact C2].
    intros stopped. now rewrite left_stopped_app.
Qed.

Lemma ensureUpdated_settled ask doInstall showMessage rc w :
  exists result w',
    ensureUpdated this ask doInstall showMessage rc w = (Returned result, w')
    /\ settled w w'.
Proof.
  unfold ensureUpdated. rewrite bind_run, try_catch_run.
  destruct (ensureUpdated_check_settled ask doInstall showMessage rc w)
    as [Hs Hf].
  destruct (ensureUpdated_check this ask doInstall showMessage rc w)
    as [[[result|[cur latest]]|e|] w1]; cbn [fst snd] in *.
  - cbn. do 2 eexists. split; [reflexivity | exact Hs].
  - destruct doInstall; cbn [negb];
      [|cbn; do 2 eexists; split; [reflexivity | exact Hs]].
    cbv zeta. rewrite bind_run.
    match goal with
    | |- context [not_confirmed ask ?msg w1] =>
        destruct (installer_not_confirmed ask msg w1) as [H2 F2];
        pose proof (not_confirmed_no_throw ask msg w1) as T2;
        destruct (not_confirmed ask msg w1) as [[cancelled|e|] w2];
        cbn [fst snd] in *; [| now elim (T2 e) | now elim F2]
    end.
    pose proof (settled_step Hs H2) as Hs2.
    destruct cancelled;
      [cbn; do 2 eexists; split; [reflexivity | exact Hs2]|].
    rewrite bind_run.
    destruct (stop_if_needed_run rc (installer_step_refl w2)) as (w3 & -> & H3).
    rewrite bind_run, try_catch_run, bind_run.
    destruct (installer_install this w3) as [H4 F4].
    destruct (install this w3) as [[[]|e|] w4]; cbn [fst snd] in *;
      [| | now elim F4].
    + cbn [ret Monad_Js Js_ret]. rewrite bind_run.
      destruct (start_if_any_run (stopped_for_step H3 H4)) as (w5 & -> & H5).
      cbn. do 2 eexists. split; [reflexivity|]. eapply settled_trans; eauto.
    + rewrite bind_run. unfold window_showErrorMessage.
      cbn [emit modify]. rewrite bind_run.
      match goal with
      | |- context [start_if_any rc (add_event ?ev w4)] =>
          assert (H4' : installer_step w3 (add_event ev w4))
            by (eapply installer_step_trans;
                [exact H4 | now apply installer_step_event]);
          destruct (start_if_any_run (stopped_for_step H3 H4'))
            as (w5 & -> & H5)
      end.
      cbn. do 2 eexists. split; [reflexivity|]. eapply settled_trans; eauto.
  - cbn. do 2 eexists. split; [reflexivity|].
    eapply settled_step; [exact Hs|]. now apply installer_step_event.
  - now elim Hf.
Qed.

End Update.

(** ** Single operations, run *)

Lemma set_trace_same w : set_trace (trace w) w = w.
Proof. now destruct w. Qed.

Section Runs.

Variable this : LanguageServerProvider.

Lemma loadLocalDownloadInfo_run w :
  loadLocalDownloadInfo this w
  = (match record_of w with
     | None => Returned None
     | Some (JsonText inf) => Returned (Some inf)
     | Some (Garbage raw) =>
         Threw (SyntaxError ("Unexpected token in JSON: " ++ raw))
     end, w).
Proof.
  unfold loadLocalDownloadInfo, checkIfFileExists. cbv zeta.
  rewrite bind_run, try_catch_run, bind_run.
  unfold fs_existsSync. rewrite existsSync_info.
  unfold record_of, fs_readFileSync.
  destruct (storage w) as [[[[inf|raw]|] d a]|] eqn:E; cbn;
    rewrite ?resolve_info; unfold Js_bind; rewrite ?E; reflexivity.
Qed.

Lemma saveLocalDownloadInfo_run inf st w :
  storage w = Some st ->
  saveLocalDownloadInfo this inf w
  = (Returned tt,
     set_storage (Some (set_downloadinfo (Some (JsonText inf)) st)) w).
Proof.
  intros E. unfold saveLocalDownloadInfo, write_file. cbv zeta.
  now rewrite resolve_info, E.
Qed.

(** [fetchDownloadInfo] reads the network and the clock, and adds to the
    trace at most its one request. *)
Lemma fetchDownloadInfo_run w :
  exists evs,
    forallb lookup_event evs = true
    /\ forall t,
         fetchDownloadInfo this (set_trace t w)
         = (fst (fetchDownloadInfo this w), set_trace (t ++ evs) w).
Proof.
  unfold fetchDownloadInfo. destruct (provider_repo this) as [r c|u].
  - exists [HttpsGetJson
              ("https://api.github.com/repos/" ++ r ++ "/releases/" ++ c)].
    split; [reflexivity|]. intros t.
    cbn. unfold Js_bind. cbn.
    destruct (api w _) as [e|rel]; cbn; [reflexivity|].
    destruct (filter _ (assets rel)); reflexivity.
  - exists []. split; [reflexivity|]. intros t. cbn.
    now rewrite app_nil_r.
Qed.

End Runs.

(** * The claims *)

(** ** C8: the load error policy *)

(** C8.  [loadLocalDownloadInfo] answers by the state file: when the file is
    missing it returns [undefined]; when the file is there and parses it
    returns the record; when the file is there and its text does not parse,
    the [SyntaxError] of [JSON.parse] reaches the caller, so a corrupt state
    file is never reported as absent.  The world is left as it was. *)
Theorem loadLocalDownloadInfo_policy (this : LanguageServerProvider) (w : World) :
  match record_of w with
  | None => loadLocalDownloadInfo this w = (Returned None, w)
  | Some (JsonText inf) => loadLocalDownloadInfo this w = (Returned (Some inf), w)
  | Some (Garbage raw) =>
      exists message,
        loadLocalDownloadInfo this w = (Threw (SyntaxError message), w)
  end.
Proof.
  rewrite loadLocalDownloadInfo_run.
  destruct (record_of w) as [[inf|raw]|]; eauto.
Qed.

(** ** C9: the custom path short-circuit *)

(** C9.  When a custom path is set, [checkVersion] returns
    [{ result: "customPath" }] in the world it was called in: whatever the
    state file and the network hold, and with nothing added to the trace, so
    no request was made. *)
Theorem checkVersion_customPath (this : ServerInstaller) (w : World) :
  isCustomPath this = true ->
  checkVersion this w = (Returned customPathResult, w).
Proof.
  unfold isCustomPath, checkVersion. cbv zeta. now intros ->.
Qed.

Lemma checkVersion_customPath_witness :
  let this := Sample.installer_of Sample.releases (Some "/opt/tool/bin/tool") in
  let w := Sample.world (Sample.installed 41 "v1.1")
             (Sample.release 42 "v1.2") Sample.good_archive [] in
  isCustomPath this = true
  /\ checkVersion this w = (Returned customPathResult, w).
Proof.
  intros this w. split; [reflexivity|].
  apply (checkVersion_customPath this w). reflexivity.
Defined.

(** ** C10: the already-installed fast path *)

Section FastPath.

Variable this : ServerInstaller.

(** The getter [path] and [checkInstalled] only read the file system. *)
Lemma path_run w : exists p, path this w = (Returned p, w).
Proof.
  unfold path, getLanguageServerIfDownloaded. cbv zeta.
  destruct (truthy (customPath this)).
  - destruct (customPath this) as [custom|]; [|eexists; reflexivity].
    rewrite bind_run. unfold fs_existsSync. eexists; reflexivity.
  - rewrite bind_run. unfold fs_existsSync.
    destruct (existsSync (provider this) (languageServerExe (provider this)) w);
      eexists; reflexivity.
Qed.

Lemma checkInstalled_run w :
  exists b, checkInstalled this w = (Returned b, w)
    /\ (b = true ->
        exists p, path this w = (Returned (Some p), w)
                  /\ existsSync (provider this) p w = true).
Proof.
  unfold checkInstalled. rewrite bind_run.
  destruct (path_run w) as [p Hp]. rewrite Hp.
  destruct (truthy p); [|cbn; eexists; split; [reflexivity | discriminate]].
  destruct p as [p|]; cbn; (eexists; split; [reflexivity|]); [|discriminate].
  intros Hb. now exists p.
Qed.

End FastPath.

(** C10.  When [checkInstalled()] is true, [ensureInstalled(ask, doInstall)]
    returns [{ available: true, path, installed: false }] for every [ask]
    and [doInstall], with the path that [path] gives and that exists, and in
    the world it was called in: no prompt, no request, and the state file
    and the install directory as they were. *)
Theorem ensureInstalled_already_installed (this : ServerInstaller)
    (ask doInstall : bool) (w : World) :
  fst (checkInstalled this w) = Returned true ->
  exists p,
    ensureInstalled this ask doInstall w = (Returned (Skipped (Some p)), w)
    /\ fst (path this w) = Returned (Some p)
    /\ existsSync (provider this) p w = true.
Proof.
  intros Hc. destruct (checkInstalled_run this w) as (b & Hb & Hp).
  rewrite Hb in Hc. cbn in Hc. injection Hc as ->.
  destruct (Hp eq_refl) as (p & Hpath & Hex).
  exists p. unfold ensureInstalled.
  rewrite bind_run, Hb, bind_run, Hpath. auto.
Qed.

Lemma ensureInstalled_already_installed_witness :
  let this := Sample.installer_of Sample.releases None in
  let w := Sample.world (Sample.installed 41 "v1.1")
             (Sample.release 42 "v1.2") Sample.good_archive [] in
  fst (checkInstalled this w) = Returned true
  /\ exists p,
       ensureInstalled this true true w = (Returned (Skipped (Some p)), w)
       /\ fst (path this w) = Returned (Some p)
       /\ existsSync (provider this) p w = true.
Proof.
  intros this w. split; [reflexivity|].
  apply (ensureInstalled_already_installed this true true w). reflexivity.
Defined.

(** ** C2: a fresh install without asking *)

(** C2.  On a fresh world (no storage directory, no custom path), for a
    [url-prefix] repository, [ensureInstalled(false, true)] returns
    [{ available: false, error: "Cancelled by user" }] and leaves the world
    as it was: nothing is asked, downloaded or written.  The test
    [!ask || !(await window.showPrompt(message))] is true as soon as [ask]
    is false. *)
Theorem ensureInstalled_without_asking_cancels :
  let this := Sample.installer_of Sample.mirror None in
  let w := Sample.world None (Sample.release 42 "v1.2") Sample.good_archive [] in
  ensureInstalled this false true w
  = (Returned (NotAvailable (Str "Cancelled by user")), w).
Proof. reflexivity. Qed.

(** The same call with [ask] true and a user who accepts installs the
    server and records the version [""]. *)
Example ensureInstalled_asking_installs :
  let this := Sample.installer_of Sample.mirror None in
  let w := Sample.world None (Sample.release 42 "v1.2") Sample.good_archive [] in
  fst (ensureInstalled this true true w)
  = Returned (Installed (Some "/data/server/bin/tool") (Some ""))
  /\ install_dir (snd (ensureInstalled this true true w))
     = Some ["bin/tool"; "README"]
  /\ record_of (snd (ensureInstalled this true true w))
     = Some (JsonText
               {| url := "https://example.org/dl/tool-linux-x64.tar.gz";
                  version := ""; id := 0; downloadedTime := 5000 |}).
Proof. repeat split; vm_compute; reflexivity. Qed.

(** ** C3: which releases [checkVersion] tells apart *)

(** [checkVersion] on a state file that holds a record: only the two version
    labels are compared. *)
Lemma checkVersion_labels (this : ServerInstaller) (w : World)
    (localinfo downinfo : IDownloadInfo) (w' : World) :
  isCustomPath this = false ->
  record_of w = Some (JsonText localinfo) ->
  fetchDownloadInfo (provider this) w = (Returned downinfo, w') ->
  checkVersion this w
  = (Returned (if String.eqb (version localinfo) (version downinfo)
               then same (version localinfo)
               else different (version localinfo) (version downinfo)), w').
Proof.
  unfold isCustomPath, checkVersion. cbv zeta. intros -> Hrec Hfetch.
  rewrite bind_run, loadLocalDownloadInfo_run, Hrec. cbn [option_map].
  rewrite bind_run, Hfetch.
  now destruct (String.eqb (version localinfo) (version downinfo)).
Qed.

(** C3.  With the record [{ id: 41, version: "v1.2" }] stored and the
    release [{ id: 42, name: "v1.2" }] resolved, [checkVersion] answers
    [{ result: "same" }], while [downloadLanguageServer] in the same world
    compares both fields, replaces the installation and stores the id 42. *)
Theorem checkVersion_same_label_other_release :
  let this := Sample.installer_of Sample.releases None in
  let w := Sample.world (Sample.installed 41 "v1.2")
             (Sample.release 42 "v1.2") Sample.good_archive [] in
  fst (checkVersion this w) = Returned (same "v1.2")
  /\ fst (downloadLanguageServer (provider this) w) = Returned tt
  /\ In (HttpsGet "https://example.org/linux")
        (trace (snd (downloadLanguageServer (provider this) w)))
  /\ record_of (snd (downloadLanguageServer (provider this) w))
     = Some (JsonText {| url := "https://example.org/linux"; version := "v1.2";
                         id := 42; downloadedTime := 5000 |}).
Proof. repeat split; vm_compute; auto 10. Qed.

(** ** C4: what [checkInstalled] looks at *)

Lemma languageServerExe_truthy (this : LanguageServerProvider) :
  truthy (Some (languageServerExe this)) = true.
Proof.
  unfold truthy, languageServerExe, path_join.
  destruct (languageServerDirectory this); reflexivity.
Qed.

(** [checkInstalled] without a custom path: whether the executable is in the
    install directory. *)
Lemma checkInstalled_executable (this : ServerInstaller) (w : World) :
  isCustomPath this = false ->
  checkInstalled this w
  = (Returned (existsSync (provider this) (languageServerExe (provider this)) w),
     w).
Proof.
  unfold isCustomPath, checkInstalled, path, getLanguageServerIfDownloaded.
  cbv zeta. intros ->. rewrite !bind_run. unfold fs_existsSync.
  destruct (existsSync (provider this) (languageServerExe (provider this)) w)
    eqn:E; cbn [negb ret Monad_Js Js_ret]; [|reflexivity].
  now rewrite languageServerExe_truthy, E.
Qed.

(** C4.  With the state file absent, no custom path, and a file at the path
    of the executable, [checkInstalled] returns [true].  In that world
    [checkVersion] answers [notInstalled], and [ensureUpdated] fails in its
    own [assert(installResult.installed)]. *)
Theorem checkInstalled_without_record :
  let this := Sample.installer_of Sample.releases None in
  let w := Sample.world Sample.stray (Sample.release 42 "v1.2")
             Sample.good_archive [] in
  record_of w = None
  /\ isCustomPath this = false
  /\ fst (checkInstalled this w) = Returned true
  /\ fst (checkVersion this w) = Returned notInstalled
  /\ fst (ensureUpdated this true true true (Some TheClient) w)
     = Returned (OutdatedSkipped None
                   (AssertionError "The expression evaluated to a falsy value")).
Proof. repeat split; vm_compute; reflexivity. Qed.

(** A failed [gzip] extraction leaves such a world: the executable is
    created, the state file is not written. *)
Example failed_gunzip_leaves_executable :
  let this :=
    {| extensionStoragePath := "/data"; languageServerName := "tool";
       languageServerPackage :=
         {| executable := "tool"; platformFilename := Literal "tool.gz";
            archiver := Some gzip |};
       provider_repo := url_prefix "https://example.org/linux" |} in
  let w := {| storage := None; elsewhere := []; clock := 0; rimraf_errors := [];
              api := fun _ => inl (Error "offline");
              artifacts := fun _ => inr Sample.bad_archive;
              user := fun _ => true; client_running := false; trace := [] |} in
  fst (downloadLanguageServer this w) = Threw (Error "unexpected end of file")
  /\ record_of (snd (downloadLanguageServer this w)) = None
  /\ existsSync this (languageServerExe this) (snd (downloadLanguageServer this w))
     = true.
Proof. repeat split; vm_compute; reflexivity. Qed.

(** ** C1: the state file after a failed download *)


(** What does hold of a failing download is proved further down, once the
    run of [downloadLanguageServer] is spelled out. *)

(** ** C5: the client is started again *)

(** C5.  [ensureUpdated] always returns a result, and in the events of the
    call every [stop()] of the running client is followed by a [start()];
    when the client was stopped, it is running when the result is
    returned. *)
Theorem ensureUpdated_restarts_client (this : ServerInstaller)
    (ask doInstall showMessage : bool)
    (runningClient : option LanguageClient) (w : World) :
  exists result w' evs,
    ensureUpdated this ask doInstall showMessage runningClient w
    = (Returned result, w')
    /\ trace w' = (trace w ++ evs)%list
    /\ (forall before after,
          evs = (before ++ ClientStop :: after)%list -> In ClientStart after)
    /\ (In ClientStop evs -> client_running w' = true).
Proof.
  destruct (ensureUpdated_settled this ask doInstall showMessage runningClient w)
    as (result & w' & Hrun & evs & Htrace & H).
  exists result, w', evs. split; [exact Hrun|]. split; [exact Htrace|].
  destruct H as [[Hquiet _]|[Hleft Hrunning]].
  - apply quiet_not_stop in Hquiet. split.
    + intros before after ->. elim Hquiet. apply in_or_app. right. now left.
    + intros Hin. now elim Hquiet.
  - split; [|auto].
    intros before after ->.
    specialize (Hleft false). rewrite left_stopped_app in Hleft. cbn in Hleft.
    destruct (left_stopped_start after) as [Hin|Hstopped]; [exact Hin|].
    congruence.
Qed.

(** A failed upgrade, run: the client is stopped before the install and
    started after the error message. *)
Example ensureUpdated_failed_upgrade :
  let this := Sample.installer_of Sample.releases None in
  let w := Sample.world (Sample.installed 41 "v1.1")
             (Sample.release 42 "v1.2") Sample.bad_archive [] in
  fst (ensureUpdated this true true true (Some TheClient) w)
  = Returned (OutdatedSkipped
                (Some {| oldVersion := Some "v1.1"; newVersion := Some "v1.2" |})
                (Error "unexpected end of file"))
  /\ filter (fun e => negb (quiet_event e))
       (trace (snd (ensureUpdated this true true true (Some TheClient) w)))
     = [ClientStop; ClientStart]
  /\ client_running (snd (ensureUpdated this true true true (Some TheClient) w))
     = true.
Proof. repeat split; vm_compute; reflexivity. Qed.

(** ** C6: [cleanupLanguageServer] with nothing to remove *)

(** C6.  With a timeout of 0 the loop is never entered, and the test
    [if (!fs.existsSync(this.languageServerDirectory)) return false] with
    it: on a world without install directory, where nothing was attempted
    and nothing failed, [cleanupLanguageServer(0)] does not return [false],
    it runs [throw lastError] with [lastError] still [undefined].  With a
    timeout of 1 the same call returns [false] in the same world. *)
Theorem cleanup_zero_timeout_throws :
  let this := Sample.provider_of Sample.releases in
  let w := Sample.world None (Sample.release 42 "v1.2") Sample.good_archive [] in
  install_dir w = None
  /\ rimraf_errors w = []
  /\ cleanupLanguageServer this 0 w = (Threw Undefined, w)
  /\ cleanupLanguageServer this 1 w = (Returned false, w).
Proof. repeat split; vm_compute; reflexivity. Qed.

(** The loop on the clock of the world, which only the sleeps advance.  Let
    the next [N] deletions fail and the later ones succeed, [N] being the
    length of [rimraf_errors w].  When the install directory is there,
    [cleanupLanguageServer(timeout)] returns if and only if
    [100 * N < timeout]; it then returns [true], with the install directory
    and the state file removed; otherwise it throws the error of the last
    deletion it attempted, and [lastError] as it was set at the start when
    it attempted none.  When the install directory is not there, it returns
    [false] and changes nothing if [0 < timeout], and throws the unset
    [lastError] otherwise. *)
Theorem cleanup_retry_bound (this : LanguageServerProvider) (timeout : Z)
    (w : World) :
  let errs := rimraf_errors w in
  let run := cleanupLanguageServer this timeout w in
  match install_dir w with
  | Some _ =>
      ((exists b, fst run = Returned b)
       <-> 100 * Z.of_nat (length errs) < timeout)
      /\ (if 100 * Z.of_nat (length errs) <? timeout
          then fst run = Returned true
               /\ install_dir (snd run) = None
               /\ record_of (snd run) = None
          else fst run
               = Threw (last (firstn (attempts timeout) errs) Undefined))
  | None =>
      if 0 <? timeout then run = (Returned false, w)
      else run = (Threw Undefined, w)
  end.
Proof.
  intros errs run. subst run. rewrite cleanupLanguageServer_loop.
  destruct (install_dir w) as [files|] eqn:Hdir.
  - assert (Hrun :
      fst (cleanup_loop this (S (Z.to_nat timeout)) timeout (clock w) Undefined w)
      = if 100 * Z.of_nat (length errs) <? timeout then Returned true
        else Threw (last (firstn (attempts timeout) errs) Undefined)).
    { rewrite (@cleanup_loop_run this errs); [| now rewrite Hdir | reflexivity | lia].
      rewrite cleanup_result_closed.
      now replace (timeout - (clock w - clock w)) with timeout by lia. }
    destruct (Z.ltb_spec (100 * Z.of_nat (length errs)) timeout) as [Hlt|Hge].
    + split; [split; [auto | eauto]|].
      split; [exact Hrun|]. now apply cleanup_loop_true.
    + split; [|exact Hrun]. split; [|lia].
      intros [b Hb]. rewrite Hrun in Hb. discriminate.
  - rewrite cleanup_loop_S, Hdir, Z.sub_diag. cbn [is_some].
    now destruct (0 <? timeout).
Qed.

Lemma cleanup_retry_bound_witness :
  let this := Sample.provider_of Sample.releases in
  let w := Sample.world (Sample.installed 41 "v1.1")
             (Sample.release 42 "v1.2") Sample.good_archive
             [Error "EBUSY 1"; Error "EBUSY 2"; Error "EBUSY 3"] in
  fst (cleanupLanguageServer this 300 w) = Threw (Error "EBUSY 3")
  /\ fst (cleanupLanguageServer this 301 w) = Returned true
  /\ record_of (snd (cleanupLanguageServer this 301 w)) = None.
Proof.
  intros this w.
  pose proof (cleanup_retry_bound this 300 w) as H300.
  pose proof (cleanup_retry_bound this 301 w) as H301.
  cbv zeta in H300, H301.
  change (install_dir w) with (Some ["bin/tool"; "README"]) in H300, H301.
  cbv iota in H300, H301.
  destruct H300 as [_ H300], H301 as [_ H301].
  change (100 * Z.of_nat (length (rimraf_errors w)) <? 300) with false in H300.
  change (100 * Z.of_nat (length (rimraf_errors w)) <? 301) with true in H301.
  cbv iota in H300, H301.
  destruct H301 as (Htrue & _ & Hrecord).
  split; [exact H300|]. split; [exact Htrue | exact Hrecord].
Defined.

(** ** C7: the refresh of an installation that is up to date *)

Lemma fs_existsSync_run (this : LanguageServerProvider) p w :
  fs_existsSync this p w = (Returned (existsSync this p w), w).
Proof. reflexivity. Qed.

(** C7.  When the stored record and the freshly resolved artifact have the
    same [id] and the same [version], [downloadLanguageServer] returns in a
    world that differs from the first in two things only: the stored record
    has [downloadedTime] set to the time of the call, its [url], [version]
    and [id] being those of the stored record, and the trace has grown by
    progress reports and the request for the release metadata.  There is no
    download of the artifact, no [rimraf], no extraction, and the install
    directory is as it was. *)
Theorem download_up_to_date_refreshes_timestamp
    (this : LanguageServerProvider) (w : World) (st : Storage)
    (localinfo downinfo : IDownloadInfo) :
  storage w = Some st ->
  downloadinfo st = Some (JsonText localinfo) ->
  fst (fetchDownloadInfo this w) = Returned downinfo ->
  id localinfo = id downinfo ->
  version localinfo = version downinfo ->
  exists evs,
    (forall ev, In ev evs ->
       (exists message, ev = ProgressReport message)
       \/ (exists u, ev = HttpsGetJson u))
    /\ downloadLanguageServer this w
       = (Returned tt,
          {| storage :=
               Some {| downloadinfo :=
                         Some (JsonText
                                 {| url := url localinfo;
                                    version := version localinfo;
                                    id := id localinfo;
                                    downloadedTime := clock w |});
                       server := server st;
                       server_archive := server_archive st |};
             elsewhere := elsewhere w;
             clock := clock w;
             rimraf_errors := rimraf_errors w;
             api := api w;
             artifacts := artifacts w;
             user := user w;
             client_running := client_running w;
             trace := (trace w ++ evs)%list |}).
Proof.
  intros Hst Hinfo Hfetch Hid Hversion.
  destruct (fetchDownloadInfo_run this w) as (evs & Hevs & Hrun).
  exists (ProgressReport ("Looking for " ++ languageServerName this ++ " updates")
          :: evs).
  split.
  { intros ev [<-|Hin]; [left; eauto|].
    cbn in Hevs. rewrite forallb_forall in Hevs. specialize (Hevs ev Hin).
    destruct ev; try discriminate; eauto. }
  unfold downloadLanguageServer.
  rewrite bind_run, fs_existsSync_run, existsSync_storage, Hst.
  cbn [is_some negb]. rewrite bind_run. cbn [ret Monad_Js Js_ret].
  rewrite bind_run. unfold progress_report, emit, modify, add_event.
  rewrite bind_run, Hrun, Hfetch.
  rewrite bind_run, loadLocalDownloadInfo_run.
  unfold record_of. cbn [storage set_trace]. rewrite Hst, Hinfo.
  rewrite Hid, Hversion, Z.eqb_refl, String.eqb_refl. cbn [andb].
  rewrite bind_run. unfold Date_now.
  rewrite (@saveLocalDownloadInfo_run this _ st) by exact Hst.
  cbn [clock set_trace]. rewrite <- app_assoc, <- Hid, <- Hversion.
  reflexivity.
Qed.

Lemma download_up_to_date_refreshes_timestamp_witness :
  let this := Sample.provider_of Sample.releases in
  let w := Sample.world (Sample.installed 42 "v1.2")
             (Sample.release 42 "v1.2") Sample.good_archive [] in
  downloadedTime (Sample.record 42 "v1.2") = 1000
  /\ exists evs,
    (forall ev, In ev evs ->
       (exists message, ev = ProgressReport message)
       \/ (exists u, ev = HttpsGetJson u))
    /\ downloadLanguageServer this w
       = (Returned tt,
          {| storage :=
               Some {| downloadinfo :=
                         Some (JsonText
                                 {| url := "https://example.org/linux";
                                    version := "v1.2";
                                    id := 42;
                                    downloadedTime := 5000 |});
                       server := Some ["bin/tool"; "README"];
                       server_archive := None |};
             elsewhere := elsewhere w;
             clock := 5000;
             rimraf_errors := rimraf_errors w;
             api := api w;
             artifacts := artifacts w;
             user := user w;
             client_running := client_running w;
             trace := (trace w ++ evs)%list |}).
Proof.
  intros this w. split; [reflexivity|].
  exact (@download_up_to_date_refreshes_timestamp this w
           {| downloadinfo := Some (JsonText (Sample.record 42 "v1.2"));
              server := Some ["bin/tool"; "README"];
              server_archive := None |}
           (Sample.record 42 "v1.2")
           {| url := "https://example.org/linux"; version := "v1.2"; id := 42;
              downloadedTime := 5000 |}
           eq_refl eq_refl eq_refl eq_refl eq_refl).
Defined.

(** * Further properties *)

(** ** Looking without touching *)

Lemma looked_refl P w : looked P w w.
Proof.
  exists []. split; [reflexivity|]. now rewrite app_nil_r, set_trace_same.
Qed.

Lemma looked_trans P a b c : looked P a b -> looked P b c -> looked P a c.
Proof.
  intros (e1 & Q1 & ->) (e2 & Q2 & ->). exists (e1 ++ e2)%list.
  split; [now rewrite forallb_app, Q1, Q2|].
  cbn. now rewrite app_assoc.
Qed.

Lemma looked_event (P : Event -> bool) e w :
  P e = true -> looked P w (add_event e w).
Proof. intros He. exists [e]. cbn. now rewrite He. Qed.

Lemma same_remote_refl w : same_remote w w.
Proof. now repeat split. Qed.

Lemma same_remote_trans a b c :
  same_remote a b -> same_remote b c -> same_remote a c.
Proof.
  intros (A1 & B1 & C1) (A2 & B2 & C2). repeat split; congruence.
Qed.

Lemma looked_same_remote P w w' : looked P w w' -> same_remote w w'.
Proof. intros (evs & _ & ->). now repeat split. Qed.

Lemma looked_weaken (P Q : Event -> bool) w w' :
  (forall e, P e = true -> Q e = true) -> looked P w w' -> looked Q w w'.
Proof.
  intros HPQ (evs & HP & ->). exists evs. split; [|reflexivity].
  rewrite forallb_forall in *. auto.
Qed.

Ltac look_side :=
  first [ apply looked_refl | apply looked_trans
        | exact same_remote_refl | exact same_remote_trans ].

Ltac look_rule :=
  lazymatch goal with
  | |- safe _ (bind _ _) => apply safe_bind; [look_side | | intros ?]
  | |- safe _ (ret _) => apply safe_ret; look_side
  | |- safe _ (Js_ret _) => apply safe_ret; look_side
  | |- safe _ (throw _) => apply safe_throw; look_side
  | |- safe _ (try_catch _ _) => apply safe_try_catch; [look_side | | intros ?]
  | |- safe _ (settle _) => apply safe_settle; look_side
  | |- safe _ get_world => apply safe_get_world; look_side
  | |- safe _ (modify _) => apply safe_modify; intros ?
  | |- safe _ (if ?b then _ else _) => destruct b
  | |- safe _ (match ?x with _ => _ end) => destruct x
  end.

Create HintDb look.
Create HintDb remote.

Ltac look_safe := repeat look_rule; auto with look.
Ltac remote_safe := repeat look_rule; auto with remote.

#[global] Hint Extern 1 (safe (looked _) (emit _)) =>
  apply safe_modify; intros ?; apply looked_event; reflexivity : look.
#[global] Hint Resolve looked_refl : look.
#[global] Hint Resolve same_remote_refl : remote.

Section Looks.

Variable P : Event -> bool.
Variable this : LanguageServerProvider.

Lemma looked_Date_now : safe (looked P) Date_now.
Proof. apply safe_pure, looked_refl. Qed.

Lemma looked_fs_existsSync p : safe (looked P) (fs_existsSync this p).
Proof. apply safe_pure, looked_refl. Qed.

Hint Resolve looked_Date_now looked_fs_existsSync : look.

Lemma looked_checkIfFileExists p : safe (looked P) (checkIfFileExists this p).
Proof. unfold checkIfFileExists. look_safe. Qed.

Lemma looked_fs_readFileSync p : safe (looked P) (fs_readFileSync this p).
Proof.
  intros w. unfold fs_readFileSync.
  destruct (resolve this p), (storage w) as [[[t|] d a]|]; cbn;
    (split; [apply looked_refl | discriminate]).
Qed.

Lemma looked_JSON_parse t : safe (looked P) (JSON_parse t).
Proof. unfold JSON_parse. look_safe. Qed.

Hint Resolve looked_checkIfFileExists looked_fs_readFileSync
  looked_JSON_parse : look.

Lemma looked_loadLocalDownloadInfo : safe (looked P) (loadLocalDownloadInfo this).
Proof. unfold loadLocalDownloadInfo. look_safe. Qed.

Lemma looked_getLanguageServerIfDownloaded :
  safe (looked P) (getLanguageServerIfDownloaded this).
Proof. unfold getLanguageServerIfDownloaded. look_safe. Qed.

Hint Resolve looked_loadLocalDownloadInfo : look.

Lemma looked_getLanguageServerVersion :
  safe (looked P) (getLanguageServerVersion this).
Proof. unfold getLanguageServerVersion. look_safe. Qed.

Lemma looked_shouldRegularUpdate : safe (looked P) (shouldRegularUpdate this).
Proof. unfold shouldRegularUpdate. look_safe. Qed.

End Looks.

Lemma looked_fetchDownloadInfo this :
  safe (looked dialogue_event) (fetchDownloadInfo this).
Proof.
  unfold fetchDownloadInfo, httpsGetJson. look_safe;
    apply looked_Date_now.
Qed.

(** ** The network and the user stay what they are *)

#[global] Hint Extern 1 (safe same_remote (emit _)) =>
  apply safe_modify; intros ?; repeat split : remote.

Lemma remote_of_looked P A (m : Js A) : safe (looked P) m -> safe same_remote m.
Proof. apply safe_weaken, looked_same_remote. Qed.

Section Remote.

Variable this : LanguageServerProvider.

Lemma remote_remove_node n w : same_remote w (remove_node n w).
Proof.
  unfold remove_node.
  destruct n, (storage w) as [[i [files|] a]|]; now repeat split.
Qed.

Lemma remote_Date_now : safe same_remote Date_now.
Proof. apply safe_pure, same_remote_refl. Qed.

Lemma remote_fs_existsSync p : safe same_remote (fs_existsSync this p).
Proof. apply safe_pure, same_remote_refl. Qed.

Lemma remote_setTimeout ms : safe same_remote (setTimeout ms).
Proof. unfold setTimeout. remote_safe; now repeat split. Qed.

Lemma remote_progress_report msg : safe same_remote (progress_report msg).
Proof. unfold progress_report. remote_safe. Qed.

Lemma remote_loadLocalDownloadInfo :
  safe same_remote (loadLocalDownloadInfo this).
Proof.
  apply (remote_of_looked (P := dialogue_event)), looked_loadLocalDownloadInfo.
Qed.

Lemma remote_fetchDownloadInfo : safe same_remote (fetchDownloadInfo this).
Proof. apply (remote_of_looked (looked_fetchDownloadInfo this)). Qed.

Lemma remote_fs_mkdirSync p : safe same_remote (fs_mkdirSync this p).
Proof.
  unfold fs_mkdirSync.
  destruct (resolve this p); try (apply safe_throw; look_side);
    apply safe_modify; intros w;
    destruct (storage w) as [[i [files|] a]|]; now repeat split.
Qed.

Lemma remote_write_file p c : safe same_remote (write_file this p c).
Proof.
  intros w. unfold write_file.
  destruct (resolve this p) as [| | | |rel|q], c,
    (storage w) as [[i [files|] ar]|];
    try destruct (parent_exists rel files); cbn;
    (split; [now repeat split | discriminate]).
Qed.

Lemma remote_unpack_file p : safe same_remote (unpack_file this p).
Proof.
  intros w. unfold unpack_file.
  destruct (resolve this p), (storage w) as [[i [files|] ar]|]; cbn;
    (split; [now repeat split | discriminate]).
Qed.

Lemma remote_fs_unlinkSync p : safe same_remote (fs_unlinkSync this p).
Proof.
  intros w. unfold fs_unlinkSync. destruct (existsSync this p w); cbn;
    (split; [|discriminate]);
    [apply remote_remove_node | apply same_remote_refl].
Qed.

Lemma remote_rimraf_sync p : safe same_remote (rimraf_sync this p).
Proof.
  unfold rimraf_sync. remote_safe;
    first [apply remote_remove_node | now repeat split].
Qed.

Lemma remote_cleanup_loop fuel :
  forall timeout startTime lastError w,
    same_remote w (snd (cleanup_loop this fuel timeout startTime lastError w)).
Proof.
  induction fuel as [|fuel IH]; intros timeout startTime lastError w.
  - apply same_remote_refl.
  - rewrite cleanup_loop_S.
    destruct (clock w - startTime <? timeout); [|apply same_remote_refl].
    destruct (is_some (install_dir w)); [|apply same_remote_refl].
    cbv zeta. destruct (rimraf_errors w) as [|e rest].
    + cbn [snd]. unfold remove_node.
      destruct w as [[st|] ? ? ? ? ? ? ? ?]; now repeat split.
    + eapply same_remote_trans; [|apply IH]. now repeat split.
Qed.

Lemma remote_cleanupLanguageServer timeout :
  safe same_remote (cleanupLanguageServer this timeout).
Proof.
  intros w. split; [|apply provider_cleanupLanguageServer].
  rewrite cleanupLanguageServer_loop. apply remote_cleanup_loop.
Qed.

Hint Resolve remote_Date_now remote_fs_existsSync remote_setTimeout
  remote_progress_report remote_loadLocalDownloadInfo
  remote_fetchDownloadInfo remote_fs_mkdirSync remote_write_file
  remote_unpack_file
  remote_fs_unlinkSync remote_rimraf_sync remote_cleanupLanguageServer
  : remote.

Lemma remote_write_entries l : safe same_remote (write_entries this l).
Proof. induction l as [|rel l IH]; cbn [write_entries]; remote_safe. Qed.

Hint Resolve remote_write_entries : remote.

Lemma remote_downloadLanguageServer :
  safe same_remote (downloadLanguageServer this).
Proof.
  unfold downloadLanguageServer, replace_installation, extract_archive,
    httpsGet_to_archive, saveLocalDownloadInfo.
  remote_safe.
Qed.

End Remote.

(** ** What [fetchDownloadInfo] resolves *)

Lemma filter_head_find A (f : A -> bool) (l : list A) :
  match filter f l with
  | [] => None
  | x :: _ => Some x
  end = find f l.
Proof.
  induction l as [|a l IH]; [reflexivity|]. cbn. now destruct (f a).
Qed.

Lemma find_first A (f : A -> bool) (before : list A) (first : A) (after : list A) :
  forallb (fun x => negb (f x)) before = true ->
  f first = true ->
  find f (before ++ first :: after) = Some first.
Proof.
  intros Hb Hf. induction before as [|b before IH]; cbn in *.
  - now rewrite Hf.
  - apply andb_true_iff in Hb as [Hb Hrest].
    destruct (f b); [discriminate | now apply IH].
Qed.

Lemma find_nowhere A (f : A -> bool) (l : list A) :
  forallb (fun x => negb (f x)) l = true -> find f l = None.
Proof.
  induction l as [|a l IH]; cbn; [reflexivity|].
  intros H. apply andb_true_iff in H as [Ha Hl].
  destruct (f a); [discriminate | now apply IH].
Qed.

Section Resolved.

Variable this : LanguageServerProvider.

Lemma fetchDownloadInfo_resolved w :
  fetchDownloadInfo this w
  = (resolved this (api w) (clock w),
     match provider_repo this with
     | github repo channel => add_event (HttpsGetJson (api_url repo channel)) w
     | url_prefix _ => w
     end).
Proof.
  unfold fetchDownloadInfo, resolved. destruct (provider_repo this) as [r c|u].
  - cbv zeta.
    change ("https://api.github.com/repos/" ++ r ++ "/releases/" ++ c)
      with (api_url r c).
    unfold httpsGetJson, emit, modify, get_world. rewrite !bind_run.
    cbn [api add_event set_trace].
    destruct (api w (api_url r c)) as [e|release]; [reflexivity|].
    cbn [settle ret Monad_Js Js_ret].
    rewrite <- filter_head_find. unfold asset_matches.
    now destruct (filter _ (assets release)).
  - reflexivity.
Qed.

(** The time of the call is all that the clock adds to what is resolved. *)
Lemma resolved_at net t1 t2 d :
  resolved this net t1 = Returned d ->
  resolved this net t2 = Returned (with_downloadedTime t2 d).
Proof.
  unfold resolved. destruct (provider_repo this) as [r c|u].
  - destruct (net (api_url r c)) as [e|release]; [discriminate|].
    destruct (find _ (assets release)); [|discriminate].
    now intros [= <-].
  - now intros [= <-].
Qed.

End Resolved.

(** For a [github] repository [fetchDownloadInfo] makes one request, and
    resolves the first asset of the release whose name matches the
    platform's file name, with the name and the id of the release and the
    time of the call. *)
Theorem fetchDownloadInfo_first_asset (this : LanguageServerProvider)
    (repo channel : string) (release : IGithubRelease)
    (before : list IGithubAsset) (first : IGithubAsset)
    (after : list IGithubAsset) (w : World) :
  provider_repo this = github repo channel ->
  api w (api_url repo channel) = inr release ->
  assets release = (before ++ first :: after)%list ->
  forallb (fun x =>
             negb (asset_matches (platformFilename (languageServerPackage this)) x))
          before = true ->
  asset_matches (platformFilename (languageServerPackage this)) first = true ->
  fetchDownloadInfo this w
  = (Returned {| url := browser_download_url first;
                 version := name release;
                 id := release_id release;
                 downloadedTime := clock w |},
     add_event (HttpsGetJson (api_url repo channel)) w).
Proof.
  intros Hrepo Hapi Hassets Hbefore Hfirst.
  rewrite fetchDownloadInfo_resolved. unfold resolved.
  rewrite Hrepo, Hapi, Hassets.
  now rewrite (@find_first _ (asset_matches _) _ _ after Hbefore Hfirst).
Qed.

Lemma fetchDownloadInfo_first_asset_witness :
  let this := Sample.provider_of Sample.releases in
  let w := Sample.world None (Sample.release 42 "v1.2") Sample.good_archive [] in
  fetchDownloadInfo this w
  = (Returned {| url := "https://example.org/linux"; version := "v1.2";
                 id := 42; downloadedTime := 5000 |},
     add_event
       (HttpsGetJson "https://api.github.com/repos/owner/tool/releases/latest")
       w).
Proof.
  intros this w.
  exact (@fetchDownloadInfo_first_asset this "owner/tool" "latest"
           (Sample.release 42 "v1.2")
           [ {| asset_name := "tool-osx-x64.tar.gz";
                browser_download_url := "https://example.org/osx" |} ]
           {| asset_name := "tool-linux-x64.tar.gz";
              browser_download_url := "https://example.org/linux" |}
           [] w eq_refl eq_refl eq_refl eq_refl eq_refl).
Defined.

(** When no asset of the release matches, [fetchDownloadInfo] throws the
    [TypeError] of reading [browser_download_url] of [undefined], after its
    one request; when the request fails, it throws the error of the
    request. *)
Theorem fetchDownloadInfo_no_asset (this : LanguageServerProvider)
    (repo channel : string) (w : World) :
  provider_repo this = github repo channel ->
  match api w (api_url repo channel) with
  | inl e =>
      fetchDownloadInfo this w
      = (Threw e, add_event (HttpsGetJson (api_url repo channel)) w)
  | inr release =>
      forallb (fun x =>
                 negb (asset_matches
                         (platformFilename (languageServerPackage this)) x))
              (assets release) = true ->
      exists message,
        fetchDownloadInfo this w
        = (Threw (TypeError message),
           add_event (HttpsGetJson (api_url repo channel)) w)
  end.
Proof.
  intros Hrepo. rewrite fetchDownloadInfo_resolved. unfold resolved.
  rewrite Hrepo. destruct (api w (api_url repo channel)) as [e|release];
    [reflexivity|].
  intros Hnone. rewrite (@find_nowhere _ (asset_matches _) _ Hnone). eauto.
Qed.

Lemma fetchDownloadInfo_no_asset_witness :
  let this :=
    {| extensionStoragePath := "/data"; languageServerName := "tool";
       languageServerPackage :=
         {| executable := "tool.exe";
            platformFilename := Literal "tool-win-x64.zip";
            archiver := None |};
       provider_repo := Sample.releases |} in
  let w := Sample.world None (Sample.release 42 "v1.2") Sample.good_archive [] in
  exists message,
    fetchDownloadInfo this w
    = (Threw (TypeError message),
       add_event
         (HttpsGetJson "https://api.github.com/repos/owner/tool/releases/latest")
         w).
Proof.
  intros this w.
  exact (@fetchDownloadInfo_no_asset this "owner/tool" "latest" w
           eq_refl eq_refl).
Defined.

(** For a [url-prefix] repository [checkVersion] makes no request, and tells
    a stored record from the repository by one thing only, whether its
    version is the empty string: a record that the provider wrote for such a
    repository is always reported as the same version. *)
Theorem checkVersion_url_prefix (this : ServerInstaller) (u : string)
    (w : World) (localinfo : IDownloadInfo) :
  isCustomPath this = false ->
  provider_repo (provider this) = url_prefix u ->
  record_of w = Some (JsonText localinfo) ->
  checkVersion this w
  = (Returned (if String.eqb (version localinfo) ""
               then same (version localinfo)
               else different (version localinfo) ""), w).
Proof.
  intros Hcustom Hrepo Hrecord.
  rewrite (@checkVersion_labels this w localinfo
             {| url := u ++ "/"
                       ++ PlatformFilename_toString
                            (platformFilename
                               (languageServerPackage (provider this)));
                version := ""; id := 0; downloadedTime := clock w |} w);
    auto.
  rewrite fetchDownloadInfo_resolved. unfold resolved. now rewrite Hrepo.
Qed.

Lemma checkVersion_url_prefix_witness :
  let this := Sample.installer_of Sample.mirror None in
  let w := Sample.world (Sample.installed 0 "")
             (Sample.release 42 "v1.2") Sample.good_archive [] in
  checkVersion this w = (Returned (same ""), w).
Proof.
  intros this w.
  exact (@checkVersion_url_prefix this "https://example.org/dl" w
           (Sample.record 0 "") eq_refl eq_refl eq_refl).
Defined.

(** ** The state file, written and read back *)

(** In an existing storage directory [saveLocalDownloadInfo] followed by
    [loadLocalDownloadInfo] gives back the record that was saved, and
    changes the state file only; without the storage directory the save
    throws [ENOENT] and changes nothing. *)
Theorem save_then_load (this : LanguageServerProvider) (inf : IDownloadInfo)
    (w : World) :
  match storage w with
  | Some st =>
      (saveLocalDownloadInfo this inf ;; loadLocalDownloadInfo this) w
      = (Returned (Some inf),
         set_storage (Some (set_downloadinfo (Some (JsonText inf)) st)) w)
  | None =>
      saveLocalDownloadInfo this inf w = (Threw (SystemError "ENOENT"), w)
  end.
Proof.
  destruct (storage w) as [st|] eqn:Hst.
  - rewrite bind_run, (saveLocalDownloadInfo_run this inf w Hst).
    now rewrite loadLocalDownloadInfo_run.
  - unfold saveLocalDownloadInfo, write_file. cbv zeta.
    now rewrite resolve_info, Hst.
Qed.

(** ** [path] and [checkInstalled] *)

Section PathFacts.

Variable this : ServerInstaller.

Lemma path_value w :
  path this w
  = (Returned
       (if truthy (customPath this) then
          match customPath this with
          | Some custom =>
              if existsSync (provider this) custom w then Some custom else None
          | None => None
          end
        else if existsSync (provider this) (languageServerExe (provider this)) w
             then Some (languageServerExe (provider this)) else None), w).
Proof.
  unfold path, getLanguageServerIfDownloaded. cbv zeta.
  destruct (truthy (customPath this)).
  - destruct (customPath this) as [custom|]; reflexivity.
  - rewrite bind_run, fs_existsSync_run.
    now destruct (existsSync _ _ w).
Qed.

Lemma checkInstalled_value w :
  checkInstalled this w
  = (Returned
       (if truthy (customPath this) then
          match customPath this with
          | Some custom => existsSync (provider this) custom w
          | None => false
          end
        else existsSync (provider this) (languageServerExe (provider this)) w),
     w).
Proof.
  unfold checkInstalled. rewrite bind_run, path_value.
  destruct (truthy (customPath this)) eqn:Hcustom.
  - destruct (customPath this) as [custom|]; [|reflexivity].
    destruct (existsSync (provider this) custom w) eqn:E; [|reflexivity].
    rewrite Hcustom. now rewrite fs_existsSync_run, E.
  - destruct (existsSync _ (languageServerExe _) w) eqn:E; [|reflexivity].
    now rewrite languageServerExe_truthy, fs_existsSync_run, E.
Qed.

End PathFacts.

(** [checkInstalled()] is true exactly when [path] is defined, and [path]
    is only ever a path that exists: the custom path when one is set, the
    executable in the install directory otherwise. *)
Theorem checkInstalled_iff_path (this : ServerInstaller) (w : World) :
  (fst (checkInstalled this w) = Returned true
   <-> exists p, fst (path this w) = Returned (Some p))
  /\ (forall p, fst (path this w) = Returned (Some p) ->
        existsSync (provider this) p w = true
        /\ p = if isCustomPath this
               then match customPath this with Some c => c | None => p end
               else languageServerExe (provider this)).
Proof.
  rewrite checkInstalled_value, path_value. unfold isCustomPath. cbn [fst].
  destruct (truthy (customPath this)).
  - destruct (customPath this) as [custom|].
    + destruct (existsSync (provider this) custom w) eqn:E.
      * split; [split; eauto|]. now intros p [= <-].
      * split; [split; [discriminate | now intros [p Hp]]|]. discriminate.
    + split; [split; [discriminate | now intros [p Hp]]|]. discriminate.
  - destruct (existsSync _ (languageServerExe _) w) eqn:E.
    + split; [split; eauto|]. now intros p [= <-].
    + split; [split; [discriminate | now intros [p Hp]]|]. discriminate.
Qed.

(** ** The platform signature *)

Lemma platform_signature_inj (p1 p2 : Process) :
  getPlatformSignature p1 = getPlatformSignature p2 ->
  operatingSystem (getPlatformDetails p1) = operatingSystem (getPlatformDetails p2)
  /\ process_arch p1 = process_arch p2.
Proof.
  unfold getPlatformSignature, getPlatformDetails.
  cbn [operatingSystem architecture].
  destruct (String.eqb (process_platform p1) "win32"),
    (String.eqb (process_platform p1) "darwin"),
    (String.eqb (process_platform p1) "linux"),
    (String.eqb (process_platform p2) "win32"),
    (String.eqb (process_platform p2) "darwin"),
    (String.eqb (process_platform p2) "linux");
    cbn; intros H; try discriminate; now inversion H.
Qed.

(** The signature tells the class of the operating system and the
    architecture apart: two processes with the same signature have both in
    common. *)
Theorem getPlatformSignature_injective (p1 p2 : Process) :
  getPlatformSignature p1 = getPlatformSignature p2 ->
  operatingSystem (getPlatformDetails p1) = operatingSystem (getPlatformDetails p2)
  /\ architecture (getPlatformDetails p1) = architecture (getPlatformDetails p2).
Proof. apply platform_signature_inj. Qed.

Lemma getPlatformSignature_injective_witness :
  let p1 := {| process_platform := "linux"; process_arch := "x64";
               env_PROCESSOR_ARCHITEW6432 := false |} in
  let p2 := {| process_platform := "linux"; process_arch := "x64";
               env_PROCESSOR_ARCHITEW6432 := true |} in
  operatingSystem (getPlatformDetails p1) = operatingSystem (getPlatformDetails p2)
  /\ architecture (getPlatformDetails p1) = architecture (getPlatformDetails p2).
Proof.
  intros p1 p2. apply (getPlatformSignature_injective p1 p2). reflexivity.
Defined.

(** A table of packages that has one entry, for the platform of [built],
    makes the constructor throw ["Platform not supported"] on every process
    of another operating system or architecture. *)
Theorem new_ServerInstaller_other_platform (built process : Process)
    (serverName storagePath : string) (packs : ILanguageServerPackages)
    (repo : LanguageServerRepository) (customPath : option string) :
  (forall sig pack, packs sig = Some pack -> sig = getPlatformSignature built) ->
  operatingSystem (getPlatformDetails process)
    <> operatingSystem (getPlatformDetails built)
  \/ process_arch process <> process_arch built ->
  new_ServerInstaller process serverName storagePath packs repo customPath
  = inl (Str "Platform not supported").
Proof.
  intros Honly Hother. unfold new_ServerInstaller, new_LanguageServerProvider.
  cbv zeta. destruct (packs (getPlatformSignature process)) as [pack|] eqn:E;
    [|reflexivity].
  apply Honly, platform_signature_inj in E. tauto.
Qed.

Lemma new_ServerInstaller_other_platform_witness :
  let built := {| process_platform := "linux"; process_arch := "x64";
                  env_PROCESSOR_ARCHITEW6432 := false |} in
  let process := {| process_platform := "freebsd"; process_arch := "x64";
                    env_PROCESSOR_ARCHITEW6432 := false |} in
  let packs := fun sig =>
    if String.eqb sig "linux-x64" then Some Sample.package else None in
  new_ServerInstaller process "tool" "/data" packs Sample.releases None
  = inl (Str "Platform not supported").
Proof.
  intros built process packs.
  apply (@new_ServerInstaller_other_platform built process).
  - intros sig pack. unfold packs.
    destruct (String.eqb_spec sig "linux-x64"); [now subst | discriminate].
  - left. discriminate.
Defined.

(** ** More on [cleanupLanguageServer] *)

Section CleanupFacts.

Variable this : LanguageServerProvider.

Lemma cleanup_loop_post fuel :
  forall timeout startTime lastError w,
    match fst (cleanup_loop this fuel timeout startTime lastError w) with
    | Returned true =>
        install_dir (snd (cleanup_loop this fuel timeout startTime lastError w))
        = None
    | Returned false =>
        install_dir (snd (cleanup_loop this fuel timeout startTime lastError w))
        = None
        /\ record_of (snd (cleanup_loop this fuel timeout startTime lastError w))
           = record_of w
    | _ =>
        record_of (snd (cleanup_loop this fuel timeout startTime lastError w))
        = record_of w
    end.
Proof.
  induction fuel as [|fuel IH]; intros timeout startTime lastError w.
  - reflexivity.
  - rewrite cleanup_loop_S.
    destruct (clock w - startTime <? timeout); [|reflexivity].
    destruct (install_dir w) as [files|] eqn:Hdir; cbn [is_some];
      [|now split].
    cbv zeta. destruct (rimraf_errors w) as [|e rest].
    + cbn [fst snd]. unfold install_dir, remove_node.
      destruct w as [[st|] ? ? ? ? ? ? ? ?]; reflexivity.
    + match goal with
      | |- context [cleanup_loop this fuel timeout startTime e ?w1] =>
          exact (IH timeout startTime e w1)
      end.
Qed.

Lemma cleanup_loop_wait fuel :
  forall timeout startTime lastError w,
    exists k : nat,
      clock (snd (cleanup_loop this fuel timeout startTime lastError w))
      = clock w + 100 * Z.of_nat k
      /\ (k = O
          \/ clock (snd (cleanup_loop this fuel timeout startTime lastError w))
             - startTime < timeout + 100).
Proof.
  induction fuel as [|fuel IH]; intros timeout startTime lastError w.
  - exists O. cbn. split; [lia | now left].
  - rewrite cleanup_loop_S.
    destruct (Z.ltb_spec (clock w - startTime) timeout) as [Hlt|Hge].
    2: { exists O. cbn. split; [lia | now left]. }
    destruct (is_some (install_dir w)).
    2: { exists O. cbn. split; [lia | now left]. }
    cbv zeta. destruct (rimraf_errors w) as [|e rest].
    + exists O. cbn [snd]. split; [|now left].
      unfold remove_node. destruct w as [[st|] ? ? ? ? ? ? ? ?]; cbn; lia.
    + match goal with
      | |- context [cleanup_loop this fuel timeout startTime e ?w1] =>
          destruct (IH timeout startTime e w1) as (k & Hk & Hbound);
          cbn [clock set_clock] in Hk, Hbound
      end.
      exists (S k). split; [lia|]. right.
      destruct Hbound as [->|Hbound]; lia.
Qed.

End CleanupFacts.

(** [cleanupLanguageServer] returns or throws.  Whenever it returns, the
    install directory is gone; it removes the state file exactly when it
    returns [true]. *)
Theorem cleanupLanguageServer_post (this : LanguageServerProvider)
    (timeout : Z) (w : World) :
  let run := cleanupLanguageServer this timeout w in
  match fst run with
  | Returned true => install_dir (snd run) = None /\ record_of (snd run) = None
  | Returned false =>
      install_dir (snd run) = None /\ record_of (snd run) = record_of w
  | Threw _ => record_of (snd run) = record_of w
  | OutOfFuel => False
  end.
Proof.
  intros run. subst run.
  pose proof (proj2 (provider_cleanupLanguageServer this timeout w)) as Hfuel.
  rewrite cleanupLanguageServer_loop in *.
  pose proof (cleanup_loop_post this (S (Z.to_nat timeout)) timeout (clock w)
                Undefined w) as Hpost.
  pose proof (@cleanup_loop_true this (S (Z.to_nat timeout)) timeout (clock w)
                Undefined w) as Htrue.
  destruct (fst (cleanup_loop this (S (Z.to_nat timeout)) timeout (clock w)
                   Undefined w)) as [[|]|e|]; auto.
Qed.

(** [cleanupLanguageServer] sleeps 100 ms a whole number of times, no more
    often than intervals of 100 ms begin before the timeout; with a timeout
    of at most 0 it does not wait at all. *)
Theorem cleanupLanguageServer_wait (this : LanguageServerProvider)
    (timeout : Z) (w : World) :
  exists k : nat,
    clock (snd (cleanupLanguageServer this timeout w))
    = clock w + 100 * Z.of_nat k
    /\ (k <= attempts timeout)%nat.
Proof.
  rewrite cleanupLanguageServer_loop.
  destruct (cleanup_loop_wait this (S (Z.to_nat timeout)) timeout (clock w)
              Undefined w) as (k & Hk & Hbound).
  exists k. split; [exact Hk|].
  destruct Hbound as [->|Hbound]; [lia|].
  unfold attempts. apply Nat2Z.inj_le.
  assert (Z.of_nat k <= (timeout + 99) / 100)
    by (apply Z.div_le_lower_bound; lia).
  lia.
Qed.

(** ** [downloadLanguageServer]: what it resolves, and what it leaves *)

Lemma returns_in_bind (Q : World -> Prop) A B (m : Js A) (k : A -> Js B) :
  (forall a, returns_in Q (k a)) -> returns_in Q (bind m k).
Proof.
  intros Hk w b. rewrite bind_run.
  destruct (m w) as [[a|e|] w1]; cbn; try discriminate. apply Hk.
Qed.

Section DownloadFacts.

Variable this : LanguageServerProvider.

(** The world in which [downloadLanguageServer] has looked up the release:
    the storage directory is there, and the trace has the progress report
    and the request. *)
Lemma downloadLanguageServer_start w :
  let w0 :=
    match storage w with
    | Some _ => w
    | None => set_storage (Some empty_storage) w
    end in
  let w1 :=
    add_event
      (ProgressReport ("Looking for " ++ languageServerName this ++ " updates"))
      w0 in
  let w2 :=
    match provider_repo this with
    | github repo channel => add_event (HttpsGetJson (api_url repo channel)) w1
    | url_prefix _ => w1
    end in
  downloadLanguageServer this w
  = match resolved this (api w) (clock w) with
    | Returned downinfo =>
        match record_of w with
        | Some (Garbage raw) =>
            (Threw (SyntaxError ("Unexpected token in JSON: " ++ raw)), w2)
        | Some (JsonText localinfo) =>
            if (id localinfo =? id downinfo)
               && String.eqb (version localinfo) (version downinfo)
            then (now <- Date_now ;;
                  saveLocalDownloadInfo this
                    (with_downloadedTime now localinfo)) w2
            else replace_installation this downinfo w2
        | None => replace_installation this downinfo w2
        end
    | Threw e => (Threw e, w2)
    | OutOfFuel => (OutOfFuel, w2)
    end.
Proof.
  intros w0 w1 w2. unfold downloadLanguageServer.
  rewrite bind_run, fs_existsSync_run, existsSync_storage.
  assert (Hmk :
    (if negb (is_some (storage w))
     then fs_mkdirSync this (extensionStoragePath this)
     else ret tt) w = (Returned tt, w0)).
  { subst w0. unfold fs_mkdirSync. rewrite resolve_storage.
    destruct (storage w) as [st|] eqn:Hst; cbn; [reflexivity|].
    unfold modify. now rewrite Hst. }
  cbv beta iota. rewrite bind_run, Hmk. cbv beta iota. rewrite bind_run.
  change (progress_report
            ("Looking for " ++ languageServerName this ++ " updates") w0)
    with (Returned tt, w1).
  cbv beta iota. rewrite bind_run, fetchDownloadInfo_resolved. fold w2.
  assert (Hnet : resolved this (api w1) (clock w1)
                 = resolved this (api w) (clock w)).
  { subst w1 w0. now destruct (storage w). }
  rewrite Hnet.
  destruct (resolved this (api w) (clock w)) as [downinfo|e|]; try reflexivity.
  cbv beta iota. rewrite bind_run, loadLocalDownloadInfo_run.
  assert (Hrec : record_of w2 = record_of w).
  { subst w2 w1 w0. unfold record_of.
    destruct (provider_repo this), w as [[st|] ? ? ? ? ? ? ? ?]; reflexivity. }
  rewrite Hrec. destruct (record_of w) as [[localinfo|raw]|];
    try reflexivity.
  now destruct ((id localinfo =? id downinfo)
                && String.eqb (version localinfo) (version downinfo)).
Qed.

Lemma save_now_returns (inf : IDownloadInfo) :
  returns_in
    (fun w' =>
       record_of w' = Some (JsonText (with_downloadedTime (clock w') inf)))
    (now <- Date_now ;;
     saveLocalDownloadInfo this (with_downloadedTime now inf)).
Proof.
  intros w a. rewrite bind_run. unfold Date_now.
  destruct (storage w) as [st|] eqn:Hst.
  - rewrite (saveLocalDownloadInfo_run this _ w Hst). reflexivity.
  - unfold saveLocalDownloadInfo, write_file. cbv zeta.
    rewrite resolve_info, Hst. discriminate.
Qed.

Lemma replace_installation_returns (downinfo : IDownloadInfo) :
  returns_in
    (fun w' =>
       record_of w'
       = Some (JsonText (with_downloadedTime (clock w') downinfo)))
    (replace_installation this downinfo).
Proof.
  unfold replace_installation.
  do 7 (apply returns_in_bind; intros ?).
  apply save_now_returns.
Qed.

End DownloadFacts.

Section DownloadOutcomes.

Variable this : LanguageServerProvider.

Lemma download_success w :
  fst (downloadLanguageServer this w) = Returned tt ->
  exists downinfo inf,
    resolved this (api w) (clock w) = Returned downinfo
    /\ record_of (snd (downloadLanguageServer this w)) = Some (JsonText inf)
    /\ id inf = id downinfo
    /\ version inf = version downinfo
    /\ downloadedTime inf = clock (snd (downloadLanguageServer this w)).
Proof.
  rewrite downloadLanguageServer_start. cbv zeta.
  destruct (resolved this (api w) (clock w)) as [downinfo|e|];
    [|discriminate..].
  destruct (record_of w) as [[localinfo|raw]|]; [|discriminate|].
  - destruct ((id localinfo =? id downinfo)
              && String.eqb (version localinfo) (version downinfo)) eqn:Hsame.
    + apply andb_true_iff in Hsame as [Hid Hversion].
      apply Z.eqb_eq in Hid. apply String.eqb_eq in Hversion.
      intros Hrun. apply save_now_returns in Hrun. eauto 10.
    + intros Hrun. apply replace_installation_returns in Hrun. eauto 10.
  - intros Hrun. apply replace_installation_returns in Hrun. eauto 10.
Qed.

End DownloadOutcomes.

(** ** C1: what a failing download does to the state file *)

Lemma same_record_refl w : same_record w w.
Proof. reflexivity. Qed.

Lemma same_record_trans a b c :
  same_record a b -> same_record b c -> same_record a c.
Proof. unfold same_record. congruence. Qed.

Ltac keep_side := first [exact same_record_refl | exact same_record_trans].

Ltac keep_rule :=
  lazymatch goal with
  | |- safe _ (bind _ _) => apply safe_bind; [keep_side | | intros ?]
  | |- safe _ (ret _) => apply safe_ret; keep_side
  | |- safe _ (Js_ret _) => apply safe_ret; keep_side
  | |- safe _ (throw _) => apply safe_throw; keep_side
  | |- safe _ (settle _) => apply safe_settle; keep_side
  | |- safe _ get_world => apply safe_get_world; keep_side
  | |- safe _ (modify _) => apply safe_modify; intros ?
  | |- safe _ (if ?b then _ else _) => destruct b
  | |- safe _ (match ?x with _ => _ end) => destruct x
  end.

Create HintDb keep.

Ltac keep_safe := repeat keep_rule; auto with keep.

#[global] Hint Resolve same_record_refl : keep.
#[global] Hint Extern 1 (same_record _ (add_event _ _)) => reflexivity : keep.
#[global] Hint Extern 1 (safe same_record (emit _)) =>
  apply safe_modify; intros ?; reflexivity : keep.

Section RecordOnFailure.

Variable this : LanguageServerProvider.

Lemma keep_Date_now : safe same_record Date_now.
Proof. apply safe_pure, same_record_refl. Qed.

Lemma keep_progress_report msg : safe same_record (progress_report msg).
Proof. unfold progress_report. keep_safe. Qed.

Lemma keep_fs_mkdirSync p : safe same_record (fs_mkdirSync this p).
Proof.
  unfold fs_mkdirSync.
  destruct (resolve this p); try (apply safe_throw; keep_side);
    apply safe_modify; intros w; unfold same_record, record_of;
    now destruct (storage w) as [[i [files|] a]|].
Qed.

Lemma keep_write_file p c :
  resolve this p <> InfoFile -> safe same_record (write_file this p c).
Proof.
  intros Hp w. unfold write_file.
  destruct (resolve this p) as [| | | |rel|q] eqn:Ep; try congruence;
    destruct c, (storage w) as [[i [files|] ar]|] eqn:E;
    try destruct (parent_exists rel files); cbn;
    (split; [|discriminate]); unfold same_record, record_of; cbn;
    now rewrite ?E.
Qed.

Lemma keep_unpack_file p : safe same_record (unpack_file this p).
Proof.
  intros w. unfold unpack_file.
  destruct (resolve this p), (storage w) as [[i [files|] ar]|] eqn:E; cbn;
    (split; [|discriminate]); unfold same_record, record_of; cbn;
    now rewrite ?E.
Qed.

Lemma keep_write_entries l : safe same_record (write_entries this l).
Proof.
  induction l as [|rel l IH]; cbn [write_entries]; keep_safe.
  apply keep_unpack_file.
Qed.

Lemma keep_httpsGet_to_archive u :
  safe same_record (httpsGet_to_archive this u).
Proof.
  unfold httpsGet_to_archive. keep_safe.
  apply keep_write_file. now rewrite resolve_archive.
Qed.

Lemma keep_extract_archive : safe same_record (extract_archive this).
Proof.
  unfold extract_archive. keep_safe;
    first [ apply keep_write_entries
          | apply keep_write_file; now rewrite resolve_exe ].
Qed.

Lemma keep_unlink_archive :
  safe same_record (fs_unlinkSync this (languageServerArchive this)).
Proof.
  intros w. unfold fs_unlinkSync, existsSync. rewrite resolve_archive.
  destruct (node_exists ArchiveFile w); cbn; (split; [|discriminate]);
    [|reflexivity].
  unfold same_record, record_of, remove_node.
  destruct (storage w) as [st|] eqn:E; cbn; [reflexivity | now rewrite E].
Qed.

(** A save that throws has written nothing. *)
Lemma keep_failed_save inf :
  fails_within same_record (saveLocalDownloadInfo this inf).
Proof.
  intros w e. unfold saveLocalDownloadInfo, write_file.
  rewrite resolve_info.
  destruct (storage w); cbn; [discriminate|]. reflexivity.
Qed.

(** What [downloadLanguageServer] does after [cleanupLanguageServer] leaves
    the state file alone whenever it throws. *)
Lemma replace_installation_tail downinfo :
  fails_within same_record
    (fs_mkdirSync this (languageServerDirectory this) ;;
     progress_report ("Downloading " ++ languageServerName this) ;;
     httpsGet_to_archive this (url downinfo) ;;
     progress_report ("Extracting " ++ languageServerName this) ;;
     extract_archive this ;;
     fs_unlinkSync this (languageServerArchive this) ;;
     now <- Date_now ;;
     saveLocalDownloadInfo this (with_downloadedTime now downinfo)).
Proof.
  apply fails_within_bind;
    [exact same_record_trans | apply keep_fs_mkdirSync | intros _].
  apply fails_within_bind;
    [exact same_record_trans | apply keep_progress_report | intros _].
  apply fails_within_bind;
    [exact same_record_trans | apply keep_httpsGet_to_archive | intros _].
  apply fails_within_bind;
    [exact same_record_trans | apply keep_progress_report | intros _].
  apply fails_within_bind;
    [exact same_record_trans | apply keep_extract_archive | intros _].
  apply fails_within_bind;
    [exact same_record_trans | apply keep_unlink_archive | intros _].
  apply fails_within_bind;
    [exact same_record_trans | apply keep_Date_now | intros now].
  apply keep_failed_save.
Qed.

(** With nothing to remove, the clean-up of [downloadLanguageServer]
    answers [false] at once. *)
Lemma cleanup_nothing w :
  install_dir w = None ->
  cleanupLanguageServer this default_timeout w = (Returned false, w).
Proof.
  intros Hdir. rewrite cleanupLanguageServer_loop.
  change (S (Z.to_nat default_timeout)) with (S (Z.to_nat 1000)).
  now rewrite cleanup_loop_S, Z.sub_diag, Hdir.
Qed.

Lemma replace_installation_without_directory downinfo w e :
  install_dir w = None ->
  fst (replace_installation this downinfo w) = Threw e ->
  record_of (snd (replace_installation this downinfo w)) = record_of w.
Proof.
  intros Hdir. unfold replace_installation.
  rewrite bind_run, (cleanup_nothing w Hdir). cbv beta iota.
  apply replace_installation_tail.
Qed.

Lemma download_failure_without_directory w e :
  install_dir w = None ->
  fst (downloadLanguageServer this w) = Threw e ->
  record_of (snd (downloadLanguageServer this w)) = record_of w.
Proof.
  intros Hdir. rewrite downloadLanguageServer_start. cbv zeta.
  match goal with
  | |- context [replace_installation this _ ?x] => set (w2 := x)
  end.
  assert (H2 : record_of w2 = record_of w /\ install_dir w2 = None
               /\ exists st, storage w2 = Some st).
  { subst w2. unfold record_of, install_dir in *.
    destruct (provider_repo this), w as [[st|] ? ? ? ? ? ? ? ?];
      cbn in *; eauto. }
  destruct H2 as (Hrec2 & Hdir2 & st & Hst2).
  destruct (resolved this (api w) (clock w)) as [downinfo|e'|];
    cbn [fst snd]; [|auto..].
  destruct (record_of w) as [[localinfo|raw]|] eqn:Hrec; cbn [fst snd];
    [| now rewrite Hrec2 |].
  - destruct ((id localinfo =? id downinfo)
              && String.eqb (version localinfo) (version downinfo)).
    + rewrite bind_run. unfold Date_now. cbv beta iota.
      rewrite (saveLocalDownloadInfo_run this _ w2 Hst2). discriminate.
    + intros Hthrow. rewrite <- Hrec2.
      now apply (replace_installation_without_directory downinfo w2 Hdir2 Hthrow).
  - intros Hthrow. rewrite <- Hrec2.
    now apply (replace_installation_without_directory downinfo w2 Hdir2 Hthrow).
Qed.

End RecordOnFailure.



(** When [downloadLanguageServer] returns, the state file holds a record
    with the [id] and the [version] that [fetchDownloadInfo] resolved when
    the call began, and with the time at which the call ended. *)
Theorem downloadLanguageServer_records_release
    (this : LanguageServerProvider) (w : World) :
  fst (downloadLanguageServer this w) = Returned tt ->
  exists downinfo inf,
    fst (fetchDownloadInfo this w) = Returned downinfo
    /\ record_of (snd (downloadLanguageServer this w)) = Some (JsonText inf)
    /\ id inf = id downinfo
    /\ version inf = version downinfo
    /\ downloadedTime inf = clock (snd (downloadLanguageServer this w)).
Proof.
  intros Hrun. rewrite fetchDownloadInfo_resolved. cbn [fst].
  now apply download_success.
Qed.

Lemma downloadLanguageServer_records_release_witness :
  let this := Sample.provider_of Sample.releases in
  let w := Sample.world (Sample.installed 41 "v1.1")
             (Sample.release 42 "v1.2") Sample.good_archive [Error "EBUSY"] in
  exists downinfo inf,
    fst (fetchDownloadInfo this w) = Returned downinfo
    /\ record_of (snd (downloadLanguageServer this w)) = Some (JsonText inf)
    /\ id inf = id downinfo
    /\ version inf = version downinfo
    /\ downloadedTime inf = clock (snd (downloadLanguageServer this w)).
Proof.
  intros this w.
  apply (downloadLanguageServer_records_release this w). reflexivity.
Defined.

(** When the release cannot be resolved, [downloadLanguageServer] throws the
    error of [fetchDownloadInfo] before it removes anything: the state file
    and the install directory are as they were. *)
Theorem downloadLanguageServer_unresolved (this : LanguageServerProvider)
    (w : World) (e : Thrown) :
  fst (fetchDownloadInfo this w) = Threw e ->
  fst (downloadLanguageServer this w) = Threw e
  /\ record_of (snd (downloadLanguageServer this w)) = record_of w
  /\ install_dir (snd (downloadLanguageServer this w)) = install_dir w.
Proof.
  rewrite fetchDownloadInfo_resolved, downloadLanguageServer_start.
  cbv zeta. cbn [fst]. intros ->. cbn [fst snd].
  split; [reflexivity|]. unfold record_of, install_dir.
  destruct (provider_repo this), w as [[st|] ? ? ? ? ? ? ? ?]; now split.
Qed.

Lemma downloadLanguageServer_unresolved_witness :
  let this :=
    {| extensionStoragePath := "/data"; languageServerName := "tool";
       languageServerPackage := Sample.package;
       provider_repo := github "owner/tool" "42" |} in
  let w := Sample.world (Sample.installed 41 "v1.1")
             (Sample.release 42 "v1.2") Sample.good_archive [] in
  fst (downloadLanguageServer this w) = Threw (Error "Bad response: 404")
  /\ record_of (snd (downloadLanguageServer this w)) = record_of w
  /\ install_dir (snd (downloadLanguageServer this w)) = install_dir w.
Proof.
  intros this w.
  apply (downloadLanguageServer_unresolved this w). reflexivity.
Defined.

(** With a state file that does not parse, a [downloadLanguageServer] that
    resolves its release throws the [SyntaxError], and nothing in the
    storage directory changes: the state file is not replaced, so the next
    call fails in the same way. *)
Theorem downloadLanguageServer_corrupt_state (this : LanguageServerProvider)
    (w : World) (raw : string) (downinfo : IDownloadInfo) :
  record_of w = Some (Garbage raw) ->
  fst (fetchDownloadInfo this w) = Returned downinfo ->
  (exists message,
     fst (downloadLanguageServer this w) = Threw (SyntaxError message))
  /\ storage (snd (downloadLanguageServer this w)) = storage w.
Proof.
  rewrite fetchDownloadInfo_resolved, downloadLanguageServer_start.
  cbv zeta. cbn [fst]. intros Hrecord ->. rewrite Hrecord. cbn [fst snd].
  split; [eauto|]. unfold record_of in Hrecord.
  destruct (provider_repo this), w as [[st|] ? ? ? ? ? ? ? ?];
    try reflexivity; discriminate.
Qed.

Lemma downloadLanguageServer_corrupt_state_witness :
  let this := Sample.provider_of Sample.mirror in
  let w := Sample.world
             (Some {| downloadinfo := Some (Garbage "{ url: ");
                      server := Some ["bin/tool"]; server_archive := None |})
             (Sample.release 42 "v1.2") Sample.good_archive [] in
  (exists message,
     fst (downloadLanguageServer this w) = Threw (SyntaxError message))
  /\ storage (snd (downloadLanguageServer this w)) = storage w.
Proof.
  intros this w.
  apply (@downloadLanguageServer_corrupt_state this w "{ url: "
           {| url := "https://example.org/dl/tool-linux-x64.tar.gz";
              version := ""; id := 0; downloadedTime := 5000 |});
    reflexivity.
Defined.

(** ** After an install *)

Section AfterInstall.

Variable this : ServerInstaller.

Lemma getLanguageServerVersion_value w :
  getLanguageServerVersion (provider this) w
  = (match record_of w with
     | None => Returned None
     | Some (JsonText inf) => Returned (Some (version inf))
     | Some (Garbage raw) =>
         Threw (SyntaxError ("Unexpected token in JSON: " ++ raw))
     end, w).
Proof.
  unfold getLanguageServerVersion. rewrite bind_run, loadLocalDownloadInfo_run.
  now destruct (record_of w) as [[inf|raw]|].
Qed.

Lemma shouldRegularUpdate_value w :
  shouldRegularUpdate (provider this) w
  = (match record_of w with
     | None => Returned true
     | Some (JsonText inf) =>
         Returned (604800000 <=? clock w - downloadedTime inf)
     | Some (Garbage raw) =>
         Threw (SyntaxError ("Unexpected token in JSON: " ++ raw))
     end, w).
Proof.
  unfold shouldRegularUpdate. cbv zeta.
  rewrite bind_run, loadLocalDownloadInfo_run.
  now destruct (record_of w) as [[inf|raw]|].
Qed.

Lemma install_success w :
  isCustomPath this = false ->
  fst (install this w) = Returned tt ->
  exists inf,
    record_of (snd (install this w)) = Some (JsonText inf)
    /\ downloadedTime inf = clock (snd (install this w))
    /\ fst (checkVersion this (snd (install this w)))
       = Returned (same (version inf)).
Proof.
  unfold install. intros Hcustom Hrun.
  destruct (download_success (provider this) w Hrun)
    as (downinfo & inf & Hres & Hrec & Hid & Hversion & Htime).
  destruct (remote_downloadLanguageServer (provider this) w)
    as [(Hapi & _ & _) _].
  exists inf. split; [exact Hrec|]. split; [exact Htime|].
  set (w' := snd (downloadLanguageServer (provider this) w)) in *.
  pose proof (resolved_at (provider this) (api w) (clock w) (clock w') Hres)
    as Hres'.
  rewrite <- Hapi in Hres'.
  pose proof (fetchDownloadInfo_resolved (provider this) w') as Hfetch.
  rewrite Hres' in Hfetch.
  rewrite (checkVersion_labels this w' Hcustom Hrec Hfetch).
  cbn [fst version with_downloadedTime].
  now rewrite Hversion, String.eqb_refl.
Qed.

End AfterInstall.

(** After an [install()] that returned, and without a custom path,
    [checkVersion] reports the same version (as long as the repository
    resolves as it did), [getLanguageServerVersion] gives that version, and
    the regular update is not due. *)
Theorem install_then_up_to_date (this : ServerInstaller) (w : World) :
  isCustomPath this = false ->
  fst (install this w) = Returned tt ->
  exists v,
    fst (checkVersion this (snd (install this w))) = Returned (same v)
    /\ fst (getLanguageServerVersion (provider this) (snd (install this w)))
       = Returned (Some v)
    /\ fst (shouldRegularUpdate (provider this) (snd (install this w)))
       = Returned false.
Proof.
  intros Hcustom Hrun.
  destruct (install_success this w Hcustom Hrun) as (inf & Hrec & Htime & Hcheck).
  exists (version inf). split; [exact Hcheck|].
  rewrite getLanguageServerVersion_value, shouldRegularUpdate_value, Hrec.
  cbn [fst]. split; [reflexivity|].
  now rewrite Htime, Z.sub_diag.
Qed.

Lemma install_then_up_to_date_witness :
  let this := Sample.installer_of Sample.releases None in
  let w := Sample.world (Sample.installed 41 "v1.1")
             (Sample.release 42 "v1.2") Sample.good_archive [] in
  exists v,
    fst (checkVersion this (snd (install this w))) = Returned (same v)
    /\ fst (getLanguageServerVersion (provider this) (snd (install this w)))
       = Returned (Some v)
    /\ fst (shouldRegularUpdate (provider this) (snd (install this w)))
       = Returned false.
Proof.
  intros this w.
  apply (install_then_up_to_date this w); reflexivity.
Defined.

(** ** A replacement, step by step *)

Section Replacement.

Variable this : LanguageServerProvider.

Lemma cleanup_without_errors w :
  rimraf_errors w = [] ->
  cleanupLanguageServer this default_timeout w
  = if is_some (install_dir w) then
      (Returned true,
       remove_node InfoFile
         (add_event (Rimraf (localDownloadInfoPath this))
            (remove_node ServerDir
               (add_event (Rimraf (languageServerDirectory this)) w))))
    else (Returned false, w).
Proof.
  intros Herrs. rewrite cleanupLanguageServer_loop.
  change (S (Z.to_nat default_timeout)) with (S (Z.to_nat 1000)).
  rewrite cleanup_loop_S, Z.sub_diag, Herrs. reflexivity.
Qed.

Lemma mkdir_directory_run w :
  fs_mkdirSync this (languageServerDirectory this) w
  = (Returned tt,
     set_storage
       (Some match storage w with
             | Some st =>
                 match server st with
                 | Some _ => st
                 | None => set_server (Some []) st
                 end
             | None => set_server (Some []) empty_storage
             end) w).
Proof.
  unfold fs_mkdirSync. rewrite resolve_directory. unfold modify.
  now destruct (storage w) as [[i [files|] a]|].
Qed.

Lemma write_archive_run a st w :
  storage w = Some st ->
  write_file this (languageServerArchive this) (Bytes a) w
  = (Returned tt, set_storage (Some (set_server_archive (Some a) st)) w).
Proof. intros Hst. unfold write_file. now rewrite resolve_archive, Hst. Qed.

Lemma write_server_file_run rel i files a w :
  storage w = Some {| downloadinfo := i; server := Some files;
                      server_archive := a |} ->
  write_file this (path_join (languageServerDirectory this) rel) Binary w
  = if parent_exists rel files
    then (Returned tt,
          set_storage (Some {| downloadinfo := i;
                               server := Some (files ++ [rel])%list;
                               server_archive := a |}) w)
    else (Threw (SystemError "ENOENT"), w).
Proof. intros Hst. unfold write_file. now rewrite resolve_server_file, Hst. Qed.

Lemma unpack_file_run rel i files a w :
  storage w = Some {| downloadinfo := i; server := Some files;
                      server_archive := a |} ->
  unpack_file this (path_join (languageServerDirectory this) rel) w
  = (Returned tt,
     set_storage (Some {| downloadinfo := i;
                          server := Some (files ++ [rel])%list;
                          server_archive := a |}) w).
Proof. intros Hst. unfold unpack_file. now rewrite resolve_server_file, Hst. Qed.

Lemma write_entries_run l :
  forall i files a w,
    storage w = Some {| downloadinfo := i; server := Some files;
                        server_archive := a |} ->
    write_entries this l w
    = (Returned tt,
       set_storage (Some {| downloadinfo := i;
                            server := Some (files ++ l)%list;
                            server_archive := a |}) w).
Proof.
  induction l as [|rel l IH]; intros i files a w Hst; cbn [write_entries].
  - rewrite app_nil_r, <- Hst. now destruct w.
  - rewrite bind_run, (unpack_file_run rel w Hst).
    rewrite (IH i (files ++ [rel])%list a) by reflexivity.
    now rewrite <- app_assoc.
Qed.

(** The extraction into an install directory that holds [files]: [blocked]
    when the write stream of [gzip] cannot be opened. *)
Lemma extract_archive_run i files a w :
  storage w = Some {| downloadinfo := i; server := Some files;
                      server_archive := Some a |} ->
  let blocked :=
    match languageServerArchiver this with
    | gzip => negb (parent_exists (executable (languageServerPackage this)) files)
    | _ => false
    end in
  let written :=
    if blocked then []
    else match languageServerArchiver this with
         | gzip => [executable (languageServerPackage this)]
         | _ => entries a
         end in
  extract_archive this w
  = (if blocked then Threw (SystemError "ENOENT")
     else match defect a with
          | Some e => Threw e
          | None => Returned tt
          end,
     set_storage (Some {| downloadinfo := i;
                          server := Some (files ++ written)%list;
                          server_archive := Some a |})
       (add_event (Unpack (languageServerArchiver this)) w)).
Proof.
  intros Hst blocked written. unfold extract_archive, emit, modify, get_world.
  rewrite !bind_run. cbn [storage add_event set_trace]. rewrite Hst.
  rewrite bind_run.
  set (wu := add_event (Unpack (languageServerArchiver this)) w).
  assert (Hsu : storage wu
                = Some {| downloadinfo := i; server := Some files;
                          server_archive := Some a |}) by exact Hst.
  assert (Hsame : set_storage
                    (Some {| downloadinfo := i; server := Some (files ++ [])%list;
                             server_archive := Some a |}) wu = wu).
  { rewrite app_nil_r, <- Hsu. now destruct wu. }
  subst blocked written.
  destruct (languageServerArchiver this).
  - rewrite (write_entries_run (entries a) wu Hsu). now destruct (defect a).
  - unfold languageServerExe.
    rewrite (write_server_file_run (executable (languageServerPackage this))
               wu Hsu).
    destruct (parent_exists (executable (languageServerPackage this)) files);
      cbn [negb]; [now destruct (defect a)|].
    now rewrite Hsame.
  - rewrite (write_entries_run (entries a) wu Hsu). now destruct (defect a).
Qed.

Lemma unlink_archive_run i d a w :
  storage w = Some {| downloadinfo := i; server := d;
                      server_archive := Some a |} ->
  fs_unlinkSync this (languageServerArchive this) w
  = (Returned tt,
     set_storage (Some {| downloadinfo := i; server := d;
                          server_archive := None |}) w).
Proof.
  intros Hst. unfold fs_unlinkSync, existsSync.
  rewrite resolve_archive. unfold node_exists, remove_node.
  now rewrite Hst.
Qed.

End Replacement.

Section ReplacementRun.

Variable this : LanguageServerProvider.

Lemma httpsGet_to_archive_run u w :
  httpsGet_to_archive this u w
  = match artifacts w u with
    | inl e => (Threw e, add_event (HttpsGet u) w)
    | inr a =>
        write_file this (languageServerArchive this) (Bytes a)
          (add_event (HttpsGet u) w)
    end.
Proof.
  unfold httpsGet_to_archive, emit, modify, get_world. rewrite !bind_run.
  cbn [artifacts add_event set_trace].
  now destruct (artifacts w u).
Qed.

Lemma replace_installation_run downinfo w i d ar :
  storage w = Some {| downloadinfo := i; server := d; server_archive := ar |} ->
  rimraf_errors w = [] ->
  let blocked :=
    match languageServerArchiver this with
    | gzip => negb (parent_exists (executable (languageServerPackage this)) [])
    | _ => false
    end in
  let written (a : Archive) :=
    if blocked then []
    else match languageServerArchiver this with
         | gzip => [executable (languageServerPackage this)]
         | _ => entries a
         end in
  let extraction (a : Archive) : Outcome unit :=
    if blocked then Threw (SystemError "ENOENT")
    else match defect a with Some e => Threw e | None => Returned tt end in
  let kept := if is_some d then None else i in
  exists w',
    replace_installation this downinfo w
    = (match artifacts w (url downinfo) with
       | inl e => Threw e
       | inr a => extraction a
       end, w')
    /\ clock w' = clock w
    /\ storage w'
       = Some match artifacts w (url downinfo) with
              | inl e =>
                  {| downloadinfo := kept; server := Some [];
                     server_archive := ar |}
              | inr a =>
                  match extraction a with
                  | Returned _ =>
                      {| downloadinfo :=
                           Some (JsonText
                                   (with_downloadedTime (clock w) downinfo));
                         server := Some (written a);
                         server_archive := None |}
                  | _ =>
                      {| downloadinfo := kept; server := Some (written a);
                         server_archive := Some a |}
                  end
              end.
Proof.
  intros Hst Herrs blocked written extraction kept.
  unfold replace_installation.
  rewrite bind_run, (cleanup_without_errors this w Herrs).
  unfold install_dir. rewrite Hst. cbn [server].
  set (wc := if is_some d
             then remove_node InfoFile
                    (add_event (Rimraf (localDownloadInfoPath this))
                       (remove_node ServerDir
                          (add_event (Rimraf (languageServerDirectory this)) w)))
             else w).
  assert (Hc : (if is_some d
                then (Returned true,
                      remove_node InfoFile
                        (add_event (Rimraf (localDownloadInfoPath this))
                           (remove_node ServerDir
                              (add_event
                                 (Rimraf (languageServerDirectory this)) w))))
                else (Returned false, w))
               = (Returned (is_some d), wc))
    by (subst wc; now destruct (is_some d)).
  rewrite Hc. cbv beta iota.
  assert (Hwc : storage wc = Some {| downloadinfo := kept; server := None;
                                     server_archive := ar |}
                /\ clock wc = clock w /\ artifacts wc = artifacts w).
  { subst wc kept. unfold remove_node.
    destruct d as [files|]; cbn [is_some]; [|auto].
    cbn [storage add_event set_trace]. rewrite Hst. cbn. auto. }
  destruct Hwc as (Hsc & Hcc & Hac).
  rewrite bind_run, mkdir_directory_run, Hsc. cbn [server set_server].
  cbv beta iota. rewrite bind_run.
  unfold progress_report at 1, emit, modify. cbv beta iota.
  rewrite bind_run, httpsGet_to_archive_run.
  cbn [artifacts add_event set_trace set_storage]. rewrite Hac.
  destruct (artifacts w (url downinfo)) as [e|a].
  { eexists. split; [reflexivity|]. cbn. auto. }
  rewrite (@write_archive_run this a
             {| downloadinfo := kept; server := Some [];
                server_archive := ar |}) by reflexivity.
  cbv beta iota. rewrite bind_run.
  unfold progress_report, emit, modify. cbv beta iota.
  rewrite bind_run.
  rewrite (@extract_archive_run this kept [] a) by reflexivity.
  cbv zeta. cbn [app]. fold blocked. fold (written a). fold (extraction a).
  subst extraction. cbv beta.
  destruct blocked.
  { eexists. split; [reflexivity|]. cbn. auto. }
  destruct (defect a) as [e|].
  { eexists. split; [reflexivity|]. cbn. auto. }
  cbv beta iota. rewrite bind_run.
  rewrite (@unlink_archive_run this kept (Some (written a)) a) by reflexivity.
  cbv beta iota. rewrite bind_run. unfold Date_now. cbv beta iota.
  rewrite (@saveLocalDownloadInfo_run this _
             {| downloadinfo := kept; server := Some (written a);
                server_archive := None |}) by reflexivity.
  eexists. split; [reflexivity|]. cbn. now rewrite Hcc.
Qed.

End ReplacementRun.

Section ReplacementOutcomes.

Variable this : LanguageServerProvider.

Lemma resolved_time net t d :
  resolved this net t = Returned d -> with_downloadedTime t d = d.
Proof.
  intros H. pose proof (resolved_at this net t t H) as H'.
  rewrite H in H'. now injection H'.
Qed.

Lemma download_replacement w downinfo :
  resolved this (api w) (clock w) = Returned downinfo ->
  (forall raw, record_of w <> Some (Garbage raw)) ->
  (forall localinfo,
     record_of w = Some (JsonText localinfo) ->
     (id localinfo =? id downinfo)
     && String.eqb (version localinfo) (version downinfo) = false) ->
  rimraf_errors w = [] ->
  let blocked :=
    match languageServerArchiver this with
    | gzip => negb (parent_exists (executable (languageServerPackage this)) [])
    | _ => false
    end in
  let written (a : Archive) :=
    if blocked then []
    else match languageServerArchiver this with
         | gzip => [executable (languageServerPackage this)]
         | _ => entries a
         end in
  let extraction (a : Archive) : Outcome unit :=
    if blocked then Threw (SystemError "ENOENT")
    else match defect a with Some e => Threw e | None => Returned tt end in
  let kept := if is_some (install_dir w) then None else record_of w in
  exists w',
    downloadLanguageServer this w
    = (match artifacts w (url downinfo) with
       | inl e => Threw e
       | inr a => extraction a
       end, w')
    /\ clock w' = clock w
    /\ record_of w'
       = match artifacts w (url downinfo) with
         | inl e => kept
         | inr a =>
             match extraction a with
             | Returned _ => Some (JsonText downinfo)
             | _ => kept
             end
         end
    /\ install_dir w'
       = Some match artifacts w (url downinfo) with
              | inl e => []
              | inr a => written a
              end
    /\ match artifacts w (url downinfo) with
       | inl e => True
       | inr a =>
           existsSync this (languageServerArchive this) w'
           = match extraction a with Returned _ => false | _ => true end
       end.
Proof.
  intros Hres Hgarbage Hdiffers Herrs blocked written extraction kept.
  rewrite downloadLanguageServer_start, Hres. cbv zeta.
  match goal with
  | |- context [replace_installation this downinfo ?x] => set (w2 := x)
  end.
  assert (Hinstall :
    match record_of w with
    | Some (JsonText localinfo) =>
        if (id localinfo =? id downinfo)
           && String.eqb (version localinfo) (version downinfo)
        then (now <- Date_now ;;
              saveLocalDownloadInfo this (with_downloadedTime now localinfo)) w2
        else replace_installation this downinfo w2
    | Some (Garbage raw) =>
        (Threw (SyntaxError ("Unexpected token in JSON: " ++ raw)), w2)
    | None => replace_installation this downinfo w2
    end = replace_installation this downinfo w2).
  { destruct (record_of w) as [[localinfo|raw]|] eqn:Hrec; [| |reflexivity].
    - now rewrite (Hdiffers localinfo eq_refl).
    - now elim (Hgarbage raw). }
  rewrite Hinstall. clear Hinstall.
  assert (H2 : exists i d ar,
    storage w2 = Some {| downloadinfo := i; server := d; server_archive := ar |}
    /\ i = record_of w /\ d = install_dir w
    /\ rimraf_errors w2 = [] /\ clock w2 = clock w
    /\ artifacts w2 = artifacts w).
  { subst w2. unfold record_of, install_dir.
    destruct (provider_repo this), w as [[[i d ar]|] ? ? ? ? ? ? ? ?];
      cbn in *; subst; eexists _, _, _; repeat split. }
  destruct H2 as (i & d & ar & Hst & -> & -> & Herrs2 & Hclock & Hart).
  destruct (replace_installation_run this downinfo w2 Hst Herrs2)
    as (w' & Hrun & Hclock' & Hstorage).
  cbv zeta in Hrun, Hstorage. rewrite Hart, Hclock in *.
  rewrite (resolved_time _ _ Hres) in Hstorage.
  exists w'. split; [exact Hrun|]. split; [congruence|].
  unfold record_of at 1, install_dir at 1, existsSync.
  rewrite resolve_archive. unfold node_exists. rewrite Hstorage.
  subst kept written extraction blocked. cbv beta.
  destruct (artifacts w (url downinfo)) as [e|a]; [now cbn|].
  generalize
    (match languageServerArchiver this with
     | gzip => negb (parent_exists (executable (languageServerPackage this)) [])
     | _ => false
     end).
  intros [|]; [now cbn|].
  now destruct (defect a).
Qed.

(** An install directory without files has the directory of a file name
    and no other. *)
Lemma parent_exists_nil rel :
  parent_exists rel [] = match dir_of rel with None => true | Some _ => false end.
Proof. unfold parent_exists. now destruct (dir_of rel). Qed.

Lemma file_name_dir_of s : file_name s = true -> dir_of s = None.
Proof. unfold file_name. now destruct (dir_of s). Qed.

Lemma gzip_not_blocked :
  (languageServerArchiver this = gzip ->
   file_name (executable (languageServerPackage this)) = true) ->
  match languageServerArchiver this with
  | gzip => negb (parent_exists (executable (languageServerPackage this)) [])
  | _ => false
  end = false.
Proof.
  intros Hname. destruct (languageServerArchiver this); try reflexivity.
  now rewrite parent_exists_nil, (file_name_dir_of _ (Hname eq_refl)).
Qed.

Lemma dir_of_join sub base :
  dir_of base = None -> dir_of (sub ++ "/" ++ base) = Some sub.
Proof.
  intros Hbase. induction sub as [|c sub IH].
  - cbn. now rewrite Hbase.
  - cbn [append dir_of]. cbn [append] in IH. now rewrite IH.
Qed.

End ReplacementOutcomes.

(** When the stored record is missing or differs from the resolved release,
    every deletion succeeds, and the artifact downloads and unpacks,
    [downloadLanguageServer] returns with the install directory holding
    exactly what the archive unpacks to (for [gzip], the executable), the
    archive file deleted, and the resolved release as the stored record.
    For [gzip] this needs an executable that is a file name, directly in
    the install directory: nothing makes a directory below it. *)
Theorem downloadLanguageServer_replaces (this : LanguageServerProvider)
    (w : World) (downinfo : IDownloadInfo) (a : Archive) :
  fst (fetchDownloadInfo this w) = Returned downinfo ->
  (forall raw, record_of w <> Some (Garbage raw)) ->
  (forall localinfo,
     record_of w = Some (JsonText localinfo) ->
     (id localinfo =? id downinfo)
     && String.eqb (version localinfo) (version downinfo) = false) ->
  rimraf_errors w = [] ->
  artifacts w (url downinfo) = inr a ->
  defect a = None ->
  (languageServerArchiver this = gzip ->
   file_name (executable (languageServerPackage this)) = true) ->
  fst (downloadLanguageServer this w) = Returned tt
  /\ record_of (snd (downloadLanguageServer this w)) = Some (JsonText downinfo)
  /\ install_dir (snd (downloadLanguageServer this w))
     = Some match languageServerArchiver this with
            | gzip => [executable (languageServerPackage this)]
            | _ => entries a
            end
  /\ existsSync this (languageServerArchive this)
       (snd (downloadLanguageServer this w)) = false.
Proof.
  rewrite fetchDownloadInfo_resolved. cbn [fst].
  intros Hres Hgarbage Hdiffers Herrs Hart Hdefect Hname.
  destruct (download_replacement this w Hres Hgarbage Hdiffers Herrs)
    as (w' & Hrun & _ & Hrec & Hdir & Harchive).
  cbv zeta in Hrun, Hrec, Hdir, Harchive.
  rewrite (gzip_not_blocked this Hname) in *.
  rewrite Hart, Hdefect in *. rewrite Hrun. cbn [fst snd]. auto.
Qed.

Lemma downloadLanguageServer_replaces_witness :
  let this :=
    {| extensionStoragePath := "/data"; languageServerName := "tool";
       languageServerPackage :=
         {| executable := "tool";
            platformFilename := Literal "tool-linux-x64.tar.gz";
            archiver := Some gzip |};
       provider_repo := Sample.releases |} in
  let w := Sample.world (Sample.installed 41 "v1.1")
             (Sample.release 42 "v1.2") Sample.good_archive [] in
  fst (downloadLanguageServer this w) = Returned tt
  /\ record_of (snd (downloadLanguageServer this w))
     = Some (JsonText {| url := "https://example.org/linux"; version := "v1.2";
                         id := 42; downloadedTime := 5000 |})
  /\ install_dir (snd (downloadLanguageServer this w)) = Some ["tool"]
  /\ existsSync this (languageServerArchive this)
       (snd (downloadLanguageServer this w)) = false.
Proof.
  intros this w.
  apply (@downloadLanguageServer_replaces this w
           {| url := "https://example.org/linux"; version := "v1.2";
              id := 42; downloadedTime := 5000 |} Sample.good_archive);
    try reflexivity.
  - intros raw. discriminate.
  - intros localinfo [= <-]. reflexivity.
Defined.

(** When the stored record is missing or differs from the resolved release
    and every deletion succeeds, a failing request for the artifact makes
    [downloadLanguageServer] throw the error of the request, after the old
    installation was removed: the install directory is left empty, and the
    state file is gone if there was an install directory. *)
Theorem downloadLanguageServer_artifact_failure (this : LanguageServerProvider)
    (w : World) (downinfo : IDownloadInfo) (e : Thrown) :
  fst (fetchDownloadInfo this w) = Returned downinfo ->
  (forall raw, record_of w <> Some (Garbage raw)) ->
  (forall localinfo,
     record_of w = Some (JsonText localinfo) ->
     (id localinfo =? id downinfo)
     && String.eqb (version localinfo) (version downinfo) = false) ->
  rimraf_errors w = [] ->
  artifacts w (url downinfo) = inl e ->
  fst (downloadLanguageServer this w) = Threw e
  /\ install_dir (snd (downloadLanguageServer this w)) = Some []
  /\ record_of (snd (downloadLanguageServer this w))
     = if is_some (install_dir w) then None else record_of w.
Proof.
  rewrite fetchDownloadInfo_resolved. cbn [fst].
  intros Hres Hgarbage Hdiffers Herrs Hart.
  destruct (download_replacement this w Hres Hgarbage Hdiffers Herrs)
    as (w' & Hrun & _ & Hrec & Hdir & _).
  rewrite Hart in *. rewrite Hrun. cbn [fst snd]. auto.
Qed.

Lemma downloadLanguageServer_artifact_failure_witness :
  let this := Sample.provider_of Sample.releases in
  let w := Sample.world (Sample.installed 41 "v1.1")
             {| assets := [ {| asset_name := "tool-linux-x64.tar.gz";
                               browser_download_url := "https://example.org/gone" |} ];
                name := "v1.2"; release_id := 42 |}
             Sample.good_archive [] in
  fst (downloadLanguageServer this w) = Threw (Error "Invalid response: 404")
  /\ install_dir (snd (downloadLanguageServer this w)) = Some []
  /\ record_of (snd (downloadLanguageServer this w)) = None.
Proof.
  intros this w.
  apply (@downloadLanguageServer_artifact_failure this w
           {| url := "https://example.org/gone"; version := "v1.2";
              id := 42; downloadedTime := 5000 |});
    try reflexivity.
  - intros raw. discriminate.
  - intros localinfo [= <-]. reflexivity.
Defined.

(** In the same situation, an archive that downloads but fails to unpack
    makes [downloadLanguageServer] throw the error of the extraction; the
    install directory holds what was written before the error, the archive
    file stays, and the state file is not written.  For [gzip] the
    executable is again a file name, so that its write stream opens. *)
Theorem downloadLanguageServer_extraction_failure
    (this : LanguageServerProvider) (w : World) (downinfo : IDownloadInfo)
    (a : Archive) (e : Thrown) :
  fst (fetchDownloadInfo this w) = Returned downinfo ->
  (forall raw, record_of w <> Some (Garbage raw)) ->
  (forall localinfo,
     record_of w = Some (JsonText localinfo) ->
     (id localinfo =? id downinfo)
     && String.eqb (version localinfo) (version downinfo) = false) ->
  rimraf_errors w = [] ->
  artifacts w (url downinfo) = inr a ->
  defect a = Some e ->
  (languageServerArchiver this = gzip ->
   file_name (executable (languageServerPackage this)) = true) ->
  fst (downloadLanguageServer this w) = Threw e
  /\ install_dir (snd (downloadLanguageServer this w))
     = Some match languageServerArchiver this with
            | gzip => [executable (languageServerPackage this)]
            | _ => entries a
            end
  /\ existsSync this (languageServerArchive this)
       (snd (downloadLanguageServer this w)) = true
  /\ record_of (snd (downloadLanguageServer this w))
     = if is_some (install_dir w) then None else record_of w.
Proof.
  rewrite fetchDownloadInfo_resolved. cbn [fst].
  intros Hres Hgarbage Hdiffers Herrs Hart Hdefect Hname.
  destruct (download_replacement this w Hres Hgarbage Hdiffers Herrs)
    as (w' & Hrun & _ & Hrec & Hdir & Harchive).
  cbv zeta in Hrun, Hrec, Hdir, Harchive.
  rewrite (gzip_not_blocked this Hname) in *.
  rewrite Hart, Hdefect in *. rewrite Hrun. cbn [fst snd]. auto.
Qed.

Lemma downloadLanguageServer_extraction_failure_witness :
  let this :=
    {| extensionStoragePath := "/data"; languageServerName := "tool";
       languageServerPackage :=
         {| executable := "tool"; platformFilename := Literal "tool.gz";
            archiver := Some gzip |};
       provider_repo := url_prefix "https://example.org/linux" |} in
  let w := {| storage := None; elsewhere := []; clock := 5000;
              rimraf_errors := [];
              api := fun _ => inl (Error "offline");
              artifacts := fun _ => inr Sample.bad_archive;
              user := fun _ => true; client_running := false; trace := [] |} in
  fst (downloadLanguageServer this w) = Threw (Error "unexpected end of file")
  /\ install_dir (snd (downloadLanguageServer this w)) = Some ["tool"]
  /\ existsSync this (languageServerArchive this)
       (snd (downloadLanguageServer this w)) = true
  /\ record_of (snd (downloadLanguageServer this w)) = None.
Proof.
  intros this w.
  apply (@downloadLanguageServer_extraction_failure this w
           {| url := "https://example.org/linux/tool.gz";
              version := ""; id := 0; downloadedTime := 5000 |}
           Sample.bad_archive);
    try reflexivity.
  - intros raw. discriminate.
  - intros localinfo. discriminate.
Defined.

(** With the [gzip] archiver and an executable in a subdirectory of the
    install directory, a replacement can not complete: nothing makes the
    subdirectory, so the write stream of the executable fails with
    [ENOENT] although the archive downloads and is sound.  The install
    directory is left empty, the downloaded archive stays, and no record is
    written. *)
Theorem downloadLanguageServer_gzip_subdirectory
    (this : LanguageServerProvider) (w : World) (downinfo : IDownloadInfo)
    (a : Archive) (sub base : string) :
  languageServerArchiver this = gzip ->
  executable (languageServerPackage this) = sub ++ "/" ++ base ->
  file_name sub = true ->
  file_name base = true ->
  fst (fetchDownloadInfo this w) = Returned downinfo ->
  (forall raw, record_of w <> Some (Garbage raw)) ->
  (forall localinfo,
     record_of w = Some (JsonText localinfo) ->
     (id localinfo =? id downinfo)
     && String.eqb (version localinfo) (version downinfo) = false) ->
  rimraf_errors w = [] ->
  artifacts w (url downinfo) = inr a ->
  defect a = None ->
  fst (downloadLanguageServer this w) = Threw (SystemError "ENOENT")
  /\ install_dir (snd (downloadLanguageServer this w)) = Some []
  /\ existsSync this (languageServerArchive this)
       (snd (downloadLanguageServer this w)) = true
  /\ record_of (snd (downloadLanguageServer this w))
     = if is_some (install_dir w) then None else record_of w.
Proof.
  rewrite fetchDownloadInfo_resolved. cbn [fst].
  intros Hgzip Hexe _ Hbase Hres Hgarbage Hdiffers Herrs Hart _.
  destruct (download_replacement this w Hres Hgarbage Hdiffers Herrs)
    as (w' & Hrun & _ & Hrec & Hdir & Harchive).
  cbv zeta in Hrun, Hrec, Hdir, Harchive.
  pose proof (@dir_of_join sub base (@file_name_dir_of base Hbase)) as Hsub.
  rewrite Hgzip, parent_exists_nil, Hexe, Hsub in *.
  cbn [negb] in *.
  rewrite Hart in *. rewrite Hrun. cbn [fst snd]. auto.
Qed.

Lemma downloadLanguageServer_gzip_subdirectory_witness :
  let this :=
    {| extensionStoragePath := "/data"; languageServerName := "tool";
       languageServerPackage :=
         {| executable := "bin/tool"; platformFilename := Literal "tool.gz";
            archiver := Some gzip |};
       provider_repo := url_prefix "https://example.org/linux" |} in
  let w := {| storage := None; elsewhere := []; clock := 5000;
              rimraf_errors := [];
              api := fun _ => inl (Error "offline");
              artifacts := fun _ => inr Sample.good_archive;
              user := fun _ => true; client_running := false; trace := [] |} in
  fst (downloadLanguageServer this w) = Threw (SystemError "ENOENT")
  /\ install_dir (snd (downloadLanguageServer this w)) = Some []
  /\ existsSync this (languageServerArchive this)
       (snd (downloadLanguageServer this w)) = true
  /\ record_of (snd (downloadLanguageServer this w)) = None.
Proof.
  intros this w.
  apply (@downloadLanguageServer_gzip_subdirectory this w
           {| url := "https://example.org/linux/tool.gz";
              version := ""; id := 0; downloadedTime := 5000 |}
           Sample.good_archive "bin" "tool");
    try reflexivity.
  - intros raw. discriminate.
  - intros localinfo. discriminate.
Defined.

(** ** [ensureInstalled], case by case *)

Section EnsureInstalledFacts.

Variable this : ServerInstaller.

Lemma not_confirmed_value ask message w :
  not_confirmed ask message w
  = if ask then (Returned (negb (user w message)),
                 add_event (Prompt message (user w message)) w)
    else (Returned true, w).
Proof. now destruct ask. Qed.

(** [ensureInstalled] once the server was not found and no custom path is
    set. *)
Lemma ensureInstalled_not_found ask doInstall w :
  fst (checkInstalled this w) = Returned false ->
  isCustomPath this = false ->
  let message :=
    serverName this ++ " is not found. Download from "
    ++ match repo this with
       | github _ _ => "GitHub Release"
       | url_prefix u => u
       end ++ "?" in
  ensureInstalled this ask doInstall w
  = if negb doInstall then
      (Returned (NotAvailable (Str "doInstall is not set")), w)
    else if negb ask then
      (Returned (NotAvailable (Str "Cancelled by user")), w)
    else if negb (user w message) then
      (Returned (NotAvailable (Str "Cancelled by user")),
       add_event (Prompt message false) w)
    else
      try_catch
        (install this ;;
         version <- getLanguageServerVersion (provider this) ;;
         p <- path this ;;
         ret (Installed p version))
        (fun err =>
           window_showErrorMessage
             ("Failed to download " ++ serverName this ++ ": "
              ++ Thrown_toString err) ;;
           ret (NotAvailable err))
        (add_event (Prompt message true) w).
Proof.
  intros Hnot Hcustom message. unfold ensureInstalled.
  rewrite bind_run. rewrite checkInstalled_value in *. cbn [fst] in Hnot.
  injection Hnot as ->. cbv beta iota.
  unfold isCustomPath in Hcustom. rewrite Hcustom.
  destruct doInstall; [|reflexivity]. cbn [negb]. cbv zeta.
  fold message. rewrite bind_run, not_confirmed_value.
  destruct ask; [|reflexivity]. cbn [negb].
  now destruct (user w message).
Qed.

End EnsureInstalledFacts.


(** With a custom path set and nothing at that path, [ensureInstalled]
    reports that the server is not found there and does nothing else,
    whatever [ask] and [doInstall] say: it never installs at a custom
    path. *)
Theorem ensureInstalled_custom_path_missing (this : ServerInstaller)
    (ask doInstall : bool) (w : World) (custom : string) :
  customPath this = Some custom ->
  isCustomPath this = true ->
  existsSync (provider this) custom w = false ->
  ensureInstalled this ask doInstall w
  = (Returned
       (NotAvailable
          (Str ("Custom server path (" ++ custom
                ++ ") is specified, but the server is not found"))), w).
Proof.
  unfold isCustomPath. intros Hcustom Htruthy Hmissing.
  unfold ensureInstalled. rewrite bind_run, checkInstalled_value.
  rewrite Hcustom in *. rewrite Htruthy, Hmissing. reflexivity.
Qed.

Lemma ensureInstalled_custom_path_missing_witness :
  let this := Sample.installer_of Sample.releases (Some "/usr/bin/tool") in
  let w := Sample.world (Sample.installed 41 "v1.1")
             (Sample.release 42 "v1.2") Sample.good_archive [] in
  ensureInstalled this true true w
  = (Returned
       (NotAvailable
          (Str "Custom server path (/usr/bin/tool) is specified, but the server is not found")),
     w).
Proof.
  intros this w.
  apply (@ensureInstalled_custom_path_missing this true true w "/usr/bin/tool");
    reflexivity.
Defined.

(** When the server is not found, no custom path is set, and either
    [doInstall] is false or [ask] is true and the user declines the prompt,
    [ensureInstalled] reports why and changes nothing on disk; the only
    event is the prompt, and with [doInstall] false there is none. *)
Theorem ensureInstalled_not_confirmed (this : ServerInstaller)
    (ask doInstall : bool) (w : World) :
  fst (checkInstalled this w) = Returned false ->
  isCustomPath this = false ->
  doInstall = false
  \/ (ask = true /\ forall message, user w message = false) ->
  exists message,
    ensureInstalled this ask doInstall w
    = (Returned
         (NotAvailable
            (Str (if doInstall then "Cancelled by user"
                  else "doInstall is not set"))),
       if doInstall then add_event (Prompt message false) w else w).
Proof.
  intros Hnot Hcustom Hwhy.
  rewrite (ensureInstalled_not_found this ask doInstall w Hnot Hcustom).
  cbv zeta. eexists.
  destruct doInstall; cbn [negb]; [|reflexivity].
  destruct Hwhy as [|[-> Hdeclines]]; [discriminate|].
  cbn [negb]. rewrite Hdeclines. reflexivity.
Qed.

Lemma ensureInstalled_not_confirmed_witness :
  let this := Sample.installer_of Sample.releases None in
  let w := {| storage := None; elsewhere := []; clock := 5000;
              rimraf_errors := [];
              api := fun _ => inr (Sample.release 42 "v1.2");
              artifacts := fun _ => inr Sample.good_archive;
              user := fun _ => false; client_running := true; trace := [] |} in
  exists message,
    ensureInstalled this true true w
    = (Returned (NotAvailable (Str "Cancelled by user")),
       add_event (Prompt message false) w).
Proof.
  intros this w.
  apply (@ensureInstalled_not_confirmed this true true w);
    [reflexivity | reflexivity | right; split; reflexivity].
Defined.

Section EnsureInstalledOutcomes.

Variable this : ServerInstaller.

Lemma ensureInstalled_outcome ask doInstall w r w' :
  ensureInstalled this ask doInstall w = (Returned r, w') ->
  match r with
  | Installed p v =>
      fst (path this w') = Returned p
      /\ (exists inf,
            record_of w' = Some (JsonText inf) /\ v = Some (version inf))
      /\ ask = true /\ doInstall = true
  | Skipped p => w' = w /\ fst (path this w) = Returned p
  | NotAvailable e => True
  end.
Proof.
  unfold ensureInstalled. rewrite bind_run, checkInstalled_value.
  set (b := if truthy (customPath this) then _ else _).
  cbv beta iota. destruct b eqn:Hb; cbv beta iota.
  { rewrite bind_run, (path_value this w). cbv beta iota.
    cbn [ret Monad_Js Js_ret]. now intros [= <- <-]. }
  destruct (truthy (customPath this)) eqn:Hcustom.
  { cbn [ret Monad_Js Js_ret]. now intros [= <- <-]. }
  destruct doInstall; cbn [negb]; cbv beta iota.
  2: { cbn [ret Monad_Js Js_ret]. now intros [= <- <-]. }
  cbv zeta. rewrite bind_run, not_confirmed_value.
  destruct ask; cbv beta iota.
  2: { cbn [ret Monad_Js Js_ret]. now intros [= <- <-]. }
  destruct (user w _); cbn [negb]; cbv beta iota.
  2: { cbn [ret Monad_Js Js_ret]. now intros [= <- <-]. }
  rewrite try_catch_run, bind_run.
  match goal with
  | |- context [install this ?x] => set (w1 := x)
  end.
  destruct (install this w1) as [[[]|e|] w2] eqn:Hinstall; cbv beta iota.
  - assert (Hrun : fst (downloadLanguageServer (provider this) w1) = Returned tt)
      by (unfold install in Hinstall; now rewrite Hinstall).
    destruct (download_success (provider this) w1 Hrun)
      as (downinfo & inf & _ & Hrec & _).
    unfold install in Hinstall. rewrite Hinstall in Hrec. cbn [snd] in Hrec.
    rewrite bind_run, getLanguageServerVersion_value, Hrec. cbv beta iota.
    rewrite bind_run, (path_value this w2). cbv beta iota.
    cbn [ret Monad_Js Js_ret].
    intros [= <- <-]. rewrite (path_value this w2). cbn [fst]. eauto 10.
  - unfold window_showErrorMessage, emit, modify.
    rewrite bind_run. cbv beta iota. cbn [ret Monad_Js Js_ret].
    now intros [= <- <-].
  - discriminate.
Qed.

End EnsureInstalledOutcomes.

(** When [ensureInstalled] reports [installed: true], [doInstall] was true,
    the version it reports is the version of the record in the state file,
    and the path it reports is what [path] gives afterwards, which is
    [undefined] when the archive did not bring the executable. *)
Theorem ensureInstalled_installed_result (this : ServerInstaller)
    (ask doInstall : bool) (w : World) (p v : option string) :
  fst (ensureInstalled this ask doInstall w) = Returned (Installed p v) ->
  doInstall = true
  /\ fst (path this (snd (ensureInstalled this ask doInstall w))) = Returned p
  /\ exists inf,
       record_of (snd (ensureInstalled this ask doInstall w))
       = Some (JsonText inf)
       /\ v = Some (version inf).
Proof.
  destruct (ensureInstalled this ask doInstall w) as [r w'] eqn:Hrun.
  cbn [fst snd]. intros ->.
  apply ensureInstalled_outcome in Hrun. tauto.
Qed.

Lemma ensureInstalled_installed_result_witness :
  let this := Sample.installer_of Sample.releases None in
  let w := Sample.world None (Sample.release 42 "v1.2") Sample.good_archive [] in
  true = true
  /\ fst (path this (snd (ensureInstalled this true true w)))
     = Returned (Some "/data/server/bin/tool")
  /\ exists inf,
       record_of (snd (ensureInstalled this true true w)) = Some (JsonText inf)
       /\ Some "v1.2" = Some (version inf).
Proof.
  intros this w.
  apply (@ensureInstalled_installed_result this true true w
           (Some "/data/server/bin/tool") (Some "v1.2")).
  reflexivity.
Defined.

(** When the user accepts the prompt and the install throws,
    [ensureInstalled] shows the error and returns it in its result. *)
Theorem ensureInstalled_reports_failure (this : ServerInstaller) (w w' : World)
    (e : Thrown) :
  let message :=
    serverName this ++ " is not found. Download from "
    ++ match repo this with
       | github _ _ => "GitHub Release"
       | url_prefix u => u
       end ++ "?" in
  fst (checkInstalled this w) = Returned false ->
  isCustomPath this = false ->
  user w message = true ->
  install this (add_event (Prompt message true) w) = (Threw e, w') ->
  ensureInstalled this true true w
  = (Returned (NotAvailable e),
     add_event
       (ErrorMessage
          ("Failed to download " ++ serverName this ++ ": "
           ++ Thrown_toString e)) w').
Proof.
  intros message Hnot Hcustom Haccepts Hinstall.
  rewrite (ensureInstalled_not_found this true true w Hnot Hcustom).
  cbv zeta. fold message. cbn [negb]. rewrite Haccepts. cbn [negb].
  rewrite try_catch_run, bind_run, Hinstall. reflexivity.
Qed.

Lemma ensureInstalled_reports_failure_witness :
  let this := Sample.installer_of Sample.mirror None in
  let w := Sample.world None (Sample.release 42 "v1.2") Sample.bad_archive [] in
  let message := "tool is not found. Download from https://example.org/dl?" in
  ensureInstalled this true true w
  = (Returned (NotAvailable (Error "unexpected end of file")),
     add_event
       (ErrorMessage "Failed to download tool: Error: unexpected end of file")
       (snd (install this (add_event (Prompt message true) w)))).
Proof.
  intros this w message.
  apply (@ensureInstalled_reports_failure this w
           (snd (install this (add_event (Prompt message true) w)))
           (Error "unexpected end of file"));
    vm_compute; reflexivity.
Defined.

(** ** [ensureUpdated], case by case *)

Section EnsureUpdatedFacts.

Variable this : ServerInstaller.

(** [checkVersion] without a custom path, by the state file and by what
    [fetchDownloadInfo] resolves. *)
Lemma checkVersion_value w :
  isCustomPath this = false ->
  checkVersion this w
  = match record_of w with
    | None => (Returned notInstalled, w)
    | Some (Garbage raw) =>
        (Threw (SyntaxError ("Unexpected token in JSON: " ++ raw)), w)
    | Some (JsonText localinfo) =>
        (match resolved (provider this) (api w) (clock w) with
         | Returned downinfo =>
             Returned
               (if String.eqb (version localinfo) (version downinfo)
                then same (version localinfo)
                else different (version localinfo) (version downinfo))
         | Threw e => Threw e
         | OutOfFuel => OutOfFuel
         end, snd (fetchDownloadInfo (provider this) w))
    end.
Proof.
  unfold isCustomPath, checkVersion. cbv zeta. intros ->.
  rewrite bind_run, loadLocalDownloadInfo_run.
  destruct (record_of w) as [[localinfo|raw]|]; try reflexivity.
  cbv beta iota. cbn [option_map]. rewrite bind_run.
  rewrite fetchDownloadInfo_resolved. cbn [snd].
  destruct (resolved (provider this) (api w) (clock w)) as [downinfo|e|];
    try reflexivity.
  cbv beta iota.
  now destruct (String.eqb (version localinfo) (version downinfo)).
Qed.

(** [ensureUpdated] after its [checkVersion]. *)
Lemma ensureUpdated_check_threw ask doInstall showMessage rc w e w1 :
  checkVersion this w = (Threw e, w1) ->
  ensureUpdated this ask doInstall showMessage rc w
  = (Returned (OutdatedSkipped None e),
     add_event
       (ErrorMessage ("Failed to fetch latest version: " ++ Thrown_toString e))
       w1).
Proof.
  intros Hcheck. unfold ensureUpdated, ensureUpdated_check.
  now rewrite bind_run, try_catch_run, bind_run, Hcheck.
Qed.

Lemma ensureUpdated_check_same ask doInstall showMessage rc w v w1 :
  checkVersion this w = (Returned (same v), w1) ->
  ensureUpdated this ask doInstall showMessage rc w
  = (Returned StatusUpToDate,
     if showMessage
     then add_event
            (InformationMessage ("Your " ++ serverName this ++ " is up to date."))
            w1
     else w1).
Proof.
  intros Hcheck. unfold ensureUpdated, ensureUpdated_check.
  rewrite bind_run, try_catch_run, bind_run, Hcheck.
  now destruct showMessage.
Qed.

Lemma ensureUpdated_check_different ask doInstall showMessage rc w cur latest w1 :
  checkVersion this w = (Returned (different cur latest), w1) ->
  let versions :=
    {| oldVersion := Some cur; newVersion := Some latest |} in
  let message :=
    serverName this ++ " has a new release: " ++ latest
    ++ " (current: " ++ cur ++ ")" in
  ensureUpdated this ask doInstall showMessage rc w
  = if negb doInstall then
      (Returned (OutdatedSkipped (Some versions) (Str "doInstall is not set")),
       w1)
    else if negb ask then
      (Returned (OutdatedSkipped (Some versions) (Str "Cancelled by user")), w1)
    else if negb (user w1 message) then
      (Returned (OutdatedSkipped (Some versions) (Str "Cancelled by user")),
       add_event (Prompt message false) w1)
    else
      (stop_if_needed rc ;;
       failed <-
         try_catch
           (install this ;; ret None)
           (fun err =>
              window_showErrorMessage
                ("Failed to upgrade " ++ serverName this ++ ": "
                 ++ Thrown_toString err) ;;
              start_if_any rc ;;
              ret (Some (OutdatedSkipped (Some versions) err))) ;;
       match failed with
       | Some result => ret result
       | None => start_if_any rc ;; ret (OutdatedUpdated versions)
       end) (add_event (Prompt message true) w1).
Proof.
  intros Hcheck versions message. unfold ensureUpdated, ensureUpdated_check.
  rewrite bind_run, try_catch_run, bind_run, Hcheck. cbv beta iota.
  cbn [ret Monad_Js Js_ret]. cbv beta iota zeta.
  fold versions message.
  destruct doInstall; [|reflexivity]. cbn [negb].
  rewrite bind_run, not_confirmed_value.
  destruct ask; [|reflexivity]. cbn [negb]. cbv beta iota.
  now destruct (user w1 message).
Qed.

End EnsureUpdatedFacts.

Lemma looked_checkVersion (this : ServerInstaller) :
  safe (looked dialogue_event) (checkVersion this).
Proof.
  unfold checkVersion. look_safe;
    first [ apply looked_loadLocalDownloadInfo
          | apply looked_fetchDownloadInfo ].
Qed.

(** With a custom path set, [ensureUpdated] answers [customPath] and does
    nothing: no request, no prompt, and the client is neither stopped nor
    started. *)
Theorem ensureUpdated_custom_path (this : ServerInstaller)
    (ask doInstall showMessage : bool) (rc : option LanguageClient)
    (w : World) :
  isCustomPath this = true ->
  ensureUpdated this ask doInstall showMessage rc w
  = (Returned StatusCustomPath, w).
Proof.
  unfold isCustomPath, ensureUpdated, ensureUpdated_check, checkVersion.
  cbv zeta. now intros ->.
Qed.

Lemma ensureUpdated_custom_path_witness :
  let this := Sample.installer_of Sample.releases (Some "/opt/tool/bin/tool") in
  let w := Sample.world None (Sample.release 42 "v1.2") Sample.good_archive [] in
  ensureUpdated this true true true (Some TheClient) w
  = (Returned StatusCustomPath, w).
Proof.
  intros this w.
  apply (@ensureUpdated_custom_path this true true true (Some TheClient) w).
  reflexivity.
Defined.

(** When the stored version is the version that [fetchDownloadInfo]
    resolves, [ensureUpdated] answers [upToDate] whatever [ask] and
    [doInstall] say; it shows the notice exactly when [showMessage] is
    true, and besides the request for the release it does nothing. *)
Theorem ensureUpdated_up_to_date (this : ServerInstaller)
    (ask doInstall showMessage : bool) (rc : option LanguageClient)
    (w : World) (localinfo downinfo : IDownloadInfo) :
  isCustomPath this = false ->
  record_of w = Some (JsonText localinfo) ->
  fst (fetchDownloadInfo (provider this) w) = Returned downinfo ->
  version localinfo = version downinfo ->
  ensureUpdated this ask doInstall showMessage rc w
  = (Returned StatusUpToDate,
     if showMessage
     then add_event
            (InformationMessage ("Your " ++ serverName this ++ " is up to date."))
            (snd (fetchDownloadInfo (provider this) w))
     else snd (fetchDownloadInfo (provider this) w)).
Proof.
  intros Hcustom Hrecord Hfetch Hversion.
  apply ensureUpdated_check_same with (v := version localinfo).
  rewrite (checkVersion_value this w Hcustom), Hrecord.
  rewrite fetchDownloadInfo_resolved in Hfetch. cbn [fst] in Hfetch.
  now rewrite Hfetch, Hversion, String.eqb_refl.
Qed.

Lemma ensureUpdated_up_to_date_witness :
  let this := Sample.installer_of Sample.releases None in
  let w := Sample.world (Sample.installed 41 "v1.2")
             (Sample.release 42 "v1.2") Sample.good_archive [] in
  ensureUpdated this true true true (Some TheClient) w
  = (Returned StatusUpToDate,
     add_event (InformationMessage "Your tool is up to date.")
       (add_event
          (HttpsGetJson "https://api.github.com/repos/owner/tool/releases/latest")
          w)).
Proof.
  intros this w.
  apply (@ensureUpdated_up_to_date this true true true (Some TheClient) w
           (Sample.record 41 "v1.2")
           {| url := "https://example.org/linux"; version := "v1.2";
              id := 42; downloadedTime := 5000 |});
    reflexivity.
Defined.

(** When the stored version differs from the resolved one and either
    [doInstall] is false or [ask] is true and the user declines,
    [ensureUpdated] returns both
    versions and the reason, ["doInstall is not set"] or
    ["Cancelled by user"]; nothing on disk changes and the client is left
    alone.  With [doInstall] false the user is not asked. *)
Theorem ensureUpdated_outdated_skipped (this : ServerInstaller)
    (ask doInstall showMessage : bool) (rc : option LanguageClient)
    (w : World) (localinfo downinfo : IDownloadInfo) :
  isCustomPath this = false ->
  record_of w = Some (JsonText localinfo) ->
  fst (fetchDownloadInfo (provider this) w) = Returned downinfo ->
  version localinfo <> version downinfo ->
  doInstall = false
  \/ (ask = true /\ forall message, user w message = false) ->
  exists message,
    ensureUpdated this ask doInstall showMessage rc w
    = (Returned
         (OutdatedSkipped
            (Some {| oldVersion := Some (version localinfo);
                     newVersion := Some (version downinfo) |})
            (Str (if doInstall then "Cancelled by user"
                  else "doInstall is not set"))),
       if doInstall
       then add_event (Prompt message false)
              (snd (fetchDownloadInfo (provider this) w))
       else snd (fetchDownloadInfo (provider this) w)).
Proof.
  intros Hcustom Hrecord Hfetch Hversion Hwhy.
  assert (Hcheck :
    checkVersion this w
    = (Returned (different (version localinfo) (version downinfo)),
       snd (fetchDownloadInfo (provider this) w))).
  { rewrite (checkVersion_value this w Hcustom), Hrecord.
    rewrite fetchDownloadInfo_resolved in Hfetch. cbn [fst] in Hfetch.
    rewrite Hfetch. apply String.eqb_neq in Hversion. now rewrite Hversion. }
  rewrite (ensureUpdated_check_different this ask doInstall showMessage rc w
             Hcheck).
  cbv zeta. eexists.
  destruct doInstall; cbn [negb]; [|reflexivity].
  destruct Hwhy as [|[-> Hdeclines]]; [discriminate|].
  cbn [negb].
  assert (Huser : forall m,
            user (snd (fetchDownloadInfo (provider this) w)) m = false).
  { intros m. rewrite fetchDownloadInfo_resolved. cbn [snd].
    destruct (provider_repo (provider this)); apply Hdeclines. }
  rewrite Huser. reflexivity.
Qed.

Lemma ensureUpdated_outdated_skipped_witness :
  let this := Sample.installer_of Sample.releases None in
  let w := Sample.world (Sample.installed 41 "v1.1")
             (Sample.release 42 "v1.2") Sample.good_archive [] in
  exists message : string,
    ensureUpdated this true false true (Some TheClient) w
    = (Returned
         (OutdatedSkipped
            (Some {| oldVersion := Some "v1.1"; newVersion := Some "v1.2" |})
            (Str "doInstall is not set")),
       add_event
         (HttpsGetJson "https://api.github.com/repos/owner/tool/releases/latest")
         w).
Proof.
  intros this w.
  apply (@ensureUpdated_outdated_skipped this true false true (Some TheClient) w
           (Sample.record 41 "v1.1")
           {| url := "https://example.org/linux"; version := "v1.2";
              id := 42; downloadedTime := 5000 |});
    try reflexivity.
  - discriminate.
  - now left.
Defined.

(** When [checkVersion] throws, because the release cannot be resolved or
    because the state file does not parse, [ensureUpdated] shows the error
    and returns it in its result; nothing on disk has changed and the client
    is left alone. *)
Theorem ensureUpdated_check_failure (this : ServerInstaller)
    (ask doInstall showMessage : bool) (rc : option LanguageClient)
    (w : World) (e : Thrown) :
  fst (checkVersion this w) = Threw e ->
  exists evs,
    forallb dialogue_event evs = true
    /\ ensureUpdated this ask doInstall showMessage rc w
       = (Returned (OutdatedSkipped None e),
          set_trace
            (trace w ++ evs
             ++ [ErrorMessage
                   ("Failed to fetch latest version: " ++ Thrown_toString e)])
            w).
Proof.
  intros Hcheck.
  destruct (looked_checkVersion this w) as [(evs & Hevs & Hworld) _].
  destruct (checkVersion this w) as [r w1] eqn:Hrun. cbn [fst snd] in *.
  subst r w1. exists evs. split; [exact Hevs|].
  rewrite (ensureUpdated_check_threw this ask doInstall showMessage rc w Hrun).
  unfold add_event. cbn [trace set_trace]. now rewrite <- app_assoc.
Qed.

Lemma ensureUpdated_check_failure_witness :
  let this := Sample.installer_of (github "owner/tool" "42") None in
  let w := Sample.world (Sample.installed 41 "v1.1")
             (Sample.release 42 "v1.2") Sample.good_archive [] in
  exists evs,
    forallb dialogue_event evs = true
    /\ ensureUpdated this true true true (Some TheClient) w
       = (Returned (OutdatedSkipped None (Error "Bad response: 404")),
          set_trace
            (trace w ++ evs
             ++ [ErrorMessage
                   "Failed to fetch latest version: Error: Bad response: 404"])
            w).
Proof.
  intros this w.
  apply (@ensureUpdated_check_failure this true true true (Some TheClient) w
           (Error "Bad response: 404")).
  reflexivity.
Defined.

Section EnsureUpdatedOutcomes.

Variable this : ServerInstaller.

Lemma stop_if_needed_frame rc w :
  exists w',
    stop_if_needed rc w = (Returned tt, w')
    /\ api w' = api w /\ storage w' = storage w.
Proof.
  destruct rc as [c|]; cbn.
  - unfold Js_bind, needsStop. cbn. destruct (client_running w); cbn.
    + eexists; split; [reflexivity|]. split; reflexivity.
    + eexists; split; [reflexivity|]. split; reflexivity.
  - exists w. repeat split.
Qed.

Lemma start_if_any_frame rc w :
  exists w',
    start_if_any rc w = (Returned tt, w') /\ storage w' = storage w.
Proof.
  destruct rc as [c|]; cbn.
  - eexists; split; reflexivity.
  - exists w. split; reflexivity.
Qed.

Lemma ensureUpdated_updated ask doInstall showMessage rc w vs w' :
  ensureUpdated this ask doInstall showMessage rc w
  = (Returned (OutdatedUpdated vs), w') ->
  doInstall = true
  /\ match record_of w with
     | Some (JsonText localinfo) =>
         oldVersion vs = Some (version localinfo)
         /\ (exists downinfo,
               fst (fetchDownloadInfo (provider this) w) = Returned downinfo
               /\ newVersion vs = Some (version downinfo)
               /\ version downinfo <> version localinfo)
         /\ exists inf, record_of w' = Some (JsonText inf)
     | Some (Garbage _) => False
     | None =>
         oldVersion vs = None
         /\ exists inf,
              record_of w' = Some (JsonText inf)
              /\ newVersion vs = Some (version inf)
     end.
Proof.
  destruct (isCustomPath this) eqn:Hcustom.
  { unfold isCustomPath in Hcustom.
    unfold ensureUpdated, ensureUpdated_check, checkVersion. cbv zeta.
    rewrite Hcustom. discriminate. }
  pose proof (checkVersion_value this w Hcustom) as Hcheck.
  rewrite fetchDownloadInfo_resolved. cbn [fst].
  destruct (record_of w) as [[localinfo|raw]|] eqn:Hrecord.
  - (* a record is stored *)
    destruct (resolved (provider this) (api w) (clock w))
      as [downinfo|e|] eqn:Hres.
    + destruct (String.eqb (version localinfo) (version downinfo)) eqn:Hsame.
      { rewrite (ensureUpdated_check_same this ask doInstall showMessage rc w
                   Hcheck). discriminate. }
      rewrite (ensureUpdated_check_different this ask doInstall showMessage rc
                 w Hcheck).
      cbv zeta.
      destruct doInstall; cbn [negb]; [|discriminate].
      destruct ask; cbn [negb]; [|discriminate].
      destruct (user _ _); cbn [negb]; [|discriminate].
      match goal with
      | |- context [add_event (Prompt ?m true) ?x] =>
          set (wp := add_event (Prompt m true) x)
      end.
      rewrite bind_run.
      destruct (stop_if_needed_frame rc wp) as (w3 & -> & _ & _).
      cbv beta iota. rewrite bind_run, try_catch_run, bind_run.
      destruct (install this w3) as [[[]|e|] w4] eqn:Hinstall; cbv beta iota.
      * cbn [ret Monad_Js Js_ret]. cbv beta iota. rewrite bind_run.
        destruct (start_if_any_frame rc w4) as (w5 & -> & Hst5).
        cbv beta iota. cbn [ret Monad_Js Js_ret].
        intros [= <- <-]. cbn [oldVersion newVersion].
        split; [reflexivity|]. split; [reflexivity|]. split.
        { exists downinfo. split; [reflexivity|]. split; [reflexivity|].
          apply String.eqb_neq in Hsame. congruence. }
        assert (Hrun : fst (downloadLanguageServer (provider this) w3)
                       = Returned tt)
          by (unfold install in Hinstall; now rewrite Hinstall).
        destruct (download_success (provider this) w3 Hrun)
          as (d3 & inf & _ & Hrec & _).
        unfold install in Hinstall. rewrite Hinstall in Hrec. cbn [snd] in Hrec.
        exists inf. unfold record_of in *. now rewrite Hst5.
      * unfold window_showErrorMessage, emit, modify.
        rewrite bind_run. cbv beta iota. rewrite bind_run.
        match goal with
        | |- context [start_if_any rc ?x] =>
            destruct (start_if_any_frame rc x) as (w5 & -> & _)
        end.
        discriminate.
      * discriminate.
    + rewrite (ensureUpdated_check_threw this ask doInstall showMessage rc w
                 Hcheck). discriminate.
    + unfold ensureUpdated, ensureUpdated_check.
      rewrite bind_run, try_catch_run, bind_run, Hcheck. discriminate.
  - rewrite (ensureUpdated_check_threw this ask doInstall showMessage rc w
               Hcheck). discriminate.
  - (* no record: the server is installed *)
    unfold ensureUpdated, ensureUpdated_check.
    rewrite bind_run, try_catch_run, bind_run, Hcheck. cbv beta iota.
    rewrite bind_run.
    destruct (stop_if_needed_frame rc w) as (w2 & -> & _ & _).
    cbv beta iota. rewrite bind_run.
    destruct (ensureInstalled this ask doInstall w2) as [[ir|e|] w3] eqn:Hir;
      cbv beta iota; [| discriminate..].
    rewrite bind_run.
    destruct (start_if_any_frame rc w3) as (w4 & -> & Hst4).
    cbv beta iota.
    pose proof (ensureInstalled_outcome this ask doInstall w2 Hir) as Hout.
    destruct ir as [err|p|p v]; cbn [result_installed result_version assert].
    + cbn [ret Monad_Js Js_ret]. discriminate.
    + rewrite bind_run. cbn [throw]. discriminate.
    + rewrite bind_run. cbn [ret Monad_Js Js_ret]. cbv beta iota.
      intros [= <- <-]. cbn [oldVersion newVersion].
      destruct Hout as (_ & (inf & Hrec & ->) & _ & ->).
      split; [reflexivity|]. split; [reflexivity|].
      exists inf. unfold record_of in *. now rewrite Hst4.
Qed.

End EnsureUpdatedOutcomes.

(** When [ensureUpdated] reports [updated: true], [doInstall] was true and
    a record is stored when it returns.  With a record stored at the call,
    the old version it reports is the version of that record and the new
    version is the one that the request of [checkVersion] resolved, which
    differs from the old.  With no record stored at the call, the old
    version is [undefined] and the new version is the version of the record
    that is stored when it returns. *)
Theorem ensureUpdated_updated_result (this : ServerInstaller)
    (ask doInstall showMessage : bool) (rc : option LanguageClient)
    (w : World) (vs : Versions) :
  fst (ensureUpdated this ask doInstall showMessage rc w)
  = Returned (OutdatedUpdated vs) ->
  doInstall = true
  /\ match record_of w with
     | Some (JsonText localinfo) =>
         oldVersion vs = Some (version localinfo)
         /\ (exists downinfo,
               fst (fetchDownloadInfo (provider this) w) = Returned downinfo
               /\ newVersion vs = Some (version downinfo)
               /\ version downinfo <> version localinfo)
         /\ exists inf,
              record_of (snd (ensureUpdated this ask doInstall showMessage rc w))
              = Some (JsonText inf)
     | Some (Garbage _) => False
     | None =>
         oldVersion vs = None
         /\ exists inf,
              record_of (snd (ensureUpdated this ask doInstall showMessage rc w))
              = Some (JsonText inf)
              /\ newVersion vs = Some (version inf)
     end.
Proof.
  destruct (ensureUpdated this ask doInstall showMessage rc w) as [r w'] eqn:Hrun.
  cbn [fst snd]. intros ->. now apply ensureUpdated_updated in Hrun.
Qed.

Lemma ensureUpdated_updated_result_witness :
  let this := Sample.installer_of Sample.releases None in
  let w := Sample.world (Sample.installed 41 "v1.1")
             (Sample.release 42 "v1.2") Sample.good_archive [] in
  let vs := {| oldVersion := Some "v1.1"; newVersion := Some "v1.2" |} in
  true = true
  /\ oldVersion vs = Some "v1.1"
  /\ (exists downinfo,
        fst (fetchDownloadInfo (provider this) w) = Returned downinfo
        /\ newVersion vs = Some (version downinfo)
        /\ version downinfo <> "v1.1")
  /\ exists inf,
       record_of (snd (ensureUpdated this true true true (Some TheClient) w))
       = Some (JsonText inf).
Proof.
  intros this w vs.
  apply (@ensureUpdated_updated_result this true true true (Some TheClient) w vs).
  reflexivity.
Defined.

(** ** [getLanguageServer] *)

Section GetLanguageServer.

Variable this : LanguageServerProvider.
Variable process : Process.

Lemma shouldRegularUpdate_run w :
  shouldRegularUpdate this w
  = (match record_of w with
     | None => Returned true
     | Some (JsonText inf) =>
         Returned (604800000 <=? clock w - downloadedTime inf)
     | Some (Garbage raw) =>
         Threw (SyntaxError ("Unexpected token in JSON: " ++ raw))
     end, w).
Proof.
  unfold shouldRegularUpdate. cbv zeta.
  rewrite bind_run, loadLocalDownloadInfo_run.
  now destruct (record_of w) as [[inf|raw]|].
Qed.

(** The tail of [getLanguageServer], after the download if any. *)
Lemma getLanguageServer_chmod w r w' :
  (x <- (if negb (is_Windows (operatingSystem (getPlatformDetails process)))
         then fs_chmodSync this (languageServerExe this)
         else ret tt) ;;
   ret (languageServerExe this)) w = (Returned r, w') ->
  r = languageServerExe this /\ w' = w
  /\ (is_Windows (operatingSystem (getPlatformDetails process)) = false ->
      existsSync this (languageServerExe this) w = true).
Proof.
  rewrite bind_run.
  destruct (is_Windows (operatingSystem (getPlatformDetails process)));
    cbn [negb].
  - cbn. intros [= <- <-]. repeat split. discriminate.
  - unfold fs_chmodSync.
    destruct (existsSync this (languageServerExe this) w); cbn.
    + intros [= <- <-]. auto.
    + discriminate.
Qed.

Lemma getLanguageServer_needed w :
  existsSync this (languageServerExe this) w = false
  \/ record_of w = None
  \/ (exists inf, record_of w = Some (JsonText inf)
                  /\ 604800000 <= clock w - downloadedTime inf) ->
  forall r w',
  getLanguageServer this process w = (Returned r, w') ->
  downloadLanguageServer this w = (Returned tt, w').
Proof.
  intros Hneeded r w'. unfold getLanguageServer. cbv zeta.
  rewrite bind_run, fs_existsSync_run. cbv beta iota. rewrite bind_run.
  assert (Hcond :
    (if negb (existsSync this (languageServerExe this) w)
     then ret true else shouldRegularUpdate this) w = (Returned true, w)
    \/ exists e,
       (if negb (existsSync this (languageServerExe this) w)
        then ret true else shouldRegularUpdate this) w = (Threw e, w)).
  { destruct (existsSync this (languageServerExe this) w); cbn [negb];
      [|now left].
    rewrite shouldRegularUpdate_run.
    destruct Hneeded as [Hmiss | [Hnone | (inf & Hrec & Hold)]].
    - discriminate.
    - rewrite Hnone. now left.
    - rewrite Hrec. left. f_equal. f_equal. now apply Z.leb_le. }
  destruct Hcond as [-> | [e ->]]; cbv beta iota; [|discriminate].
  rewrite bind_run.
  destruct (downloadLanguageServer this w) as [[[]|e|] w1]; cbv beta iota;
    [|discriminate..].
  intros Hrest. apply getLanguageServer_chmod in Hrest as (_ & -> & _).
  reflexivity.
Qed.

Lemma getLanguageServer_result w r w' :
  getLanguageServer this process w = (Returned r, w') ->
  r = languageServerExe this
  /\ (is_Windows (operatingSystem (getPlatformDetails process)) = false ->
      existsSync this (languageServerExe this) w' = true).
Proof.
  unfold getLanguageServer. cbv zeta.
  rewrite bind_run, fs_existsSync_run. cbv beta iota. rewrite bind_run.
  destruct ((if negb (existsSync this (languageServerExe this) w)
             then ret true else shouldRegularUpdate this) w)
    as [[needed|e|] w1]; cbv beta iota; [|discriminate..].
  rewrite bind_run.
  destruct ((if needed then downloadLanguageServer this else ret tt) w1)
    as [[[]|e|] w2]; cbv beta iota; [|discriminate..].
  intros Hrest. apply getLanguageServer_chmod in Hrest as (-> & -> & Hthere).
  auto.
Qed.

End GetLanguageServer.

(** While the executable is there and the stored record is younger than
    seven days (604800000 ms), [getLanguageServer] returns the path of the
    executable and leaves the world as it was: no request is sent, no file
    is written or removed, and nothing is reported. *)
Theorem getLanguageServer_recent (this : LanguageServerProvider)
    (process : Process) (w : World) (inf : IDownloadInfo) :
  existsSync this (languageServerExe this) w = true ->
  record_of w = Some (JsonText inf) ->
  clock w - downloadedTime inf < 604800000 ->
  getLanguageServer this process w = (Returned (languageServerExe this), w).
Proof.
  intros Hexe Hrec Hyoung. unfold getLanguageServer. cbv zeta.
  rewrite bind_run, fs_existsSync_run, Hexe. cbv beta iota. cbn [negb].
  rewrite bind_run, shouldRegularUpdate_run, Hrec.
  replace (604800000 <=? clock w - downloadedTime inf) with false
    by (symmetry; apply Z.leb_gt; exact Hyoung).
  cbv beta iota. rewrite bind_run. cbn [ret Monad_Js Js_ret]. cbv beta iota.
  rewrite bind_run.
  destruct (is_Windows (operatingSystem (getPlatformDetails process)));
    cbn [negb].
  - reflexivity.
  - unfold fs_chmodSync. now rewrite Hexe.
Qed.

Lemma getLanguageServer_recent_witness :
  let this := Sample.provider_of Sample.releases in
  let process := {| process_platform := "linux"; process_arch := "x64";
                    env_PROCESSOR_ARCHITEW6432 := false |} in
  let w := Sample.world (Sample.installed 41 "v1.1")
             (Sample.release 42 "v1.2") Sample.good_archive [] in
  getLanguageServer this process w = (Returned "/data/server/bin/tool", w).
Proof.
  intros this process w.
  apply (@getLanguageServer_recent this process w (Sample.record 41 "v1.1"));
    [reflexivity | reflexivity | vm_compute; reflexivity].
Defined.

(** When [getLanguageServer] returns, what it returns is the path of the
    executable, and on a platform other than Windows a file is there at
    this path: there [chmodSync] has run on it. *)
Theorem getLanguageServer_returns_executable (this : LanguageServerProvider)
    (process : Process) (w : World) (p : string) :
  fst (getLanguageServer this process w) = Returned p ->
  p = languageServerExe this
  /\ (is_Windows (operatingSystem (getPlatformDetails process)) = false ->
      existsSync this (languageServerExe this)
        (snd (getLanguageServer this process w)) = true).
Proof.
  destruct (getLanguageServer this process w) as [r w'] eqn:Hrun.
  cbn [fst snd]. intros ->. exact (getLanguageServer_result _ _ _ Hrun).
Qed.

Lemma getLanguageServer_returns_executable_witness :
  let this := Sample.provider_of Sample.releases in
  let process := {| process_platform := "linux"; process_arch := "x64";
                    env_PROCESSOR_ARCHITEW6432 := false |} in
  let w := Sample.world None (Sample.release 42 "v1.2")
             Sample.good_archive [] in
  "/data/server/bin/tool" = languageServerExe this
  /\ (is_Windows (operatingSystem (getPlatformDetails process)) = false ->
      existsSync this (languageServerExe this)
        (snd (getLanguageServer this process w)) = true).
Proof.
  intros this process w.
  apply (@getLanguageServer_returns_executable this process w).
  reflexivity.
Defined.


